(** * Lighting-controller scripts: a shallow embedding and its properties

    The three Python scripts of the repository are embedded as Rocq
    functions:

    - [dev001.py]  class [BMSLightController]      -> [Module BMS]
    - [dev002.py]  class [SmartHomeLightController] -> [Module SmartHome]
    - [dev003.py]  class [BuildingLightController]  -> [Module Building]

    Python values and exceptions live in [Module Py]; the network (HTTP
    and sockets) is an oracle with its own state, threaded through a small
    state-and-exception monad ([Module IO]) that also keeps the transcript
    of every I/O call made. *)

From Stdlib Require Import ZArith String Ascii List Bool Lia.
From Stdlib Require DecimalString.
Import ListNotations.
Open Scope Z_scope.

(* ===================================================================== *)
(** * Python runtime fragments                                            *)
(* ===================================================================== *)

Module Py.

(** Exception classes that occur in the scripts or can come out of the
    network libraries.  [KeyboardInterrupt] and [SystemExit] derive from
    [BaseException] only: a bare [except:] catches them, an
    [except Exception] does not. *)
Inductive exn : Type :=
| ConnectionError | Timeout | OSError | gaierror | JSONDecodeError
| AttributeError | TypeError | ValueError
| KeyboardInterrupt | SystemExit.

Definition is_Exception (e : exn) : bool :=
  match e with
  | KeyboardInterrupt | SystemExit => false
  | _ => true
  end.

(** Outcome of evaluating a Python expression or call. *)
Inductive result (A : Type) : Type :=
| Ret (a : A)
| Raise (e : exn).
Arguments Ret {A} a.
Arguments Raise {A} e.

Definition rbind {A B} (m : result A) (k : A -> result B) : result B :=
  match m with
  | Ret a => k a
  | Raise e => Raise e
  end.

(** Values produced by [response.json()].  JSON numbers with a fraction
    or an exponent (Python floats) are not represented. *)
#[local] Set Warnings "-register-all".
Inductive pyval : Type :=
| PNone
| PBool (b : bool)
| PInt (z : Z)
| PStr (s : string)
| PList (items : list pyval)
| PDict (entries : list (string * pyval)).

(** [bool(v)], as used by [if not zones]. *)
Definition truthy (v : pyval) : bool :=
  match v with
  | PNone => false
  | PBool b => b
  | PInt z => negb (z =? 0)
  | PStr s => negb (String.eqb s EmptyString)
  | PList items => match items with [] => false | _ => true end
  | PDict entries => match entries with [] => false | _ => true end
  end.

Fixpoint chars (s : string) : list pyval :=
  match s with
  | EmptyString => []
  | String c rest => PStr (String c EmptyString) :: chars rest
  end.

(** [iter(v)], as used by [for zone in zones]: a list yields its items,
    a dict its keys, a str its characters; the rest is not iterable. *)
Definition py_iter (v : pyval) : result (list pyval) :=
  match v with
  | PList items => Ret items
  | PDict entries => Ret (map (fun kv => PStr (fst kv)) entries)
  | PStr s => Ret (chars s)
  | PNone | PBool _ | PInt _ => Raise TypeError
  end.

(** [d.get(key, default)] on the entries of a dict (keys are distinct). *)
Fixpoint dict_get (entries : list (string * pyval)) (key : string)
         (default : pyval) : pyval :=
  match entries with
  | [] => default
  | (k, v) :: rest => if String.eqb k key then v else dict_get rest key default
  end.

(** [v.get(key, default)]: only dicts have a [get] attribute. *)
Definition py_get (v : pyval) (key : string) (default : pyval) : result pyval :=
  match v with
  | PDict entries => Ret (dict_get entries key default)
  | _ => Raise AttributeError
  end.

Definition is_dict (v : pyval) : bool :=
  match v with
  | PDict _ => true
  | _ => false
  end.

(** Pieces of an f-string: literal text and formatted values. *)
Inductive fpart : Type :=
| Lit (s : string)
| Fmt (v : pyval).
Definition fstring := list fpart.

(** [bytearray(ints)] and [bytearray.append(v)]: every item must be in
    [range(0, 256)], otherwise [ValueError]. *)
Definition byte_ok (v : Z) : bool := (0 <=? v) && (v <? 256).

Definition bytearray (ints : list Z) : result (list Z) :=
  if forallb byte_ok ints then Ret ints else Raise ValueError.

Definition bytearray_append (buf : list Z) (v : Z) : result (list Z) :=
  if byte_ok v then Ret (buf ++ [v]) else Raise ValueError.

End Py.
Import Py.

Declare Scope result_scope.
Delimit Scope result_scope with result.
Notation "x <- m ;; k" := (rbind m (fun x => k))
  (at level 61, m at next level, right associativity) : result_scope.

(* ===================================================================== *)
(** * The network and the I/O monad                                       *)
(* ===================================================================== *)

Module IO.

Inductive http_verb : Type := GET | POST.

(** The [json=] or [data=] argument of a request.  A SOAP envelope is
    kept by the name of the operation in its body. *)
Inductive payload : Type :=
| NoBody
| JsonBody (v : pyval)
| SoapBody (operation : string).

(** One call of [requests.get/post] or [session.get/post], with the
    arguments of the call; [headers] is the [headers=] argument (the
    default headers of the session are the same on every call and are
    left out), [auth] the [auth=] argument or the session's.  A request
    is the call the script makes, not the messages on the wire: no call
    of the scripts passes [allow_redirects], so the library follows a
    redirecting answer by itself, and the response of a call is the one
    the library hands back in the end. *)
Record request : Type := mkRequest {
  verb : http_verb;
  url : fstring;
  body : payload;
  headers : list (string * string);
  auth : option (string * string);
  timeout : Z;
  verify : bool
}.

(** What the scripts read of a response: [status_code] and [json()],
    which raises when the body is not JSON ([None] here). *)
Record response : Type := mkResponse {
  status_code : Z;
  json : option pyval
}.

Inductive sock_type : Type := SOCK_STREAM | SOCK_DGRAM.

(** Socket calls; a function of the scripts has one socket at a time. *)
Inductive sock_call : Type :=
| Socket (t : sock_type)
| SetTimeout (seconds : Z)
| ConnectEx (host : string) (port : Z)
| Connect (host : string) (port : Z)
| Send (data : list Z)
| Recv (bufsize : Z)
| SendTo (data : list Z) (host : string) (port : Z)
| Close.

(** The network seen from the scripts: an oracle with a state of its own
    that answers each HTTP request with a response or an exception, and
    each socket call with an integer ([connect_ex]: the error code, 0 for
    success; [send], [sendto]: bytes sent; [recv]: bytes received, whose
    content no script reads) or an exception. *)
Record network (S : Type) : Type := mkNetwork {
  net_http : request -> S -> result response * S;
  net_sock : sock_call -> S -> result Z * S
}.
Arguments net_http {S} _ _ _.
Arguments net_sock {S} _ _ _.

(** Transcript of the I/O done, oldest first. [EvSleep] is
    [time.sleep], in milliseconds. *)
Inductive event : Type :=
| EvHttp (r : request) (reply : result response)
| EvSock (c : sock_call) (reply : result Z)
| EvSleep (ms : Z).

Record world (S : Type) : Type := mkWorld {
  net_state : S;
  transcript : list event
}.
Arguments mkWorld {S} _ _.
Arguments net_state {S} _.
Arguments transcript {S} _.

Section Monad.
Context {S : Type}.

Definition M (A : Type) : Type := world S -> result A * world S.

Definition ret {A} (a : A) : M A := fun w => (Ret a, w).
Definition raise {A} (e : exn) : M A := fun w => (Raise e, w).

Definition bind {A B} (m : M A) (k : A -> M B) : M B :=
  fun w => match m w with
           | (Ret a, w') => k a w'
           | (Raise e, w') => (Raise e, w')
           end.

Definition lift {A} (r : result A) : M A := fun w => (r, w).

(** [try: body  except: handler] (a bare except catches everything). *)
Definition try_except {A} (body : M A) (handler : exn -> M A) : M A :=
  fun w => match body w with
           | (Ret a, w') => (Ret a, w')
           | (Raise e, w') => handler e w'
           end.

(** [try: body  except Exception as e: handler]. *)
Definition try_except_Exception {A} (body : M A) (handler : exn -> M A) : M A :=
  fun w => match body w with
           | (Ret a, w') => (Ret a, w')
           | (Raise e, w') =>
               if is_Exception e then handler e w' else (Raise e, w')
           end.

(** [try: body  finally: cleanup]; [cleanup] does not raise here. *)
Definition try_finally {A} (body : M A) (cleanup : M unit) : M A :=
  fun w => match body w with
           | (r, w') => (r, snd (cleanup w'))
           end.

Definition log (ev : event) (w : world S) : world S :=
  mkWorld (net_state w) (transcript w ++ [ev]).

Variable net : network S.

Definition http (r : request) : M response :=
  fun w => let (reply, s') := net_http net r (net_state w) in
           (reply, mkWorld s' (transcript w ++ [EvHttp r reply])).

Definition sock (c : sock_call) : M Z :=
  fun w => let (reply, s') := net_sock net c (net_state w) in
           (reply, mkWorld s' (transcript w ++ [EvSock c reply])).

(** [settimeout] with a constant and [close] on an open socket are
    local operations that do not raise: they are recorded in the
    transcript without consulting the network. *)
Definition sock_local (c : sock_call) : M unit :=
  fun w => (Ret tt, log (EvSock c (Ret 0)) w).

Definition sleep (ms : Z) : M unit :=
  fun w => (Ret tt, log (EvSleep ms) w).

End Monad.

Declare Scope io_scope.
Delimit Scope io_scope with io.
Notation "x <- m ;; k" := (bind m (fun x => k))
  (at level 61, m at next level, right associativity) : io_scope.
Notation "m ;;; k" := (bind m (fun _ => k))
  (at level 61, right associativity) : io_scope.

Section Loops.
Context {S : Type}.
Local Open Scope io_scope.

(** [for x in xs: body] where [body] either executes [return v]
    ([Some v]) or falls through to the next item ([None]); the loop
    yields [None] when it runs to its end. *)
Fixpoint for_return {A R} (xs : list A) (body : A -> M (S:=S) (option R))
  : M (option R) :=
  match xs with
  | [] => ret None
  | x :: rest =>
      r <- body x ;;
      match r with
      | Some v => ret (Some v)
      | None => for_return rest body
      end
  end.

(** [return v] after a loop that may have returned already. *)
Definition or_return {R} (loop : M (S:=S) (option R)) (after : M R) : M R :=
  r <- loop ;;
  match r with
  | Some v => ret v
  | None => after
  end.

End Loops.

Definition status_in (r : response) (codes : list Z) : bool :=
  existsb (Z.eqb (status_code r)) codes.

(** ** Vocabulary for statements about computations *)
Section Predicates.
Context {S : Type}.

(** The computation returns from every world: it never raises. *)
Definition no_raise {A} (m : M (S:=S) A) : Prop :=
  forall w, exists a w', m w = (Ret a, w').

(** Whatever the computation raises derives from [Exception]. *)
Definition raises_only_Exception {A} (m : M (S:=S) A) : Prop :=
  forall w e w', m w = (Raise e, w') -> is_Exception e = true.

(** The outcome does not depend on the world the computation starts in. *)
Definition steady {A} (m : M (S:=S) A) : Prop :=
  forall w1 w2, fst (m w1) = fst (m w2).

(** A responder whose answers do not change: the reply to a call is
    the same in every state of the network. *)
Definition unchanging (net : network S) : Prop :=
  (forall r s1 s2, fst (net_http net r s1) = fst (net_http net r s2)) /\
  (forall c s1 s2, fst (net_sock net c s1) = fst (net_sock net c s2)).

End Predicates.

(** Number of [time.sleep] calls in a stretch of transcript. *)
Definition pauses (evs : list event) : Z :=
  Z.of_nat (length (filter (fun ev => match ev with EvSleep _ => true | _ => false end)
                           evs)).

(** The computation may talk to the network but never sleeps. *)
Definition sleepless {S A : Type} (m : M (S:=S) A) : Prop :=
  forall w, exists evs,
    transcript (snd (m w)) = transcript w ++ evs /\ pauses evs = 0.

(** Every event the computation adds to the transcript satisfies [P]. *)
Definition only_emits {S A : Type} (P : event -> Prop) (m : M (S:=S) A) : Prop :=
  forall w, exists evs,
    transcript (snd (m w)) = transcript w ++ evs /\ Forall P evs.

(** A network that fails with ordinary errors only: what it raises
    derives from [Exception]. *)
Definition civil {S : Type} (net : network S) : Prop :=
  (forall r s e, fst (net_http net r s) = Raise e -> is_Exception e = true) /\
  (forall c s e, fst (net_sock net c s) = Raise e -> is_Exception e = true).

(** Sockets created and sockets closed in a stretch of transcript. *)
Definition opens (evs : list event) : Z :=
  Z.of_nat (length (filter (fun ev => match ev with
                                      | EvSock (Socket _) (Ret _) => true
                                      | _ => false
                                      end) evs)).

Definition closes (evs : list event) : Z :=
  Z.of_nat (length (filter (fun ev => match ev with
                                      | EvSock Close _ => true
                                      | _ => false
                                      end) evs)).

(** An event that neither creates nor closes a socket. *)
Definition socket_neutral (ev : event) : Prop :=
  match ev with
  | EvSock (Socket _) _ | EvSock Close _ => False
  | _ => True
  end.

(** The computation closes every socket it creates. *)
Definition balanced {S A : Type} (m : M (S:=S) A) : Prop :=
  forall w, exists evs,
    transcript (snd (m w)) = transcript w ++ evs /\ opens evs = closes evs.

Definition raised (ev : event) : bool :=
  match ev with
  | EvHttp _ (Raise _) | EvSock _ (Raise _) => true
  | _ => false
  end.

(** The socket calls of a stretch of transcript, in the order they were
    made. *)
Definition sock_calls (evs : list event) : list sock_call :=
  flat_map (fun ev => match ev with
                      | EvSock c _ => [c]
                      | _ => []
                      end) evs.

End IO.
Import IO.

(* ===================================================================== *)
(** * Fallback chains                                                     *)
(* ===================================================================== *)

(** The loop shared by [BMSLightController.turn_off_all_lights]:

      for method in methods:
          try:
              if method(): return True
          except Exception: continue
      return False

    over any list of callables.  Next to the returned boolean the model
    keeps a ghost list of the calls [method()] made, each with what came
    out of it; it is not part of what the Python function returns. *)

Module Chain.
Local Open Scope io_scope.

Inductive verdict : Type :=
| ReturnedTrue
| ReturnedFalse
| Raised (e : exn).

Definition failed (v : verdict) : Prop := v <> ReturnedTrue.

Record strategy (S : Type) : Type := mkStrategy {
  strategy_name : string;
  execute : M (S:=S) bool
}.
Arguments mkStrategy {S} _ _.
Arguments strategy_name {S} _.
Arguments execute {S} _.

Definition attempt : Type := string * verdict.

Section Run.
Context {S : Type}.

(** One pass of the loop body: the call inside [try], and what the
    [try] statement makes of it. *)
Definition attempt_once (method : strategy S) : M (S:=S) verdict :=
  try_except_Exception
    (b <- execute method ;;
     ret (if b : bool then ReturnedTrue else ReturnedFalse))
    (fun e => ret (Raised e)).

Fixpoint run_chain (methods : list (strategy S)) (attempts : list attempt)
  : M (S:=S) (bool * list attempt) :=
  match methods with
  | [] => ret (false, attempts)
  | method :: rest =>
      v <- attempt_once method ;;
      let attempts' := attempts ++ [(strategy_name method, v)] in
      match v with
      | ReturnedTrue => ret (true, attempts')
      | _ => run_chain rest attempts'
      end
  end.

(** What the caller gets: the boolean alone. *)
Definition dispatch (methods : list (strategy S)) : M (S:=S) bool :=
  r <- run_chain methods [] ;;
  ret (fst r).

(** The loop of [BuildingLightController.emergency_light_off], which
    has no [try] around the call:

      for method in methods:
          if method(controller_ip): return True
      return False *)
Fixpoint run_chain_plain (methods : list (strategy S)) (attempts : list attempt)
  : M (S:=S) (bool * list attempt) :=
  match methods with
  | [] => ret (false, attempts)
  | method :: rest =>
      b <- execute method ;;
      if b : bool
      then ret (true, attempts ++ [(strategy_name method, ReturnedTrue)])
      else run_chain_plain rest (attempts ++ [(strategy_name method, ReturnedFalse)])
  end.

Definition dispatch_plain (methods : list (strategy S)) : M (S:=S) bool :=
  r <- run_chain_plain methods [] ;;
  ret (fst r).

(** Reference behaviour used to state properties: call every strategy
    of the list once, in order, whatever each one answers. *)
Fixpoint invoke_all (methods : list (strategy S)) (w : world S)
  : list (result bool) * world S :=
  match methods with
  | [] => ([], w)
  | method :: rest =>
      let (o, w1) := execute method w in
      let (os, w') := invoke_all rest w1 in
      (o :: os, w')
  end.

Definition verdict_of (o : result bool) : verdict :=
  match o with
  | Ret true => ReturnedTrue
  | Ret false => ReturnedFalse
  | Raise e => Raised e
  end.

(** A strategy failure as the loop of [turn_off_all_lights] sees it:
    a falsy return or an exception that [except Exception] catches. *)
Definition outcome_failed (o : result bool) : Prop :=
  match o with
  | Ret b => b = false
  | Raise e => is_Exception e = true
  end.

(** The run behind an answer [b] of the loop, in terms of the calls
    themselves: the first [n] strategies were called once each, in list
    order, [w'] is the world these calls left and [log] what each call
    gave.  For [True] the last of them succeeded and all before it
    failed; for [False] every strategy of the list was called and
    failed. *)
Definition attempted (methods : list (strategy S)) (w : world S)
           (b : bool) (log : list attempt) (w' : world S) : Prop :=
  exists (n : nat) (outs : list (result bool)),
    (n <= length methods)%nat /\
    invoke_all (firstn n methods) w = (outs, w') /\
    log = combine (map strategy_name (firstn n methods)) (map verdict_of outs) /\
    if b
    then exists init, outs = init ++ [Ret true] /\ Forall outcome_failed init
    else n = length methods /\ Forall outcome_failed outs.

End Run.
End Chain.
Import Chain.

(* ===================================================================== *)
(** * dev001.py: BMSLightController                                       *)
(* ===================================================================== *)

Module BMS.
Local Open Scope io_scope.
Local Open Scope string_scope.
Local Open Scope Z_scope.

Record BMSLightController : Type := mkBMS {
  controller_ip : string;
  port : Z;
  username : option string;
  password : option string
}.

(** [f"http://{controller_ip}:{port}"] *)
Definition base_url (self : BMSLightController) : fstring :=
  [Lit "http://"; Fmt (PStr (controller_ip self)); Lit ":"; Fmt (PInt (port self))].

(** [(username, password) if username and password else None] *)
Definition self_auth (self : BMSLightController) : option (string * string) :=
  match username self, password self with
  | Some u, Some p =>
      if truthy (PStr u) && truthy (PStr p) then Some (u, p) else None
  | _, _ => None
  end.

Definition response_json (r : response) : result pyval :=
  match json r with
  | Some v => Ret v
  | None => Raise JSONDecodeError
  end.

(** What an answer gives [get_lighting_zones]: the decoded body when
    the status is 200 and the body is JSON, nothing otherwise. *)
Definition yields (reply : result response) : option pyval :=
  match reply with
  | Ret r => if status_code r =? 200 then json r else None
  | Raise _ => None
  end.

(** Successes and failures in a ghost record of per-zone results. *)
Definition successes (per_zone : list (pyval * bool)) : Z :=
  Z.of_nat (length (filter (fun e => snd e) per_zone)).

Definition failures (per_zone : list (pyval * bool)) : Z :=
  Z.of_nat (length (filter (fun e => negb (snd e)) per_zone)).

Section Methods.
Context {S : Type} (net : network S) (self : BMSLightController).

(** [self.session.get(f"{self.base_url}{endpoint}", timeout=t, verify=False)] *)
Definition session_get (endpoint : fstring) (t : Z) : M response :=
  http net (mkRequest GET (base_url self ++ endpoint)%list NoBody []
                      (self_auth self) t false).

(** [self.session.post(f"{self.base_url}{endpoint}", ..., timeout=t, verify=False)] *)
Definition session_post (endpoint : fstring) (b : payload)
           (hdrs : list (string * string)) (t : Z) : M response :=
  http net (mkRequest POST (base_url self ++ endpoint)%list b hdrs
                      (self_auth self) t false).

(** [with socket.socket(socket.AF_INET, t) as s: body] *)
Definition with_socket {A} (t : sock_type) (body : M A) : M A :=
  sock net (Socket t) ;;;
  try_finally body (sock_local Close).

Definition _try_bacnet : M (option string) :=
  or_return
    (try_except
       (with_socket SOCK_STREAM
          (sock_local (SetTimeout 2) ;;;
           result <- sock net (ConnectEx (controller_ip self) 47808) ;;
           if result =? 0 then ret (Some (Some "BACnet")) else ret None))
       (fun _ => ret None))
    (ret None).

(** The request [get_lighting_zones] makes for an endpoint. *)
Definition zones_request (endpoint : string) : request :=
  mkRequest GET (base_url self ++ [Lit endpoint])%list NoBody []
            (self_auth self) 10 false.

(** The transcript of asking [endpoints] in order and getting
    [replies]. *)
Definition zone_events (endpoints : list string)
           (replies : list (result response)) : list event :=
  map (fun er => EvHttp (zones_request (fst er)) (snd er))
      (combine endpoints replies).

Definition zone_endpoints : list string :=
  ["/api/lighting/zones"; "/bms/lighting"; "/zones"; "/api/zones"; "/lighting"].

Definition get_lighting_zones : M pyval :=
  try_except_Exception
    (or_return
       (for_return zone_endpoints (fun endpoint =>
          try_except
            (response <- session_get [Lit endpoint] 10 ;;
             if status_code response =? 200
             then (v <- lift (response_json response) ;; ret (Some v))
             else ret None)
            (fun _ => ret None)))
       (ret (PList [])))
    (fun _ => ret (PList [])).

Definition _turn_off_via_rest : M bool :=
  let endpoints :=
    [("/api/lighting/all/off", "POST");
     ("/bms/lighting/off", "POST");
     ("/api/control/lighting/off", "POST");
     ("/lighting/off", "POST");
     ("/cmd/lightsoff", "GET")] in
  or_return
    (for_return endpoints (fun '(endpoint, method) =>
       try_except
         (response <-
            (if String.eqb method "POST"
             then session_post [Lit endpoint]
                    (JsonBody (PDict [("state", PStr "off");
                                      ("command", PStr "all_off")]))
                    [] 10
             else session_get [Lit endpoint] 10) ;;
          if status_in response [200; 201; 202]
          then ret (Some true) else ret None)
         (fun _ => ret None)))
    (ret false).

Definition _turn_off_via_soap : M bool :=
  try_except
    (let hdrs := [("Content-Type", "text/xml; charset=utf-8")] in
     response <- session_post [Lit "/WebService.asmx"]
                   (SoapBody "TurnOffAllLights") hdrs 10 ;;
     ret (status_code response =? 200))
    (fun _ => ret false).

Definition _turn_off_via_simple_http : M bool :=
  let commands :=
    ["/lightoff.cgi?all=1";
     "/control.cgi?cmd=lightsoff";
     "/cmd.cgi?light=off";
     "/api.cgi?action=lightoff";
     "/switch.cgi?all=off"] in
  or_return
    (for_return commands (fun command =>
       try_except
         (response <- session_get [Lit command] 10 ;;
          if status_code response =? 200
          then ret (Some true) else ret None)
         (fun _ => ret None)))
    (ret false).

Definition _turn_off_via_bacnet_simulation : M bool :=
  try_except
    (let bacnet_data :=
       PDict [("objectType", PStr "binaryOutput");
              ("objectInstance", PStr "all");
              ("property", PStr "presentValue");
              ("value", PStr "inactive")] in
     response <- session_post [Lit "/bacnet/command"]
                   (JsonBody bacnet_data) [] 10 ;;
     ret (status_code response =? 200))
    (fun _ => ret false).

Definition turn_off_zone (zone_id : pyval) : M bool :=
  let endpoints : list fstring :=
    [[Lit "/api/lighting/zones/"; Fmt zone_id; Lit "/off"];
     [Lit "/bms/lighting/zone/"; Fmt zone_id; Lit "/off"];
     [Lit "/api/control/zone/"; Fmt zone_id];
     [Lit "/zone/"; Fmt zone_id; Lit "/off"]] in
  or_return
    (for_return endpoints (fun endpoint =>
       try_except
         (response <- session_post endpoint
                        (JsonBody (PDict [("state", PStr "off")])) [] 5 ;;
          if status_in response [200; 201; 202]
          then ret (Some true) else ret None)
         (fun _ => ret None)))
    (ret false).

(** The four paths [turn_off_zone] posts to for [zone_id], in order. *)
Definition zone_off_endpoints (zone_id : pyval) : list fstring :=
  [[Lit "/api/lighting/zones/"; Fmt zone_id; Lit "/off"];
   [Lit "/bms/lighting/zone/"; Fmt zone_id; Lit "/off"];
   [Lit "/api/control/zone/"; Fmt zone_id];
   [Lit "/zone/"; Fmt zone_id; Lit "/off"]].

(** The request [turn_off_zone] makes for an endpoint. *)
Definition zone_off_request (endpoint : fstring) : request :=
  mkRequest POST (base_url self ++ endpoint)%list
            (JsonBody (PDict [("state", PStr "off")])) []
            (self_auth self) 5 false.

(** The transcript of posting the off-command to [endpoints] in order
    and getting [replies]. *)
Definition zone_off_events (endpoints : list fstring)
           (replies : list (result response)) : list event :=
  map (fun er => EvHttp (zone_off_request (fst er)) (snd er))
      (combine endpoints replies).

(** Whether [turn_off_zone] takes an answer as the zone switched off:
    a response with status 200, 201 or 202. *)
Definition switched_off (reply : result response) : bool :=
  match reply with
  | Ret r => status_in r [200; 201; 202]
  | Raise _ => false
  end.

(** The replies of one [turn_off_zone] call: the requests stop at the
    first answer taken as success, and all endpoints are tried when
    there is none. *)
Definition stops_at_success (endpoints : list fstring)
           (replies : list (result response)) : Prop :=
  (length replies <= length endpoints)%nat /\
  (forall earlier reply later,
      replies = (earlier ++ reply :: later)%list -> later <> [] ->
      switched_off reply = false) /\
  (existsb switched_off replies = false -> length replies = length endpoints).

(** [zone.get('id', zone.get('zoneId', zone.get('name')))] *)
Definition zone_id_of (zone : pyval) : result pyval :=
  (name <- py_get zone "name" PNone ;;
   zoneId <- py_get zone "zoneId" name ;;
   py_get zone "id" zoneId)%result.

(** The loop [for zone in zones] of [_turn_off_zone_by_zone], with the
    local [success_count] as an argument.  [per_zone] is a ghost
    record of each [turn_off_zone] call and its result. *)
Fixpoint zone_loop (zones : list pyval) (success_count : Z)
         (per_zone : list (pyval * bool)) : M (Z * list (pyval * bool)) :=
  match zones with
  | [] => ret (success_count, per_zone)
  | zone :: rest =>
      zone_id <- lift (zone_id_of zone) ;;
      ok <- turn_off_zone zone_id ;;
      if ok : bool
      then (sleep 500 ;;;
            zone_loop rest (success_count + 1) (per_zone ++ [(zone_id, true)]))
      else zone_loop rest success_count (per_zone ++ [(zone_id, false)])
  end.

(** Commanding the zones [zone_ids] one after the other: one call of
    [turn_off_zone] for each, in list order, with half a second of sleep
    after each call that returned [True]; the results of the calls, in
    order. *)
Fixpoint switch_each (zone_ids : list pyval) : M (list bool) :=
  match zone_ids with
  | [] => ret []
  | zone_id :: rest =>
      ok <- turn_off_zone zone_id ;;
      (if ok : bool then sleep 500 else ret tt) ;;;
      oks <- switch_each rest ;;
      ret (ok :: oks)
  end.

(** Everything after [zones = self.get_lighting_zones()]. *)
Definition turn_off_zones (zones : pyval) : M (bool * list (pyval * bool)) :=
  if negb (truthy zones) then ret (false, [])
  else
    items <- lift (py_iter zones) ;;
    r <- zone_loop items 0 [] ;;
    ret (fst r >? 0, snd r).

Definition _turn_off_zone_by_zone : M bool :=
  try_except_Exception
    (zones <- get_lighting_zones ;;
     r <- turn_off_zones zones ;;
     ret (fst r))
    (fun _ => ret false).

Definition methods : list (strategy S) :=
  [mkStrategy "_turn_off_via_rest" _turn_off_via_rest;
   mkStrategy "_turn_off_via_soap" _turn_off_via_soap;
   mkStrategy "_turn_off_via_simple_http" _turn_off_via_simple_http;
   mkStrategy "_turn_off_via_bacnet_simulation" _turn_off_via_bacnet_simulation;
   mkStrategy "_turn_off_zone_by_zone" _turn_off_zone_by_zone].

Definition turn_off_all_lights : M bool := dispatch methods.

End Methods.

(** The calls [turn_off_all_lights] may make: a [session.get] or
    [session.post] whose URL argument starts with [base_url], made with
    the session's credentials and [verify=False], or a sleep of half a
    second; no socket call.  This judges the arguments of the call; the
    requests the library sends by itself when an answer redirects are
    not events of the transcript. *)
Definition to_controller (self : BMSLightController) (ev : event) : Prop :=
  match ev with
  | EvHttp r _ =>
      firstn 4 (url r) = base_url self /\
      auth r = self_auth self /\
      verify r = false
  | EvSleep ms => ms = 500
  | EvSock _ _ => False
  end.

Section Probes.
Context {S : Type} (net : network S) (self : BMSLightController).

(** One pass of the port loops of [_try_modbus] and [_try_knx]: a
    socket of its own, closed by the [with] statement on every path. *)
Definition try_port (name : string) (port : Z) : M (option (option string)) :=
  try_except
    (with_socket net SOCK_STREAM
       (sock_local (SetTimeout 2) ;;;
        result <- sock net (ConnectEx (controller_ip self) port) ;;
        if result =? 0 then ret (Some (Some name)) else ret None))
    (fun _ => ret None).

Definition _try_modbus : M (option string) :=
  let modbus_ports := [502; 510; 1502] in
  or_return (for_return modbus_ports (try_port "Modbus")) (ret None).

Definition _try_knx : M (option string) :=
  let knx_ports := [3671; 3672] in
  or_return (for_return knx_ports (try_port "KNX")) (ret None).

Definition _try_lonworks : M (option string) :=
  or_return (try_port "LonWorks" 1628) (ret None).



Definition status_endpoints : list string :=
  ["/api/status"; "/status"; "/system/status"; "/bms/status"].

(** [{"status": "unknown", "error": "Cannot retrieve status"}] *)
Definition status_unknown : pyval :=
  PDict [("status", PStr "unknown"); ("error", PStr "Cannot retrieve status")].

(** [str(e)] for an exception, which the model does not know. *)
Variable exn_message : exn -> string.

Definition get_system_status : M pyval :=
  try_except_Exception
    (or_return
       (for_return status_endpoints (fun endpoint =>
          try_except
            (response <- session_get net self [Lit endpoint] 5 ;;
             if status_code response =? 200
             then (v <- lift (response_json response) ;; ret (Some v))
             else ret None)
            (fun _ => ret None)))
       (ret status_unknown))
    (fun e => ret (PDict [("status", PStr "error");
                          ("message", PStr (exn_message e))])).

End Probes.
End BMS.

(* ===================================================================== *)
(** * dev003.py: BuildingLightController                                  *)
(* ===================================================================== *)

Module Building.
Local Open Scope io_scope.
Local Open Scope string_scope.
Local Open Scope Z_scope.

(** A value of [building_protocols]: [{'port': ..., 'protocol': ...}]. *)
Record protocol_info : Type := mkInfo {
  info_port : Z;
  info_protocol : string
}.

(** The two attributes set by [__init__].  [building_protocols] is a
    dict, kept as the list of its items in insertion order. *)
Record BuildingLightController : Type := mkBuilding {
  building_protocols : list (string * protocol_info);
  common_controllers : list string
}.

(** [BuildingLightController()] *)
Definition init : BuildingLightController :=
  mkBuilding
    [("knx", mkInfo 3671 "UDP");
     ("modbus", mkInfo 502 "TCP");
     ("bacnet", mkInfo 47808 "UDP");
     ("dali", mkInfo 50000 "TCP");
     ("opcua", mkInfo 4840 "TCP");
     ("rest_api", mkInfo 80 "HTTP");
     ("mqtt", mkInfo 1883 "TCP")]
    ["192.168.1.100"; "192.168.1.101"; "192.168.1.200"; "192.168.1.201";
     "192.168.1.10"; "192.168.1.50"; "plc.local"; "building-ctrl.local"].

(** An item of [found_controllers]. *)
Record found_controller : Type := mkFound {
  found_ip : string;
  found_port : Z;
  found_protocol : string;
  found_type : string
}.

(** The dict appended to [found_controllers] for a target and an item
    of the catalog. *)
Definition entry (p : string * (string * protocol_info)) : found_controller :=
  let '(ip, (protocol_name, info)) := p in
  mkFound ip (info_port info) protocol_name (info_protocol info).

(** The (target, protocol) pair of a result entry. *)
Definition pair_of (f : found_controller) : string * string :=
  (found_ip f, found_protocol f).

Definition hex_digit (c : ascii) : option Z :=
  let n := Z.of_nat (nat_of_ascii c) in
  if (48 <=? n) && (n <=? 57) then Some (n - 48)
  else if (97 <=? n) && (n <=? 102) then Some (n - 87)
  else if (65 <=? n) && (n <=? 70) then Some (n - 55)
  else None.

Definition is_space (c : ascii) : bool :=
  let n := Z.of_nat (nat_of_ascii c) in
  (n =? 32) || ((9 <=? n) && (n <=? 13)).

(** [bytes.fromhex(s)]: two hex digits per byte, whitespace between
    bytes skipped, [ValueError] otherwise. *)
Fixpoint fromhex (s : string) : result (list Z) :=
  match s with
  | EmptyString => Ret []
  | String c tail =>
      if is_space c then fromhex tail
      else
        match tail with
        | EmptyString => Raise ValueError
        | String c' rest =>
            match hex_digit c, hex_digit c' with
            | Some hi, Some lo =>
                (bytes <- fromhex rest ;; Ret (16 * hi + lo :: bytes))%result
            | _, _ => Raise ValueError
            end
        end
  end.

Section Methods.
Context {S : Type} (net : network S).

Definition check_controller (ip : string) (port : Z) (protocol : string)
  : M bool :=
  or_return
    (try_except
       (if existsb (String.eqb protocol) ["TCP"; "HTTP"] then
          sock net (Socket SOCK_STREAM) ;;;
          sock_local (SetTimeout 2) ;;;
          result <- sock net (ConnectEx ip port) ;;
          sock_local Close ;;;
          ret (Some (result =? 0))
        else if String.eqb protocol "UDP" then
          sock net (Socket SOCK_DGRAM) ;;;
          sock_local (SetTimeout 2) ;;;
          sock net (SendTo [0] ip port) ;;;
          sock_local Close ;;;
          ret (Some true)
        else ret None)
       (fun _ => ret (Some false)))
    (ret false).

(** The inner loop of [discover_building_controllers], over
    [self.building_protocols.items()]. *)
Fixpoint probe_protocols (controller_ip : string)
         (items : list (string * protocol_info))
         (found_controllers : list found_controller)
  : M (list found_controller) :=
  match items with
  | [] => ret found_controllers
  | (protocol_name, info) :: rest =>
      ok <- check_controller controller_ip (info_port info) (info_protocol info) ;;
      probe_protocols controller_ip rest
        (if ok : bool
         then (found_controllers ++
               [mkFound controller_ip (info_port info) protocol_name
                        (info_protocol info)])%list
         else found_controllers)
  end.

(** The outer loop, over [self.common_controllers]. *)
Fixpoint probe_controllers (controllers : list string)
         (items : list (string * protocol_info))
         (found_controllers : list found_controller)
  : M (list found_controller) :=
  match controllers with
  | [] => ret found_controllers
  | controller_ip :: rest =>
      found_controllers' <- probe_protocols controller_ip items found_controllers ;;
      probe_controllers rest items found_controllers'
  end.

Definition discover_building_controllers (self : BuildingLightController)
  : M (list found_controller) :=
  probe_controllers (common_controllers self) (building_protocols self) [].

(** What the probe reports for a target and a catalog entry when it
    runs with the network in state [s]. *)
Definition reported (s : S) (ip : string) (info : protocol_info) : bool :=
  match fst (check_controller ip (info_port info) (info_protocol info)
                              (mkWorld s [])) with
  | Ret b => b
  | Raise _ => false
  end.

(** [requests.post(endpoint, json=..., timeout=5, auth=...)] *)
Definition requests_post (endpoint : fstring) (b : payload)
           (a : option (string * string)) : M response :=
  http net (mkRequest POST endpoint b [] a 5 true).

Definition turn_off_lights_via_rest (controller_ip : string) : M bool :=
  let at_host (path : string) : fstring :=
    [Lit "http://"; Fmt (PStr controller_ip); Lit path] in
  or_return
    (try_except_Exception
       (let endpoints :=
          [at_host "/api/lighting/all/off";
           at_host "/api/lighting/zone/all/off";
           at_host "/api/building/lighting/off";
           at_host "/api/system/lighting/off";
           at_host "/rest/lighting/all/off"] in
        r <- for_return endpoints (fun endpoint =>
               try_except
                 (response <- requests_post endpoint NoBody None ;;
                  if status_in response [200; 201; 202]
                  then ret (Some true) else ret None)
                 (fun _ => ret None)) ;;
        match r with
        | Some b => ret (Some b)
        | None =>
            let auth_endpoints :=
              [at_host "/api/control/lighting"; at_host "/api/command"] in
            for_return auth_endpoints (fun endpoint =>
              try_except
                (let data :=
                   PDict [("command", PStr "lights_off");
                          ("zone", PStr "all");
                          ("action", PStr "off")] in
                 response <- requests_post endpoint (JsonBody data)
                               (Some ("admin", "admin")) ;;
                 if status_in response [200; 201]
                 then ret (Some true) else ret None)
                (fun _ => ret None))
        end)
       (fun _ => ret None))
    (ret false).

Definition turn_off_lights_via_modbus (controller_ip : string) : M bool :=
  try_except_Exception
    (modbus_message <- lift (fromhex "00010000000601050000FF00") ;;
     sock net (Socket SOCK_STREAM) ;;;
     sock_local (SetTimeout 5) ;;;
     sock net (Connect controller_ip 502) ;;;
     sock net (Send modbus_message) ;;;
     sock net (Recv 1024) ;;;
     sock_local Close ;;;
     ret true)
    (fun _ => ret false).

Definition turn_off_lights_via_knx (controller_ip : string) : M bool :=
  try_except_Exception
    (knx_packet <- lift (fromhex
        "0610020500140801c0a8016404d200000000000000000000") ;;
     sock net (Socket SOCK_DGRAM) ;;;
     sock_local (SetTimeout 5) ;;;
     sock net (SendTo knx_packet controller_ip 3671) ;;;
     sock_local Close ;;;
     ret true)
    (fun _ => ret false).

Definition turn_off_lights_via_bacnet (controller_ip : string) : M bool :=
  try_except_Exception
    (bacnet_packet <- lift (fromhex
        "810b000c0120ffff00ff10080c023e0000003f") ;;
     sock net (Socket SOCK_DGRAM) ;;;
     sock_local (SetTimeout 5) ;;;
     sock net (SendTo bacnet_packet controller_ip 47808) ;;;
     sock_local Close ;;;
     ret true)
    (fun _ => ret false).

Definition turn_off_lights_via_mqtt (controller_ip : string) : M bool :=
  try_except_Exception
    (mqtt_message <- lift (fromhex
        "102600044d5154540402003c001a6275696c64696e672f6c69676874696e672f616c6c2f6f6666") ;;
     sock net (Socket SOCK_STREAM) ;;;
     sock_local (SetTimeout 5) ;;;
     sock net (Connect controller_ip 1883) ;;;
     sock net (Send mqtt_message) ;;;
     sock_local Close ;;;
     ret true)
    (fun _ => ret false).

Definition via_rest (ip : string) : strategy S :=
  mkStrategy "turn_off_lights_via_rest" (turn_off_lights_via_rest ip).
Definition via_modbus (ip : string) : strategy S :=
  mkStrategy "turn_off_lights_via_modbus" (turn_off_lights_via_modbus ip).
Definition via_knx (ip : string) : strategy S :=
  mkStrategy "turn_off_lights_via_knx" (turn_off_lights_via_knx ip).
Definition via_bacnet (ip : string) : strategy S :=
  mkStrategy "turn_off_lights_via_bacnet" (turn_off_lights_via_bacnet ip).
Definition via_mqtt (ip : string) : strategy S :=
  mkStrategy "turn_off_lights_via_mqtt" (turn_off_lights_via_mqtt ip).

Definition emergency_light_off (controller_ip : string) (protocol : string)
  : M bool :=
  if String.eqb protocol "rest_api" then
    turn_off_lights_via_rest controller_ip
  else if String.eqb protocol "modbus" then
    turn_off_lights_via_modbus controller_ip
  else if String.eqb protocol "knx" then
    turn_off_lights_via_knx controller_ip
  else if String.eqb protocol "bacnet" then
    turn_off_lights_via_bacnet controller_ip
  else if String.eqb protocol "mqtt" then
    turn_off_lights_via_mqtt controller_ip
  else
    let methods :=
      [via_rest controller_ip; via_modbus controller_ip; via_knx controller_ip] in
    dispatch_plain methods.

(** The strategies [emergency_light_off] tries for a protocol name, as
    one ordered list per name. *)
Definition strategies_for (controller_ip : string) (protocol : string)
  : list (strategy S) :=
  if String.eqb protocol "rest_api" then [via_rest controller_ip]
  else if String.eqb protocol "modbus" then [via_modbus controller_ip]
  else if String.eqb protocol "knx" then [via_knx controller_ip]
  else if String.eqb protocol "bacnet" then [via_bacnet controller_ip]
  else if String.eqb protocol "mqtt" then [via_mqtt controller_ip]
  else [via_rest controller_ip; via_modbus controller_ip; via_knx controller_ip].

(** The loop of [building_wide_light_off] leaves with [break] at the
    first controller that works, with [success] set. *)
Definition building_wide_light_off (self : BuildingLightController) : M bool :=
  controllers <- discover_building_controllers self ;;
  match controllers with
  | [] => ret false
  | _ =>
      or_return
        (for_return controllers (fun controller =>
           ok <- emergency_light_off (found_ip controller)
                                     (found_protocol controller) ;;
           if ok : bool then ret (Some true) else ret None))
        (ret false)
  end.

End Methods.

(** A probe call that raised after its socket had been created. *)
Definition raised_after_open (ev : event) : bool :=
  match ev with
  | EvSock (ConnectEx _ _) (Raise _) | EvSock (SendTo _ _ _) (Raise _) => true
  | _ => false
  end.

(** A call that names no host outside [common_controllers]: a
    [requests.post] whose URL argument is on a listed target, a
    [connect], [connect_ex] or [sendto] addressed to a listed target, or
    a socket call that names no host.  This judges the arguments of the
    call; the requests the library sends by itself when an answer
    redirects are not events of the transcript. *)
Definition within_targets (self : BuildingLightController) (ev : event) : Prop :=
  match ev with
  | EvHttp r _ =>
      exists ip rest,
        url r = Lit "http://" :: Fmt (PStr ip) :: rest /\
        In ip (common_controllers self)
  | EvSock (ConnectEx host _) _ | EvSock (Connect host _) _
  | EvSock (SendTo _ host _) _ => In host (common_controllers self)
  | EvSock _ _ => True
  | EvSleep _ => False
  end.

(** The same for any list of hosts: a call that names no host outside
    [hosts]. *)
Definition names_only (hosts : list string) (ev : event) : Prop :=
  match ev with
  | EvHttp r _ =>
      exists ip rest,
        url r = Lit "http://" :: Fmt (PStr ip) :: rest /\
        In ip hosts
  | EvSock (ConnectEx host _) _ | EvSock (Connect host _) _
  | EvSock (SendTo _ host _) _ => In host hosts
  | EvSock _ _ => True
  | EvSleep _ => False
  end.

(** What discovery may do to the network for [self]: create, configure
    and close sockets, connect to a listed target on a catalog port, or
    send it one zero byte; nothing else. *)
Definition probe_event (self : BuildingLightController) (ev : event) : Prop :=
  match ev with
  | EvSock (Socket _) _ | EvSock (SetTimeout _) _ | EvSock Close _ => True
  | EvSock (ConnectEx host port) _ | EvSock (SendTo [0] host port) _ =>
      In host (common_controllers self) /\
      In port (map (fun item => info_port (snd item)) (building_protocols self))
  | _ => False
  end.

End Building.

(* ===================================================================== *)
(** * dev002.py: SmartHomeLightController                                 *)
(* ===================================================================== *)

Module SmartHome.

(** A Python [str] is given by the code points of its characters, so
    [ord(char)] is the list element itself. *)
Definition pystr := list Z.

(** The body of [for char in data] in [encrypt_tplink], with the local
    variables [key] and [result] as arguments. *)
Fixpoint encrypt_loop (data : pystr) (key : Z) (result : list Z)
  : Py.result (list Z) :=
  match data with
  | [] => Ret result
  | char :: rest =>
      let a := Z.lxor key char in
      (result' <- bytearray_append result a ;;
       encrypt_loop rest a result')%result
  end.

Definition encrypt_tplink (data : pystr) : Py.result (list Z) :=
  let key := 171 in
  (result <- bytearray [0; 0; 0; Z.of_nat (length data)] ;;
   encrypt_loop data key result)%result.

(** The attribute [common_ports] set by [__init__]: a dict, kept as the
    list of its items in insertion order. *)
Record SmartHomeLightController : Type := mkSmartHome {
  common_ports : list (string * Z)
}.

(** [SmartHomeLightController()] *)
Definition init : SmartHomeLightController :=
  mkSmartHome
    [("philips_hue", 80); ("tplink", 9999); ("lifx", 56700);
     ("home_assistant", 8123); ("tuya", 6668); ("yeelight", 55443);
     ("wiz", 38899)]%string.

(** The loop of [identify_device_by_port] over [common_ports.items()]. *)
Fixpoint identify_loop (items : list (string * Z)) (port : Z) : option string :=
  match items with
  | [] => None
  | (device_type, device_port) :: rest =>
      if port =? device_port then Some device_type
      else identify_loop rest port
  end.

Definition identify_device_by_port (self : SmartHomeLightController) (port : Z)
  : option string :=
  identify_loop (common_ports self) port.

(** A device dict as built by [parse_nmap_output]. *)
Record device : Type := mkDevice {
  device_ip : string;
  device_port : Z;
  device_type : string
}.

(** [ord] of each character of an ASCII text. *)
Fixpoint ords (s : string) : pystr :=
  match s with
  | EmptyString => []
  | String c rest => Z.of_nat (nat_of_ascii c) :: ords rest
  end.

(** The double-quote character. *)
Definition dq : string := String (ascii_of_nat 34) EmptyString.

(** [str(n)] for an int. *)
Definition str_int (z : Z) : string :=
  DecimalString.NilZero.string_of_int (Z.to_int z).

Definition hex_char (n : nat) : ascii :=
  ascii_of_nat (if Nat.ltb n 10 then 48 + n else 87 + n)%nat.

(** One character of a string as [json.dumps] writes it: quote and
    backslash escaped, control characters as their short or [\u00XX]
    escapes. *)
Definition json_escape (c : ascii) : string :=
  let n := nat_of_ascii c in
  if Nat.eqb n 34 then ("\" ++ dq)%string
  else if Nat.eqb n 92 then "\\"
  else if Nat.eqb n 10 then "\n"
  else if Nat.eqb n 13 then "\r"
  else if Nat.eqb n 9 then "\t"
  else if Nat.eqb n 8 then "\b"
  else if Nat.eqb n 12 then "\f"
  else if Nat.ltb n 32 then
    ("\u00" ++ String (hex_char (Nat.div n 16))
                      (String (hex_char (Nat.modulo n 16)) EmptyString))%string
  else String c EmptyString.

Fixpoint json_string (s : string) : string :=
  match s with
  | EmptyString => EmptyString
  | String c rest => (json_escape c ++ json_string rest)%string
  end.

Definition ascii_only (s : string) : bool :=
  forallb (fun c => c <? 128) (ords s).

(** [json.dumps(v)] with the default separators, for values whose
    strings are ASCII ([None] here otherwise: other characters are not
    represented in this development). *)
Fixpoint json_dumps (v : pyval) : option string :=
  match v with
  | PNone => Some "null"%string
  | PBool b => Some (if b then "true" else "false")%string
  | PInt z => Some (str_int z)
  | PStr s =>
      if ascii_only s then Some (dq ++ json_string s ++ dq)%string else None
  | PList items =>
      let fix elements (l : list pyval) : option string :=
        match l with
        | [] => Some EmptyString
        | x :: rest =>
            match json_dumps x, elements rest with
            | Some a, Some b =>
                Some (a ++ match rest with [] => "" | _ => ", " ++ b end)%string
            | _, _ => None
            end
        end in
      match elements items with
      | Some body => Some ("[" ++ body ++ "]")%string
      | None => None
      end
  | PDict entries =>
      let fix members (l : list (string * pyval)) : option string :=
        match l with
        | [] => Some EmptyString
        | (k, x) :: rest =>
            if ascii_only k then
              match json_dumps x, members rest with
              | Some a, Some b =>
                  Some (dq ++ json_string k ++ dq ++ ": " ++ a ++
                        match rest with [] => "" | _ => ", " ++ b end)%string
              | _, _ => None
              end
            else None
        end in
      match members entries with
      | Some body => Some ("{" ++ body ++ "}")%string
      | None => None
      end
  end.

Section Control.
Context {S : Type} (net : network S).
Local Open Scope io_scope.
Local Open Scope string_scope.
Local Open Scope Z_scope.

(** [requests.get(url, timeout=5)] and [requests.post(url, json=..., timeout=5)] *)
Definition requests_get (u : fstring) : M response :=
  http net (mkRequest GET u NoBody [] None 5 true).

Definition requests_post (u : fstring) (b : payload) : M response :=
  http net (mkRequest POST u b [] None 5 true).

Definition control_philips_hue (ip : string) : M bool :=
  or_return
    (try_except
       (response <- requests_get [Lit "http://"; Fmt (PStr ip); Lit "/api/config"] ;;
        if status_code response =? 200 then ret (Some true) else ret None)
       (fun _ => ret None))
    (ret false).

(** The command of [control_tplink], a str literal with double quotes. *)
Definition tplink_command : string :=
  ("{" ++ dq ++ "system" ++ dq ++ ":{" ++ dq ++ "set_relay_state" ++ dq ++
   ":{" ++ dq ++ "state" ++ dq ++ ":0}}}")%string.

Definition control_tplink (ip : string) : M bool :=
  try_except
    (let command := ords tplink_command in
     encrypted <- lift (encrypt_tplink command) ;;
     sock net (Socket SOCK_STREAM) ;;;
     sock_local (SetTimeout 5) ;;;
     sock net (Connect ip 9999) ;;;
     sock net (Send encrypted) ;;;
     sock net (Recv 4096) ;;;
     sock_local Close ;;;
     ret true)
    (fun _ => ret false).

Definition yeelight_command : pyval :=
  PDict [("id", PInt 1);
         ("method", PStr "set_power");
         ("params", PList [PStr "off"; PStr "smooth"; PInt 500])].

(** [(json.dumps(command) + "\r\n").encode()] *)
Definition json_line (command : pyval) : result (list Z) :=
  match json_dumps command with
  | Some text =>
      Ret (ords (text ++ String (ascii_of_nat 13)
                           (String (ascii_of_nat 10) EmptyString)))
  | None => Raise ValueError
  end.

Definition control_yeelight (ip : string) : M bool :=
  try_except
    (sock net (Socket SOCK_STREAM) ;;;
     sock_local (SetTimeout 5) ;;;
     sock net (Connect ip 55443) ;;;
     line <- lift (json_line yeelight_command) ;;
     sock net (Send line) ;;;
     sock net (Recv 1024) ;;;
     sock_local Close ;;;
     ret true)
    (fun _ => ret false).

Definition control_wiz (ip : string) : M bool :=
  or_return
    (try_except
       (let command :=
          PDict [("method", PStr "setPilot");
                 ("params", PDict [("state", PBool false)])] in
        response <- requests_post
                      [Lit "http://"; Fmt (PStr ip); Lit ":38899/json/set"]
                      (JsonBody command) ;;
        if status_code response =? 200 then ret (Some true) else ret None)
       (fun _ => ret None))
    (ret false).

(** Only prints and gives up: an access token would be needed. *)
Definition control_home_assistant (ip : string) : M (S:=S) bool :=
  ret false.

Definition try_turn_off_lights (d : device) : M bool :=
  let ip := device_ip d in
  let device_type := device_type d in
  try_except_Exception
    (if String.eqb device_type "philips_hue" then control_philips_hue ip
     else if String.eqb device_type "tplink" then control_tplink ip
     else if String.eqb device_type "yeelight" then control_yeelight ip
     else if String.eqb device_type "wiz" then control_wiz ip
     else if String.eqb device_type "home_assistant" then control_home_assistant ip
     else ret false)
    (fun _ => ret false).

End Control.

End SmartHome.

(* ===================================================================== *)
(** * Stub controllers                                                    *)
(* ===================================================================== *)

(** Small responders used to run the scripts on concrete inputs. *)

Module Stubs.
Local Open Scope string_scope.
Local Open Scope Z_scope.

Definition reply (code : Z) (v : option pyval) : result response :=
  Ret (mkResponse code v).

(** The path of a request made by [BMSLightController]: what follows
    the four pieces of [base_url]. *)
Definition path (r : request) : fstring := skipn 4 (url r).

(** Every request is answered 200 (no JSON body); every socket call
    succeeds with 0. *)
Definition all_ok : network unit :=
  mkNetwork unit (fun _ s => (reply 200 None, s)) (fun _ s => (Ret 0, s)).

(** Only the SOAP endpoint answers 200. *)
Definition soap_only : network unit :=
  mkNetwork unit
    (fun r s =>
       (match path r with
        | [Lit "/WebService.asmx"] => reply 200 None
        | _ => reply 404 None
        end, s))
    (fun _ s => (Raise ConnectionError, s)).

Definition bms : BMS.BMSLightController :=
  BMS.mkBMS "192.168.1.100" 80 (Some "admin") (Some "password").

Definition start {S : Type} (s : S) : world S := mkWorld s [].

Definition zone (id : Z) : pyval := PDict [("id", PInt id)].

(** The first zone-listing endpoint answers 200 with an empty list,
    the second with one zone. *)
Definition empty_first : network unit :=
  mkNetwork unit
    (fun r s =>
       (match verb r, path r with
        | GET, [Lit "/api/lighting/zones"] => reply 200 (Some (PList []))
        | GET, [Lit "/bms/lighting"] => reply 200 (Some (PList [zone 1]))
        | _, _ => reply 404 None
        end, s))
    (fun _ s => (Raise ConnectionError, s)).

(** Reading a transcript of [BMSLightController] for pacing: which
    zone an off-command was sent for, and where the script slept. *)
Inductive step : Type :=
| Command (zone_id : pyval)
| Pause (ms : Z)
| Other.

Definition step_of (ev : event) : step :=
  match ev with
  | EvHttp r _ =>
      match verb r, path r with
      | POST, Lit _ :: Fmt zone_id :: _ => Command zone_id
      | _, _ => Other
      end
  | EvSleep ms => Pause ms
  | EvSock _ _ => Other
  end.

(** A controller with zones 1, 2 and 3 behind [/api/lighting/zones]
    that refuses the off-commands of zone [bad] and accepts the others;
    nothing else exists.  Its state counts the requests served. *)
Definition zoned (bad : Z) : network nat :=
  mkNetwork nat
    (fun r n =>
       (match verb r, path r with
        | GET, [Lit "/api/lighting/zones"] =>
            reply 200 (Some (PList [zone 1; zone 2; zone 3]))
        | POST, Lit _ :: Fmt (PInt id) :: _ =>
            if id =? bad then reply 500 None else reply 200 None
        | _, _ => reply 404 None
        end, Datatypes.S n))
    (fun _ n => (Raise ConnectionError, n)).

(** The zone listing has a zone and a bare string; every off-command
    is accepted. *)
Definition mixed_zones : network unit :=
  mkNetwork unit
    (fun r s =>
       (match verb r, path r with
        | GET, [Lit "/api/lighting/zones"] =>
            reply 200 (Some (PList [zone 1; PStr "lobby"]))
        | POST, _ => reply 200 None
        | _, _ => reply 404 None
        end, s))
    (fun _ s => (Raise ConnectionError, s)).

(** Datagrams can be sent; nothing else works: HTTP requests and TCP
    connections fail, nothing is ever received. *)
Definition udp_only : network unit :=
  mkNetwork unit
    (fun _ s => (Raise ConnectionError, s))
    (fun c s =>
       (match c with
        | Socket _ => Ret 3
        | SendTo data _ _ => Ret (Z.of_nat (length data))
        | _ => Raise OSError
        end, s)).

End Stubs.

(* ===================================================================== *)
(** * Properties                                                          *)
(* ===================================================================== *)

Ltac run_io :=
  unfold or_return, try_except, try_except_Exception, try_finally,
    sleep, sock_local, log, lift, raise, bind, ret in *;
  cbv beta in *.

Section MonadFacts.
Context {S : Type}.
Implicit Types w : world S.

Lemma no_raise_ret {A} (a : A) : no_raise (S:=S) (ret a).
Proof. intros w. exists a, w. reflexivity. Qed.

Lemma no_raise_bind {A B} (m : M (S:=S) A) (k : A -> M B) :
  no_raise m -> (forall a, no_raise (k a)) -> no_raise (bind m k).
Proof.
  intros Hm Hk w. destruct (Hm w) as (a & w1 & E). unfold bind. rewrite E.
  apply Hk.
Qed.

Lemma no_raise_try_except {A} (body : M (S:=S) A) handler :
  (forall e, no_raise (handler e)) -> no_raise (try_except body handler).
Proof.
  intros Hh w. unfold try_except. destruct (body w) as [[a|e] w1].
  - exists a, w1. reflexivity.
  - apply Hh.
Qed.

Lemma no_raise_try_except_Exception {A} (body : M (S:=S) A) handler :
  raises_only_Exception body -> (forall e, no_raise (handler e)) ->
  no_raise (try_except_Exception body handler).
Proof.
  intros Hb Hh w. unfold try_except_Exception.
  destruct (body w) as [[a|e] w1] eqn:E.
  - exists a, w1. reflexivity.
  - rewrite (Hb _ _ _ E). apply Hh.
Qed.

Lemma no_raise_for_return {A R} (xs : list A) (body : A -> M (S:=S) (option R)) :
  (forall x, no_raise (body x)) -> no_raise (for_return xs body).
Proof.
  intros Hb. induction xs as [|x rest IH]; simpl.
  - apply no_raise_ret.
  - apply no_raise_bind; [apply Hb|]. intros [v|]; [apply no_raise_ret|exact IH].
Qed.

Lemma no_raise_or_return {R} (loop : M (S:=S) (option R)) after :
  no_raise loop -> no_raise after -> no_raise (or_return loop after).
Proof.
  intros Hl Ha. unfold or_return. apply no_raise_bind; [exact Hl|].
  intros [v|]; [apply no_raise_ret|exact Ha].
Qed.

Lemma no_raise_sleep ms : no_raise (S:=S) (sleep ms).
Proof. intros w. eexists _, _. reflexivity. Qed.

Lemma no_raise_only_Exception {A} (m : M (S:=S) A) :
  no_raise m -> raises_only_Exception m.
Proof.
  intros Hm w e w' E. destruct (Hm w) as (a & w1 & E1). congruence.
Qed.

Lemma only_Exception_bind {A B} (m : M (S:=S) A) (k : A -> M B) :
  raises_only_Exception m -> (forall a, raises_only_Exception (k a)) ->
  raises_only_Exception (bind m k).
Proof.
  intros Hm Hk w e w' E. unfold bind in E.
  destruct (m w) as [[a|e1] w1] eqn:E1.
  - eapply Hk; eassumption.
  - inversion E; subst. eapply Hm; eassumption.
Qed.

Lemma only_Exception_lift {A} (r : result A) :
  (forall e, r = Raise e -> is_Exception e = true) ->
  raises_only_Exception (S:=S) (lift r).
Proof. intros Hr w e w' E. inversion E; subst. apply Hr. reflexivity. Qed.

End MonadFacts.

Create HintDb total.
Create HintDb steady.
#[local] Hint Resolve no_raise_ret no_raise_sleep no_raise_try_except
  no_raise_for_return no_raise_or_return : total.

Section Bytes.

Lemma lxor_byte (a b : Z) :
  0 <= a < 256 -> 0 <= b < 256 -> 0 <= Z.lxor a b < 256.
Proof.
  intros Ha Hb. split.
  - apply Z.lxor_nonneg. lia.
  - destruct (Z.eq_dec (Z.lxor a b) 0) as [E|NE]; [lia|].
    assert (Hpos : 0 < Z.lxor a b).
    { assert (0 <= Z.lxor a b) by (apply Z.lxor_nonneg; lia). lia. }
    apply (Z.log2_lt_pow2 _ 8 Hpos).
    eapply Z.le_lt_trans; [apply Z.log2_lxor; lia|].
    apply Z.max_lub_lt.
    + destruct (Z.eq_dec a 0) as [->|]; [reflexivity|].
      apply Z.log2_lt_pow2; lia.
    + destruct (Z.eq_dec b 0) as [->|]; [reflexivity|].
      apply Z.log2_lt_pow2; lia.
Qed.

Lemma byte_ok_true (v : Z) : byte_ok v = true <-> 0 <= v < 256.
Proof. unfold byte_ok. rewrite andb_true_iff, Z.leb_le, Z.ltb_lt. tauto. Qed.

End Bytes.

Section EncryptTplink.
Import SmartHome.

(** The loop appends one byte per character; each byte is the character
    XORed with the byte appended just before it (the key for the first). *)
Lemma encrypt_loop_spec (data : pystr) :
  Forall (fun c => 0 <= c < 256) data ->
  forall key result, 0 <= key < 256 ->
  exists tail,
    encrypt_loop data key result = Ret (result ++ tail) /\
    length tail = length data /\
    forall i, (i < length data)%nat ->
      nth i tail 0 =
      Z.lxor (if Nat.eqb i 0 then key else nth (i - 1) tail 0) (nth i data 0).
Proof.
  induction 1 as [|c rest Hc Hrest IH]; intros key result Hkey.
  - exists []. simpl. rewrite app_nil_r. repeat split; auto. intros i Hi; lia.
  - simpl. unfold bytearray_append.
    pose proof (lxor_byte key c Hkey Hc) as Ha.
    apply byte_ok_true in Ha as Hok. rewrite Hok. simpl.
    destruct (IH (Z.lxor key c) (result ++ [Z.lxor key c])) as (tail & E & L & N).
    { apply byte_ok_true; exact Hok. }
    exists (Z.lxor key c :: tail). rewrite E, <- app_assoc. simpl.
    repeat split; auto.
    intros [|i] Hi; simpl; [reflexivity|].
    rewrite (N i) by lia. rewrite Nat.sub_0_r.
    destruct i; simpl; [reflexivity|]. rewrite Nat.sub_0_r. reflexivity.
Qed.

(** C10. For a command of at most 255 characters, all with code points
    below 256, [encrypt_tplink] returns [len(data) + 4] bytes: the header
    [0, 0, 0, len(data)], then the XOR chain seeded with the key 171 (each
    output byte is the character XORed with the previous output byte).
    For a command of more than 255 characters it raises ([ValueError],
    from the [bytearray] constructor) instead of returning. *)
Theorem encrypt_tplink_spec :
  (forall data : pystr,
      (length data <= 255)%nat ->
      Forall (fun c => 0 <= c < 256) data ->
      exists out,
        encrypt_tplink data = Ret out /\
        length out = (length data + 4)%nat /\
        firstn 4 out = [0; 0; 0; Z.of_nat (length data)] /\
        forall i, (i < length data)%nat ->
          nth (4 + i) out 0 =
          Z.lxor (if Nat.eqb i 0 then 171 else nth (4 + i - 1) out 0)
                 (nth i data 0))
  /\
  (forall data : pystr,
      (255 < length data)%nat -> encrypt_tplink data = Raise ValueError).
Proof.
  split.
  - intros data Hlen Hchars. unfold encrypt_tplink, bytearray.
    assert (Hhdr : forallb byte_ok [0; 0; 0; Z.of_nat (length data)] = true).
    { simpl. rewrite andb_true_r. apply byte_ok_true. lia. }
    rewrite Hhdr. simpl.
    destruct (encrypt_loop_spec data Hchars 171 [0; 0; 0; Z.of_nat (length data)])
      as (tail & E & L & N); [lia|].
    exists ([0; 0; 0; Z.of_nat (length data)] ++ tail).
    split; [exact E|]. split; [simpl; lia|]. split; [reflexivity|].
    intros i Hi. specialize (N i Hi).
    destruct i as [|i]; simpl in *; [exact N|].
    rewrite Nat.sub_0_r in N. exact N.
  - intros data Hlen. unfold encrypt_tplink, bytearray.
    assert (Hhdr : forallb byte_ok [0; 0; 0; Z.of_nat (length data)] = false).
    { simpl. rewrite andb_true_r. unfold byte_ok.
      apply andb_false_iff. right. apply Z.ltb_ge. lia. }
    rewrite Hhdr. reflexivity.
Qed.

Lemma encrypt_tplink_spec_witness :
  (exists out,
      encrypt_tplink [111; 102; 102] = Ret out /\
      length out = 7%nat /\
      firstn 4 out = [0; 0; 0; 3] /\
      forall i, (i < 3)%nat ->
        nth (4 + i) out 0 =
        Z.lxor (if Nat.eqb i 0 then 171 else nth (4 + i - 1) out 0)
               (nth i [111; 102; 102] 0))
  /\ encrypt_tplink (repeat 97 256) = Raise ValueError.
Proof.
  split.
  - apply (proj1 encrypt_tplink_spec [111; 102; 102]).
    + simpl; lia.
    + repeat constructor; lia.
  - apply (proj2 encrypt_tplink_spec (repeat 97 256)).
    rewrite repeat_length. lia.
Defined.

End EncryptTplink.

(* ===================================================================== *)
(** ** Fallback chains: exceptions                                        *)
(* ===================================================================== *)

Section ChainTotal.
Context {S : Type}.
Implicit Types (methods : list (strategy S)) (w : world S).

Lemma attempt_once_returns (method : strategy S) w :
  (forall e w', execute method w = (Raise e, w') -> is_Exception e = true) ->
  exists v w', attempt_once method w = (Ret v, w') /\
               v = verdict_of (fst (execute method w)) /\
               w' = snd (execute method w).
Proof.
  intros He. unfold attempt_once. run_io.
  destruct (execute method w) as [[[|]|e] w1] eqn:E; simpl.
  - eauto.
  - eauto.
  - rewrite (He e w1 eq_refl). eauto.
Qed.

(** With strategies that raise nothing but [Exception]s the loop always
    returns, and it returns [False] exactly when it has called every
    strategy of the list and every call failed. *)
Lemma run_chain_returns methods :
  forall attempts w,
    (forall m, In m methods -> raises_only_Exception (execute m)) ->
    exists b log w',
      run_chain methods attempts w = (Ret (b, attempts ++ log), w') /\
      (b = false <->
       map fst log = map strategy_name methods /\ Forall failed (map snd log)).
Proof.
  induction methods as [|m rest IH]; intros attempts w Hm; simpl.
  - exists false, [], w. rewrite app_nil_r. split; [reflexivity|].
    split; auto.
  - destruct (attempt_once_returns m w) as (v & w1 & E & Hv & _).
    { intros e w' H. eapply (Hm m); [left; reflexivity|exact H]. }
    unfold bind at 1. rewrite E.
    destruct (IH (attempts ++ [(strategy_name m, v)]) w1) as (b & log & w' & R & Hb).
    { intros m' Hin. apply Hm. right. exact Hin. }
    destruct v.
    + exists true, [(strategy_name m, ReturnedTrue)], w1. split; [reflexivity|].
      split; [discriminate|]. simpl. intros [_ F]. inversion F as [|? ? Hf _].
      exfalso. apply Hf. reflexivity.
    + exists b, ((strategy_name m, ReturnedFalse) :: log), w'.
      rewrite R, <- app_assoc. split; [reflexivity|]. simpl. rewrite Hb.
      split.
      * intros [Hn Hf]. split; [f_equal; exact Hn|].
        constructor; [discriminate|exact Hf].
      * intros [Hn Hf]. inversion Hn. inversion Hf. auto.
    + exists b, ((strategy_name m, Raised e) :: log), w'.
      rewrite R, <- app_assoc. split; [reflexivity|]. simpl. rewrite Hb.
      split.
      * intros [Hn Hf]. split; [f_equal; exact Hn|].
        constructor; [discriminate|exact Hf].
      * intros [Hn Hf]. inversion Hn. inversion Hf. auto.
Qed.

End ChainTotal.

Section ChainTrace.
Context {St : Type}.
Implicit Types (methods : list (strategy St)) (w : world St).

(** The loop and the calls it stands for: what [run_chain] answers and
    records is what calling the strategies one after the other gives. *)
Lemma run_chain_trace methods :
  forall attempts w,
    (forall m, In m methods -> raises_only_Exception (execute m)) ->
    exists b log w',
      run_chain methods attempts w = (Ret (b, attempts ++ log), w') /\
      attempted methods w b log w'.
Proof.
  induction methods as [|m rest IH]; intros attempts w Hm.
  - exists false, [], w. simpl. rewrite app_nil_r. split; [reflexivity|].
    exists 0%nat, []. simpl. repeat split; auto.
  - assert (He : forall e w1, execute m w = (Raise e, w1) -> is_Exception e = true).
    { intros e w1 H. eapply (Hm m); [left; reflexivity|exact H]. }
    assert (Hrest : forall m', In m' rest -> raises_only_Exception (execute m')).
    { intros m' Hin. apply Hm. right. exact Hin. }
    cbn [run_chain]. unfold bind at 1, attempt_once, try_except_Exception, bind, ret.
    destruct (execute m w) as [o w1] eqn:E.
    assert (Hfail : o <> Ret true ->
              outcome_failed o /\
              exists b log w',
                run_chain rest (attempts ++ [(strategy_name m, verdict_of o)]) w1 =
                  (Ret (b, (attempts ++ [(strategy_name m, verdict_of o)]) ++ log), w') /\
                attempted rest w1 b log w').
    { intros Hne. split.
      - destruct o as [[|]|e]; simpl; [congruence|reflexivity|].
        apply (He e w1). reflexivity.
      - apply IH. exact Hrest. }
    destruct o as [[|]|e].
    + exists true, [(strategy_name m, ReturnedTrue)], w1. split; [reflexivity|].
      exists 1%nat, [Ret true]. split; [simpl; lia|].
      split; [simpl; rewrite E; reflexivity|]. split; [reflexivity|].
      exists []. split; [reflexivity|constructor].
    + destruct Hfail as (Ho & b & log & w' & R & n & outs & Hn & Hinv & Hlog & Hb);
        [discriminate|].
      exists b, ((strategy_name m, ReturnedFalse) :: log), w'.
      simpl in R. rewrite R, <- app_assoc. split; [reflexivity|].
      exists (Datatypes.S n), (Ret false :: outs). split; [simpl; lia|].
      split; [simpl; rewrite E, Hinv; reflexivity|].
      split; [simpl; rewrite Hlog; reflexivity|].
      destruct b.
      * destruct Hb as (init & -> & Hinit). exists (Ret false :: init).
        split; [reflexivity|]. constructor; assumption.
      * destruct Hb as [-> Hall]. split; [reflexivity|]. constructor; assumption.
    + destruct Hfail as (Ho & b & log & w' & R & n & outs & Hn & Hinv & Hlog & Hb);
        [discriminate|].
      simpl in Ho. rewrite Ho.
      exists b, ((strategy_name m, Raised e) :: log), w'.
      simpl in R. rewrite R, <- app_assoc. split; [reflexivity|].
      exists (Datatypes.S n), (Raise e :: outs). split; [simpl; lia|].
      split; [simpl; rewrite E, Hinv; reflexivity|].
      split; [simpl; rewrite Hlog; reflexivity|].
      destruct b.
      * destruct Hb as (init & -> & Hinit). exists (Raise e :: init).
        split; [reflexivity|]. constructor; assumption.
      * destruct Hb as [-> Hall]. split; [reflexivity|]. constructor; assumption.
Qed.

End ChainTrace.

(* ===================================================================== *)
(** ** dev001.py: no strategy of the BMS chain raises                     *)
(* ===================================================================== *)

Section BMSTotal.
Import BMS.
Context {S : Type} (net : network S) (self : BMSLightController).

Lemma _turn_off_via_rest_returns : no_raise (_turn_off_via_rest net self).
Proof.
  unfold _turn_off_via_rest. apply no_raise_or_return; auto with total.
  apply no_raise_for_return. intros [endpoint method]. auto with total.
Qed.

Lemma _turn_off_via_soap_returns : no_raise (_turn_off_via_soap net self).
Proof. unfold _turn_off_via_soap. auto with total. Qed.

Lemma _turn_off_via_simple_http_returns :
  no_raise (_turn_off_via_simple_http net self).
Proof. unfold _turn_off_via_simple_http. auto 6 with total. Qed.

Lemma _turn_off_via_bacnet_simulation_returns :
  no_raise (_turn_off_via_bacnet_simulation net self).
Proof. unfold _turn_off_via_bacnet_simulation. auto with total. Qed.

Lemma turn_off_zone_returns zone_id : no_raise (turn_off_zone net self zone_id).
Proof. unfold turn_off_zone. auto 6 with total. Qed.

Lemma get_lighting_zones_returns : no_raise (get_lighting_zones net self).
Proof.
  unfold get_lighting_zones. apply no_raise_try_except_Exception.
  - apply no_raise_only_Exception. auto 6 with total.
  - auto with total.
Qed.

Lemma zone_id_of_raises e zone :
  zone_id_of zone = Raise e -> is_Exception e = true.
Proof.
  destruct zone; simpl; intros H; inversion H; reflexivity.
Qed.

Lemma py_iter_raises e v : py_iter v = Raise e -> is_Exception e = true.
Proof. destruct v; simpl; intros H; inversion H; reflexivity. Qed.

Lemma zone_loop_only_Exception zones :
  forall success_count per_zone,
    raises_only_Exception (zone_loop net self zones success_count per_zone).
Proof.
  induction zones as [|zone rest IH]; intros n per; simpl.
  - apply no_raise_only_Exception, no_raise_ret.
  - apply only_Exception_bind.
    + apply only_Exception_lift. intros e. apply zone_id_of_raises.
    + intros zone_id. apply only_Exception_bind.
      * apply no_raise_only_Exception, turn_off_zone_returns.
      * intros [|]; [|apply IH].
        apply only_Exception_bind; [|intros _; apply IH].
        apply no_raise_only_Exception, no_raise_sleep.
Qed.

Lemma turn_off_zones_only_Exception zones :
  raises_only_Exception (turn_off_zones net self zones).
Proof.
  unfold turn_off_zones. destruct (negb (truthy zones)).
  - apply no_raise_only_Exception, no_raise_ret.
  - apply only_Exception_bind.
    + apply only_Exception_lift. intros e. apply py_iter_raises.
    + intros items. apply only_Exception_bind.
      * apply zone_loop_only_Exception.
      * intros r. apply no_raise_only_Exception, no_raise_ret.
Qed.

Lemma _turn_off_zone_by_zone_returns : no_raise (_turn_off_zone_by_zone net self).
Proof.
  unfold _turn_off_zone_by_zone. apply no_raise_try_except_Exception.
  - apply only_Exception_bind.
    + apply no_raise_only_Exception, get_lighting_zones_returns.
    + intros zones. apply only_Exception_bind.
      * apply turn_off_zones_only_Exception.
      * intros r. apply no_raise_only_Exception, no_raise_ret.
  - auto with total.
Qed.

Lemma methods_return m : In m (methods net self) -> no_raise (execute m).
Proof.
  simpl. intros [<-|[<-|[<-|[<-|[<-|[]]]]]]; simpl.
  - apply _turn_off_via_rest_returns.
  - apply _turn_off_via_soap_returns.
  - apply _turn_off_via_simple_http_returns.
  - apply _turn_off_via_bacnet_simulation_returns.
  - apply _turn_off_zone_by_zone_returns.
Qed.

End BMSTotal.

Section DispatchNeverRaises.
Import BMS.

(** C2. A strategy that fails, by returning a falsy value or by raising
    (a timeout or any other error derived from [Exception]), does not
    stop the dispatch: the loop of [turn_off_all_lights] always returns a
    boolean, and that boolean is [False] exactly when every strategy of
    the list has been called, one after the other, and each call failed;
    when it is [True], the calls made end with the first one that
    succeeded.  The answer, the record of attempts and the final world
    are those of the calls themselves ([attempted]).  For the five
    strategies of [BMSLightController] no assumption is needed: none of
    them raises, whatever the network does. *)
Theorem dispatch_swallows_failures :
  (forall (S : Type) (methods : list (strategy S)) (w : world S),
      (forall m, In m methods -> raises_only_Exception (execute m)) ->
      exists b log w',
        run_chain methods [] w = (Ret (b, log), w') /\
        dispatch methods w = (Ret b, w') /\
        (b = false <->
         map fst log = map strategy_name methods /\
         Forall failed (map snd log)) /\
        attempted methods w b log w')
  /\
  (forall (S : Type) (net : network S) (self : BMSLightController) (w : world S),
      exists b log w',
        run_chain (methods net self) [] w = (Ret (b, log), w') /\
        turn_off_all_lights net self w = (Ret b, w') /\
        (b = false <->
         map fst log = map strategy_name (methods net self) /\
         Forall failed (map snd log)) /\
        attempted (methods net self) w b log w').
Proof.
  assert (G : forall (S : Type) (methods : list (strategy S)) (w : world S),
      (forall m, In m methods -> raises_only_Exception (execute m)) ->
      exists b log w',
        run_chain methods [] w = (Ret (b, log), w') /\
        dispatch methods w = (Ret b, w') /\
        (b = false <->
         map fst log = map strategy_name methods /\
         Forall failed (map snd log)) /\
        attempted methods w b log w').
  { intros S methods w Hm.
    destruct (run_chain_returns methods [] w Hm) as (b & log & w' & R & Hb).
    destruct (run_chain_trace methods [] w Hm) as (b2 & log2 & w2 & R2 & T).
    simpl in R, R2. rewrite R in R2. inversion R2; subst b2 log2 w2.
    exists b, log, w'. split; [exact R|]. split; [|split; [exact Hb|exact T]].
    unfold dispatch, bind. rewrite R. reflexivity. }
  split; [exact G|].
  intros S net self w. apply G. intros m Hin.
  apply no_raise_only_Exception. eapply methods_return. exact Hin.
Qed.

Lemma dispatch_swallows_failures_witness :
  let methods : list (strategy unit) :=
    [mkStrategy "first" (raise Timeout);
     mkStrategy "second" (ret false)] in
  (forall m, In m methods -> raises_only_Exception (execute m)) /\
  exists b log w',
    run_chain methods [] (mkWorld tt []) = (Ret (b, log), w') /\
    dispatch methods (mkWorld tt []) = (Ret b, w') /\
    (b = false <->
     map fst log = map strategy_name methods /\ Forall failed (map snd log)) /\
    attempted methods (mkWorld tt []) b log w'.
Proof.
  intros methods.
  assert (H : forall m, In m methods -> raises_only_Exception (execute m)).
  { intros m [<-|[<-|[]]] w e w' E; inversion E; reflexivity. }
  split; [exact H|].
  exact (proj1 dispatch_swallows_failures unit methods (mkWorld tt []) H).
Defined.

End DispatchNeverRaises.

(* ===================================================================== *)
(** ** Fallback chains: order of the attempts                             *)
(* ===================================================================== *)

Section ChainOrder.
Context {S : Type}.
Implicit Types (methods : list (strategy S)) (w : world S).

Lemma invoke_all_length methods :
  forall w, length (fst (invoke_all methods w)) = length methods.
Proof.
  induction methods as [|m rest IH]; intros w; simpl; [reflexivity|].
  destruct (execute m w) as [o w1]. specialize (IH w1).
  destruct (invoke_all rest w1) as [os w']. simpl in *. congruence.
Qed.

Lemma outcome_failed_verdict (o : result bool) :
  outcome_failed o -> failed (verdict_of o).
Proof.
  destruct o as [[|]|e]; simpl; intros H; try discriminate H;
    unfold failed; discriminate.
Qed.

Lemma attempt_once_failed (m : strategy S) w o w1 :
  execute m w = (o, w1) -> outcome_failed o ->
  attempt_once m w = (Ret (verdict_of o), w1).
Proof.
  intros E Ho. unfold attempt_once. run_io. rewrite E.
  destruct o as [[|]|e]; simpl in *; try discriminate Ho; try reflexivity.
  rewrite Ho. reflexivity.
Qed.

Lemma run_chain_first_success methods :
  forall k attempts w outs w',
    (k < length methods)%nat ->
    invoke_all (firstn (k + 1) methods) w = (outs ++ [Ret true], w') ->
    Forall outcome_failed outs ->
    run_chain methods attempts w =
    (Ret (true,
          attempts ++ combine (map strategy_name (firstn (k + 1) methods))
                              (map verdict_of outs ++ [ReturnedTrue])), w').
Proof.
  induction methods as [|m rest IH]; intros k attempts w outs w' Hk Hinv Hf.
  - simpl in Hk. lia.
  - rewrite Nat.add_1_r in *. simpl in Hinv.
    destruct (execute m w) as [o w1] eqn:E.
    destruct (invoke_all (firstn k rest) w1) as [os w2] eqn:E2.
    inversion Hinv as [[Hos Hw]]. subst w2.
    pose proof (invoke_all_length (firstn k rest) w1) as L.
    rewrite E2 in L. simpl in L.
    destruct k as [|k].
    + simpl in L. destruct os; [|discriminate L].
      destruct outs as [|o1 [|o2 outs]]; simpl in Hos; try discriminate Hos.
      inversion Hos; subst o. simpl in E2. inversion E2; subst w1.
      simpl. unfold bind, attempt_once. run_io. rewrite E. reflexivity.
    + simpl in Hk. rewrite length_firstn in L.
      destruct outs as [|o1 outs].
      { simpl in Hos. inversion Hos; subst. cbn [length] in L. lia. }
      simpl in Hos. inversion Hos; subst o1 os. inversion Hf as [|? ? Ho Hf']; subst.
      simpl. unfold bind at 1.
      rewrite (attempt_once_failed m w o w1 E Ho).
      assert (R : run_chain rest (attempts ++ [(strategy_name m, verdict_of o)]) w1 =
                  (Ret (true,
                        (attempts ++ [(strategy_name m, verdict_of o)]) ++
                        combine (map strategy_name (firstn (k + 1) rest))
                                (map verdict_of outs ++ [ReturnedTrue])), w')).
      { apply IH; [lia| |exact Hf']. rewrite Nat.add_1_r. exact E2. }
      rewrite Nat.add_1_r in R. rewrite <- app_assoc in R. simpl in R.
      pose proof (outcome_failed_verdict o Ho) as Hv.
      destruct (verdict_of o); [exfalso; apply Hv; reflexivity|exact R|exact R].
Qed.

Lemma run_chain_plain_first_success methods :
  forall k attempts w outs w',
    (k < length methods)%nat ->
    invoke_all (firstn (k + 1) methods) w = (outs ++ [Ret true], w') ->
    Forall (fun o => o = Ret false) outs ->
    run_chain_plain methods attempts w =
    (Ret (true,
          attempts ++ combine (map strategy_name (firstn (k + 1) methods))
                              (map verdict_of outs ++ [ReturnedTrue])), w').
Proof.
  induction methods as [|m rest IH]; intros k attempts w outs w' Hk Hinv Hf.
  - simpl in Hk. lia.
  - rewrite Nat.add_1_r in *. simpl in Hinv.
    destruct (execute m w) as [o w1] eqn:E.
    destruct (invoke_all (firstn k rest) w1) as [os w2] eqn:E2.
    inversion Hinv as [[Hos Hw]]. subst w2.
    pose proof (invoke_all_length (firstn k rest) w1) as L.
    rewrite E2 in L. simpl in L.
    destruct k as [|k].
    + simpl in L. destruct os; [|discriminate L].
      destruct outs as [|o1 [|o2 outs]]; simpl in Hos; try discriminate Hos.
      inversion Hos; subst o. simpl in E2. inversion E2; subst w1.
      simpl. unfold bind. rewrite E. reflexivity.
    + simpl in Hk. rewrite length_firstn in L.
      destruct outs as [|o1 outs].
      { simpl in Hos. inversion Hos; subst. cbn [length] in L. lia. }
      simpl in Hos. inversion Hos; subst o1 os. inversion Hf as [|? ? Ho Hf']; subst.
      simpl. unfold bind at 1. rewrite E.
      rewrite (IH k (attempts ++ [(strategy_name m, ReturnedFalse)]) w1 outs w');
        [|lia|rewrite Nat.add_1_r; exact E2|exact Hf'].
      rewrite Nat.add_1_r, <- app_assoc. reflexivity.
Qed.

End ChainOrder.

Section DispatchOrder.
Import BMS Building Stubs.
Local Open Scope string_scope.

(** C1 (as amended). Strategies are tried strictly in list order and the
    dispatch stops at the first success: when the strategy at index [k]
    is the first to report success as the strategies are called one
    after the other, the calls made are exactly those of the strategies
    0..k, in order (the final world is the one these calls leave, and the
    ghost list of attempts names them), those before [k] are recorded as
    failed, and the value returned is [True].  The returned value is the
    bare boolean: it does not name the strategy.  This holds for the
    loop of [BMSLightController.turn_off_all_lights] and for
    [BuildingLightController.emergency_light_off], which runs the list
    [strategies_for] of its protocol. *)
Theorem dispatch_first_success :
  (forall (S : Type) (methods : list (strategy S)) (w : world S) k outs w',
      (k < length methods)%nat ->
      invoke_all (firstn (k + 1) methods) w = ((outs ++ [Ret true])%list, w') ->
      Forall outcome_failed outs ->
      run_chain methods [] w =
        (Ret (true, combine (map strategy_name (firstn (k + 1) methods))
                            (map verdict_of outs ++ [ReturnedTrue])%list), w') /\
      dispatch methods w = (Ret true, w') /\
      Forall failed (map verdict_of outs))
  /\
  (forall (S : Type) (net : network S) (self : BMSLightController),
      turn_off_all_lights net self = dispatch (BMS.methods net self))
  /\
  (forall (S : Type) (methods : list (strategy S)) (w : world S) k outs w',
      (k < length methods)%nat ->
      invoke_all (firstn (k + 1) methods) w = ((outs ++ [Ret true])%list, w') ->
      Forall (fun o => o = Ret false) outs ->
      run_chain_plain methods [] w =
        (Ret (true, combine (map strategy_name (firstn (k + 1) methods))
                            (map verdict_of outs ++ [ReturnedTrue])%list), w') /\
      dispatch_plain methods w = (Ret true, w'))
  /\
  (forall (S : Type) (net : network S) controller_ip protocol (w : world S),
      emergency_light_off net controller_ip protocol w =
      dispatch_plain (strategies_for net controller_ip protocol) w).
Proof.
  split; [|split; [|split]].
  - intros S methods w k outs w' Hk Hinv Hf.
    pose proof (run_chain_first_success methods k [] w outs w' Hk Hinv Hf) as R.
    simpl in R. split; [exact R|]. split.
    + unfold dispatch, bind. rewrite R. reflexivity.
    + rewrite Forall_map. eapply Forall_impl; [|exact Hf].
      intros o. apply outcome_failed_verdict.
  - reflexivity.
  - intros S methods w k outs w' Hk Hinv Hf.
    pose proof (run_chain_plain_first_success methods k [] w outs w' Hk Hinv Hf) as R.
    simpl in R. split; [exact R|].
    unfold dispatch_plain, bind. rewrite R. reflexivity.
  - intros S net ip protocol w. unfold emergency_light_off, strategies_for.
    repeat match goal with
           | |- context [String.eqb protocol ?s] => destruct (String.eqb protocol s)
           end; try reflexivity;
      unfold dispatch_plain; simpl; unfold bind, ret;
      match goal with
      | |- ?m w = _ => destruct (m w) as [[[|]|e] w1]; reflexivity
      end.
Qed.

Lemma dispatch_first_success_witness :
  let methods : list (strategy unit) :=
    [mkStrategy "a" (ret false); mkStrategy "b" (raise Timeout);
     mkStrategy "c" (ret true); mkStrategy "d" (ret true)] in
  run_chain methods [] (start tt) =
    (Ret (true, [("a", ReturnedFalse); ("b", Raised Timeout); ("c", ReturnedTrue)]),
     start tt) /\
  dispatch methods (start tt) = (Ret true, start tt) /\
  Forall failed [ReturnedFalse; Raised Timeout].
Proof.
  intros methods.
  apply (proj1 dispatch_first_success unit methods (start tt) 2%nat
               [Ret false; Raise Timeout] (start tt)).
  - simpl. lia.
  - reflexivity.
  - repeat constructor.
Defined.

(** C1 as stated does not hold: the result of the dispatch does not
    identify the strategy that succeeded.  Against a controller that
    answers 200 to everything the REST strategy succeeds, against one
    that answers 200 on the SOAP endpoint only the SOAP strategy does,
    and [turn_off_all_lights] returns the same [True] in both runs, so
    no reading of the result can name the strategy. *)
Lemma dispatch_result_does_not_name_the_strategy :
  ~ (exists id_of : bool -> string,
        forall (net : network unit) (w : world unit) b log w',
          run_chain (BMS.methods net bms) [] w = (Ret (b, log), w') ->
          turn_off_all_lights net bms w = (Ret b, w') ->
          forall name, In (name, ReturnedTrue) log -> id_of b = name).
Proof.
  intros [id_of H].
  destruct (run_chain (BMS.methods all_ok bms) [] (start tt)) as [r1 w1] eqn:E1.
  destruct (run_chain (BMS.methods soap_only bms) [] (start tt)) as [r2 w2] eqn:E2.
  vm_compute in E1, E2. inversion E1 as [[R1 W1]]; inversion E2 as [[R2 W2]].
  subst r1 r2.
  assert (A1 : id_of true = "_turn_off_via_rest").
  { eapply (H all_ok (start tt) true _ w1).
    - rewrite <- W1. vm_compute. reflexivity.
    - rewrite <- W1. vm_compute. reflexivity.
    - left. reflexivity. }
  assert (A2 : id_of true = "_turn_off_via_soap").
  { eapply (H soap_only (start tt) true _ w2).
    - rewrite <- W2. vm_compute. reflexivity.
    - rewrite <- W2. vm_compute. reflexivity.
    - right. left. reflexivity. }
  rewrite A1 in A2. discriminate A2.
Qed.

End DispatchOrder.

(* ===================================================================== *)
(** ** dev001.py: zone by zone                                            *)
(* ===================================================================== *)

Section ZoneByZone.
Import BMS Stubs.
Local Open Scope string_scope.

Lemma successes_cons zone_id (ok : bool) per :
  successes ((zone_id, ok) :: per) = (if ok then 1 else 0) + successes per.
Proof.
  unfold successes. destruct ok; cbn [filter snd length];
    [rewrite Nat2Z.inj_succ|]; lia.
Qed.

Lemma failures_cons zone_id (ok : bool) per :
  failures ((zone_id, ok) :: per) = (if ok then 0 else 1) + failures per.
Proof.
  unfold failures. destruct ok; cbn [filter snd negb length];
    [|rewrite Nat2Z.inj_succ]; lia.
Qed.

(** One pass of the loop body of [turn_off_zone]: one POST of the
    off-command, and the pass returns [True] exactly when the answer has
    status 200, 201 or 202. *)
Lemma zone_off_attempt {S : Type} (net : network S) self endpoint (w : world S) :
  let (reply, s') := net_http net (zone_off_request self endpoint) (net_state w) in
  try_except
    (response <- session_post net self endpoint
                   (JsonBody (PDict [("state", PStr "off")])) [] 5 ;;
     if status_in response [200; 201; 202]
     then ret (Some true) else ret None)%io
    (fun _ => ret None) w =
  (Ret (if switched_off reply then Some true else None),
   mkWorld s' (transcript w ++ [EvHttp (zone_off_request self endpoint) reply])%list).
Proof.
  unfold session_post, http. fold (zone_off_request self endpoint).
  destruct (net_http net (zone_off_request self endpoint) (net_state w))
    as [[resp|e] s'] eqn:E.
  - run_io. rewrite E. unfold switched_off.
    destruct (status_in resp [200; 201; 202]); reflexivity.
  - run_io. rewrite E. reflexivity.
Qed.

Lemma zone_off_loop {S : Type} (net : network S) self endpoints :
  forall w : world S,
  exists s' replies,
    for_return endpoints (fun endpoint =>
      try_except
        (response <- session_post net self endpoint
                       (JsonBody (PDict [("state", PStr "off")])) [] 5 ;;
         if status_in response [200; 201; 202]
         then ret (Some true) else ret None)%io
        (fun _ => ret None)) w =
    (Ret (if existsb switched_off replies then Some true else None),
     mkWorld s' (transcript w ++ zone_off_events self endpoints replies)%list) /\
    stops_at_success endpoints replies.
Proof.
  induction endpoints as [|endpoint rest IH]; intros w.
  - exists (net_state w), []. simpl. unfold ret, zone_off_events. simpl.
    rewrite app_nil_r. destruct w. split; [reflexivity|].
    split; [simpl; lia|]. split; [|reflexivity].
    intros [|] ? ? H; discriminate H.
  - cbn [for_return]. unfold bind at 1.
    pose proof (zone_off_attempt net self endpoint w) as A.
    destruct (net_http net (zone_off_request self endpoint) (net_state w))
      as [reply s1].
    rewrite A. destruct (switched_off reply) eqn:Y.
    + exists s1, [reply]. cbn [existsb]. rewrite Y. split.
      { unfold zone_off_events. cbn [combine map fst snd orb].
        rewrite combine_nil. reflexivity. }
      split; [simpl; lia|]. split; [|simpl; rewrite Y; discriminate].
      intros [|a [|b earlier]] r later H Hl; inversion H; subst; congruence.
    + destruct (IH (mkWorld s1 (transcript w ++
                      [EvHttp (zone_off_request self endpoint) reply])%list))
        as (s' & replies & R & L & F & N).
      exists s', (reply :: replies). rewrite R. cbn [transcript existsb].
      rewrite Y, <- app_assoc. split; [reflexivity|].
      split; [simpl; lia|]. split.
      * intros [|a earlier] r later H Hl; inversion H; subst.
        { exact Y. }
        { eapply F; [reflexivity|exact Hl]. }
      * intros H. simpl in H |- *. rewrite Y in H. rewrite (N H). reflexivity.
Qed.

(** One call of [turn_off_zone] as the exchange it is: its result is
    [True] exactly when one of the off-commands it posted was answered
    with status 200, 201 or 202. *)
Lemma turn_off_zone_exchange {S : Type} (net : network S) self zone_id (w : world S) :
  exists s' replies,
    turn_off_zone net self zone_id w =
      (Ret (existsb switched_off replies),
       mkWorld s' (transcript w ++
                   zone_off_events self (zone_off_endpoints zone_id) replies)%list) /\
    stops_at_success (zone_off_endpoints zone_id) replies.
Proof.
  unfold turn_off_zone. cbv zeta.
  destruct (zone_off_loop net self (zone_off_endpoints zone_id) w)
    as (s' & replies & R & H).
  exists s', replies. split; [|exact H].
  unfold or_return. unfold bind at 1. unfold zone_off_endpoints in R.
  rewrite R. destruct (existsb switched_off replies); reflexivity.
Qed.

(** The loop of [_turn_off_zone_by_zone] is [switch_each] on the ids of
    the zones: it counts the [turn_off_zone] calls that returned
    [True]. *)
Lemma zone_loop_switch {S : Type} (net : network S) self zones :
  Forall (fun z => is_dict z = true) zones ->
  forall success_count per_zone (w : world S),
  exists ids oks w',
    map zone_id_of zones = map Ret ids /\
    length oks = length ids /\
    switch_each net self ids w = (Ret oks, w') /\
    zone_loop net self zones success_count per_zone w =
      (Ret (success_count + successes (combine ids oks),
            (per_zone ++ combine ids oks)%list), w').
Proof.
  induction 1 as [|z rest Hz _ IH]; intros n per_zone w.
  - exists [], [], w. simpl. rewrite app_nil_r, Z.add_0_r. repeat split.
  - destruct z; try discriminate Hz.
    assert (Z : exists zone_id, zone_id_of (PDict entries) = Ret zone_id)
      by (unfold zone_id_of, py_get; simpl; eauto).
    destruct Z as [zone_id Z]. cbn [zone_loop map]. rewrite Z.
    unfold bind at 1, lift at 1.
    destruct (turn_off_zone_returns net self zone_id w) as (ok & w1 & E).
    unfold bind at 1. rewrite E. destruct ok.
    + unfold bind at 1, sleep at 1.
      destruct (IH (n + 1) (per_zone ++ [(zone_id, true)])%list
                   (log (EvSleep 500) w1)) as (ids & oks & w' & Hids & Hl & Sw & R).
      exists (zone_id :: ids), (true :: oks), w'.
      split; [cbn [map]; rewrite Hids; reflexivity|].
      split; [simpl; congruence|]. split.
      * cbn [switch_each]. unfold bind at 1. rewrite E.
        unfold bind at 1, sleep at 1. unfold bind at 1. rewrite Sw. reflexivity.
      * rewrite R, <- app_assoc. cbn [combine].
        rewrite successes_cons, Z.add_assoc. reflexivity.
    + destruct (IH n (per_zone ++ [(zone_id, false)])%list w1)
        as (ids & oks & w' & Hids & Hl & Sw & R).
      exists (zone_id :: ids), (false :: oks), w'.
      split; [cbn [map]; rewrite Hids; reflexivity|].
      split; [simpl; congruence|]. split.
      * cbn [switch_each]. unfold bind at 1. rewrite E.
        unfold bind at 1, ret at 1. unfold bind at 1. rewrite Sw. reflexivity.
      * rewrite R, <- app_assoc. cbn [combine].
        rewrite successes_cons, Z.add_0_l. reflexivity.
Qed.

Lemma successes_combine ids : forall oks,
  length oks = length ids ->
  ((successes (combine ids oks) >? 0) = true <-> In true oks) /\
  successes (combine ids oks) + failures (combine ids oks) = Z.of_nat (length ids).
Proof.
  assert (P : forall per, 0 <= successes per).
  { intros per. unfold successes. lia. }
  induction ids as [|zone_id ids IH]; intros [|ok oks] Hl; try discriminate Hl.
  - simpl. split; [|reflexivity]. split; [discriminate|intros []].
  - injection Hl as Hl. destruct (IH oks Hl) as [Hi Hs]. cbn [combine length].
    rewrite successes_cons, failures_cons, Nat2Z.inj_succ.
    pose proof (P (combine ids oks)) as Hp.
    rewrite Z.gtb_ltb, Z.ltb_lt in *. split; [|destruct ok; lia].
    destruct ok.
    + split; [intros _; left; reflexivity|lia].
    + rewrite Z.add_0_l, Hi. split; [intros H; right; exact H|].
      intros [H|H]; [discriminate H|exact H].
Qed.

(** C3. For a non-empty listing of zones (JSON objects, as the annotation
    [List[Dict]] of [get_lighting_zones] says), the zone-by-zone operation
    commands every zone once, in list order ([switch_each] on the ids of
    the zones: one [turn_off_zone] call each), and reports success exactly
    when at least one of these calls returned [True], that is when
    [success_count > 0]; failures of other zones do not change that.  A
    call returns [True] exactly when one of the off-commands it posted for
    the zone was answered with status 200, 201 or 202.  With three zones
    of which the second refuses its off-commands, zones 1 and 3 are
    switched off with one request each, zone 2 fails after four, there
    are 2 successes and 1 failure, and the operation reports success. *)
Theorem zone_by_zone_partial_success :
  (forall (S : Type) (net : network S) (self : BMSLightController)
          (zones : list pyval) (w0 w : world S),
      get_lighting_zones net self w0 = (Ret (PList zones), w) ->
      zones <> [] ->
      Forall (fun z => is_dict z = true) zones ->
      exists ids oks w',
        map zone_id_of zones = map Ret ids /\
        length oks = length ids /\
        switch_each net self ids w = (Ret oks, w') /\
        let per := combine ids oks in
        zone_loop net self zones 0 [] w = (Ret (successes per, per), w') /\
        turn_off_zones net self (PList zones) w =
          (Ret (successes per >? 0, per), w') /\
        _turn_off_zone_by_zone net self w0 = (Ret (successes per >? 0), w') /\
        ((successes per >? 0) = true <-> In true oks) /\
        successes per + failures per = Z.of_nat (length zones))
  /\
  (forall (S : Type) (net : network S) (self : BMSLightController)
          (zone_id : pyval) (w : world S),
      exists s' replies,
        turn_off_zone net self zone_id w =
          (Ret (existsb switched_off replies),
           mkWorld s' (transcript w ++
                       zone_off_events self (zone_off_endpoints zone_id) replies)%list) /\
        (length replies <= length (zone_off_endpoints zone_id))%nat /\
        (forall earlier reply later,
            replies = (earlier ++ reply :: later)%list -> later <> [] ->
            switched_off reply = false) /\
        (existsb switched_off replies = false ->
         length replies = length (zone_off_endpoints zone_id)))
  /\
  (let zones := [zone 1; zone 2; zone 3] in
   let per := [(PInt 1, true); (PInt 2, false); (PInt 3, true)] in
   let listed :=
     [EvHttp (zones_request bms "/api/lighting/zones") (reply 200 (Some (PList zones)))] in
   let commanded :=
     (zone_off_events bms (zone_off_endpoints (PInt 1)) [reply 200 None]
      ++ [EvSleep 500]
      ++ zone_off_events bms (zone_off_endpoints (PInt 2))
           [reply 500 None; reply 500 None; reply 500 None; reply 500 None]
      ++ zone_off_events bms (zone_off_endpoints (PInt 3)) [reply 200 None]
      ++ [EvSleep 500])%list in
   get_lighting_zones (zoned 2) bms (start 0%nat) =
     (Ret (PList zones), mkWorld 1%nat listed) /\
   turn_off_zones (zoned 2) bms (PList zones) (mkWorld 1%nat listed) =
     (Ret (true, per), mkWorld 7%nat (listed ++ commanded)%list) /\
   _turn_off_zone_by_zone (zoned 2) bms (start 0%nat) =
     (Ret true, mkWorld 7%nat (listed ++ commanded)%list) /\
   successes per = 2 /\
   failures per = 1).
Proof.
  split; [|split].
  - intros S net self zones w0 w G Hne Hd.
    destruct (zone_loop_switch net self zones Hd 0 [] w)
      as (ids & oks & w' & Hids & Hl & Sw & R).
    simpl in R. exists ids, oks, w'.
    split; [exact Hids|]. split; [exact Hl|]. split; [exact Sw|]. cbv zeta.
    split; [exact R|].
    assert (T : turn_off_zones net self (PList zones) w =
                (Ret (successes (combine ids oks) >? 0, combine ids oks), w')).
    { unfold turn_off_zones. destruct zones as [|z zs]; [congruence|].
      cbn [truthy negb py_iter]. unfold bind at 1, lift at 1.
      unfold bind. rewrite R. reflexivity. }
    split; [exact T|]. split.
    { unfold _turn_off_zone_by_zone, try_except_Exception.
      unfold bind at 1. rewrite G. unfold bind. rewrite T. reflexivity. }
    destruct (successes_combine ids oks Hl) as [Hi Hs].
    split; [exact Hi|]. rewrite Hs.
    assert (Hlen : length (map zone_id_of zones) = length (map Ret ids))
      by (rewrite Hids; reflexivity).
    rewrite !length_map in Hlen. rewrite Hlen. reflexivity.
  - intros S net self zone_id w.
    destruct (turn_off_zone_exchange net self zone_id w)
      as (s' & replies & E & L & F & N).
    exists s', replies. auto.
  - vm_compute. repeat split.
Qed.

Lemma zone_by_zone_partial_success_witness :
  let zones := [zone 1; zone 2; zone 3] in
  let w0 := start 0%nat in
  let w := snd (get_lighting_zones (zoned 2) bms w0) in
  get_lighting_zones (zoned 2) bms w0 = (Ret (PList zones), w) /\
  zones <> [] /\
  Forall (fun z => is_dict z = true) zones /\
  exists ids oks w',
    map zone_id_of zones = map Ret ids /\
    length oks = length ids /\
    switch_each (zoned 2) bms ids w = (Ret oks, w') /\
    let per := combine ids oks in
    zone_loop (zoned 2) bms zones 0 [] w = (Ret (successes per, per), w') /\
    turn_off_zones (zoned 2) bms (PList zones) w =
      (Ret (successes per >? 0, per), w') /\
    _turn_off_zone_by_zone (zoned 2) bms w0 = (Ret (successes per >? 0), w') /\
    ((successes per >? 0) = true <-> In true oks) /\
    successes per + failures per = Z.of_nat (length zones).
Proof.
  intros zones w0 w.
  assert (G : get_lighting_zones (zoned 2) bms w0 = (Ret (PList zones), w))
    by reflexivity.
  assert (Hne : zones <> []) by discriminate.
  assert (Hd : Forall (fun z => is_dict z = true) zones)
    by (repeat constructor).
  split; [exact G|]. split; [exact Hne|]. split; [exact Hd|].
  exact (proj1 zone_by_zone_partial_success nat (zoned 2) bms zones w0 w G Hne Hd).
Defined.

End ZoneByZone.

Section Sleepless.
Context {S : Type}.
Implicit Types w : world S.

Lemma pauses_app evs evs' : pauses (evs ++ evs') = pauses evs + pauses evs'.
Proof. unfold pauses. rewrite filter_app, length_app. lia. Qed.

Lemma sleepless_ret {A} (a : A) : sleepless (S:=S) (ret a).
Proof. intros w. exists []. rewrite app_nil_r. split; reflexivity. Qed.

Lemma sleepless_http (net : network S) r : sleepless (http net r).
Proof.
  intros w. unfold http. destruct (net_http net r (net_state w)) as [reply s'].
  exists [EvHttp r reply]. split; reflexivity.
Qed.

Lemma sleepless_bind {A B} (m : M (S:=S) A) (k : A -> M B) :
  sleepless m -> (forall a, sleepless (k a)) -> sleepless (bind m k).
Proof.
  intros Hm Hk w. unfold bind. destruct (Hm w) as (evs1 & T1 & P1).
  destruct (m w) as [[a|e] w1]; simpl in T1.
  - destruct (Hk a w1) as (evs2 & T2 & P2). exists (evs1 ++ evs2).
    rewrite T2, T1, app_assoc, pauses_app. split; [reflexivity|lia].
  - exists evs1. split; assumption.
Qed.

Lemma sleepless_try_except {A} (body : M (S:=S) A) handler :
  sleepless body -> (forall e, sleepless (handler e)) ->
  sleepless (try_except body handler).
Proof.
  intros Hb Hh w. unfold try_except. destruct (Hb w) as (evs1 & T1 & P1).
  destruct (body w) as [[a|e] w1]; simpl in T1.
  - exists evs1. split; assumption.
  - destruct (Hh e w1) as (evs2 & T2 & P2). exists (evs1 ++ evs2).
    rewrite T2, T1, app_assoc, pauses_app. split; [reflexivity|lia].
Qed.

Lemma sleepless_for_return {A R} (xs : list A) (body : A -> M (S:=S) (option R)) :
  (forall x, sleepless (body x)) -> sleepless (for_return xs body).
Proof.
  intros Hb. induction xs as [|x rest IH]; simpl.
  - apply sleepless_ret.
  - apply sleepless_bind; [apply Hb|]. intros [v|]; [apply sleepless_ret|exact IH].
Qed.

Lemma sleepless_or_return {R} (loop : M (S:=S) (option R)) after :
  sleepless loop -> sleepless after -> sleepless (or_return loop after).
Proof.
  intros Hl Ha. unfold or_return. apply sleepless_bind; [exact Hl|].
  intros [v|]; [apply sleepless_ret|exact Ha].
Qed.

End Sleepless.

Section ZonePacing.
Import BMS Stubs.

Lemma sleepless_turn_off_zone {S : Type} (net : network S) self zone_id :
  sleepless (turn_off_zone net self zone_id).
Proof.
  unfold turn_off_zone, session_post. cbv zeta.
  apply sleepless_or_return; [|apply sleepless_ret].
  apply sleepless_for_return. intros endpoint.
  apply sleepless_try_except; [|intros e; apply sleepless_ret].
  apply sleepless_bind; [apply sleepless_http|]. intros response.
  destruct (status_in response [200; 201; 202]); apply sleepless_ret.
Qed.

(** The script sleeps once for every zone whose off-command succeeded,
    and not at all for the others. *)
Lemma zone_loop_pauses {S : Type} (net : network S) self zones :
  forall success_count per_zone (w : world S) n out w',
    zone_loop net self zones success_count per_zone w = (Ret (n, out), w') ->
    exists per evs,
      out = (per_zone ++ per)%list /\
      transcript w' = (transcript w ++ evs)%list /\
      pauses evs = successes per.
Proof.
  induction zones as [|z rest IH]; intros c per_zone w n out w' E; simpl in E.
  - inversion E; subst. exists [], []. rewrite !app_nil_r. auto.
  - unfold bind at 1, lift at 1 in E.
    destruct (zone_id_of z) as [zone_id|e]; [|discriminate E].
    unfold bind at 1 in E.
    destruct (sleepless_turn_off_zone net self zone_id w) as (evs1 & T1 & P1).
    destruct (turn_off_zone net self zone_id w) as [[ok|e] w1];
      [|discriminate E].
    simpl in T1. destruct ok.
    + unfold bind at 1, sleep at 1 in E.
      destruct (IH _ _ _ _ _ _ E) as (per & evs2 & -> & T2 & P2).
      exists ((zone_id, true) :: per), (evs1 ++ [EvSleep 500] ++ evs2)%list.
      rewrite T2. unfold log. cbn [transcript]. rewrite T1, <- !app_assoc.
      split; [reflexivity|]. split; [reflexivity|].
      rewrite !pauses_app, successes_cons, P1, P2. reflexivity.
    + destruct (IH _ _ _ _ _ _ E) as (per & evs2 & -> & T2 & P2).
      exists ((zone_id, false) :: per), (evs1 ++ evs2)%list.
      rewrite T2, T1, <- !app_assoc.
      split; [reflexivity|]. split; [reflexivity|].
      rewrite pauses_app, successes_cons, P1, P2. reflexivity.
Qed.

(** C4, at an input where it fails.  The controller lists zones 1, 2
    and 3; they are commanded one after the other in list order, but the
    half-second delay is only taken after a zone that was switched off:
    zone 1 refuses all four of its off-commands, and the command for
    zone 2 follows at once, with no pause in between. *)
Theorem zone_by_zone_skips_delay_after_failure :
  map step_of
      (transcript (snd (_turn_off_zone_by_zone (zoned 1) bms (start 0%nat)))) =
  [Other;
   Command (PInt 1); Command (PInt 1); Command (PInt 1); Command (PInt 1);
   Command (PInt 2); Pause 500;
   Command (PInt 3); Pause 500].
Proof. vm_compute. reflexivity. Qed.

End ZonePacing.

(* ===================================================================== *)
(** ** dev003.py and dev001.py: probes                                    *)
(* ===================================================================== *)

Section Probe.
Import BMS Building Stubs.
Local Open Scope string_scope.

(** C5. Over UDP the probe reports reachable as soon as the one probe
    datagram has been handed to the network without an error: with the
    socket created and [sendto] returning, [check_controller] returns
    [True]; its whole conversation is that single [sendto] of one zero
    byte, and nothing is received or waited for. *)
Theorem udp_probe_reachable_once_sent :
  forall (S : Type) (net : network S) (ip : string) (port : Z) (w : world S)
         (fd sent : Z) (s1 s2 : S),
    net_sock net (Socket SOCK_DGRAM) (net_state w) = (Ret fd, s1) ->
    net_sock net (SendTo [0] ip port) s1 = (Ret sent, s2) ->
    check_controller net ip port "UDP" w =
    (Ret true,
     mkWorld s2 (transcript w ++
                 [EvSock (Socket SOCK_DGRAM) (Ret fd);
                  EvSock (SetTimeout 2) (Ret 0);
                  EvSock (SendTo [0] ip port) (Ret sent);
                  EvSock Close (Ret 0)])%list).
Proof.
  intros S net ip port w fd sent s1 s2 E1 E2.
  unfold check_controller. cbn [existsb String.eqb Ascii.eqb Bool.eqb orb].
  run_io. unfold sock. cbn [net_state transcript].
  rewrite E1. cbn [net_state transcript]. rewrite E2.
  cbn [net_state transcript]. rewrite <- !app_assoc. reflexivity.
Qed.

Lemma udp_probe_reachable_once_sent_witness :
  check_controller all_ok "192.168.1.200" 3671 "UDP" (start tt) =
  (Ret true,
   mkWorld tt [EvSock (Socket SOCK_DGRAM) (Ret 0);
               EvSock (SetTimeout 2) (Ret 0);
               EvSock (SendTo [0] "192.168.1.200" 3671) (Ret 0);
               EvSock Close (Ret 0)]).
Proof.
  apply (udp_probe_reachable_once_sent unit all_ok "192.168.1.200" 3671
           (start tt) 0 0 tt tt); reflexivity.
Defined.

(** C6. The probes never raise.  Whatever the network does,
    [check_controller] returns a boolean; if any of its socket calls
    raised (timeout, refused connection, unreachable host, anything) the
    boolean is [False], and over TCP or HTTP it is [True] only when
    [connect_ex] returned 0.  The same holds for [_try_bacnet], which
    returns the protocol name or [None]. *)
Theorem probe_never_raises :
  (forall (S : Type) (net : network S) (ip : string) (port : Z)
          (protocol : string) (w : world S),
      exists b s' evs,
        check_controller net ip port protocol w =
          (Ret b, mkWorld s' (transcript w ++ evs)%list) /\
        (existsb raised evs = true -> b = false) /\
        (b = true ->
         existsb (String.eqb protocol) ["TCP"; "HTTP"] = true ->
         In (EvSock (ConnectEx ip port) (Ret 0)) evs))
  /\
  (forall (S : Type) (net : network S) (self : BMSLightController) (w : world S),
      exists r s' evs,
        _try_bacnet net self w =
          (Ret r, mkWorld s' (transcript w ++ evs)%list) /\
        (existsb raised evs = true -> r = None) /\
        (r <> None ->
         In (EvSock (ConnectEx (controller_ip self) 47808) (Ret 0)) evs)).
Proof.
  split.
  - intros S net ip port protocol [s t].
    unfold check_controller.
    destruct (existsb (String.eqb protocol) ["TCP"; "HTTP"]) eqn:Htcp;
      [|destruct (String.eqb protocol "UDP")];
      run_io; unfold sock; cbn [net_state transcript].
    + destruct (net_sock net (Socket SOCK_STREAM) s) as [[fd|e] s1];
        cbn [net_state transcript].
      * destruct (net_sock net (ConnectEx ip port) s1) as [[code|e] s2];
          cbn [net_state transcript].
        -- eexists _, _, _. split; [rewrite <- !app_assoc; reflexivity|].
           split; [simpl; discriminate|].
           intros Hb _. apply Z.eqb_eq in Hb. subst code.
           simpl. auto.
        -- eexists _, _, _. split; [rewrite <- !app_assoc; reflexivity|].
           split; [reflexivity|discriminate].
      * eexists _, _, _. split; [reflexivity|].
        split; [reflexivity|discriminate].
    + destruct (net_sock net (Socket SOCK_DGRAM) s) as [[fd|e] s1];
        cbn [net_state transcript].
      * destruct (net_sock net (SendTo [0] ip port) s1) as [[sent|e] s2];
          cbn [net_state transcript].
        -- eexists _, _, _. split; [rewrite <- !app_assoc; reflexivity|].
           split; [simpl; discriminate|]. intros _ H. discriminate H.
        -- eexists _, _, _. split; [rewrite <- !app_assoc; reflexivity|].
           split; [reflexivity|discriminate].
      * eexists _, _, _. split; [reflexivity|].
        split; [reflexivity|discriminate].
    + exists false, s, []. rewrite app_nil_r.
      split; [reflexivity|]. split; [reflexivity|discriminate].
  - intros S net self [s t]. unfold _try_bacnet, with_socket.
    run_io. unfold sock. cbn [net_state transcript].
    destruct (net_sock net (Socket SOCK_STREAM) s) as [[fd|e] s1];
      cbn [net_state transcript fst snd].
    + destruct (net_sock net (ConnectEx (controller_ip self) 47808) s1)
        as [[code|e] s2]; cbn [net_state transcript fst snd].
      * destruct (code =? 0)%Z eqn:Hc; cbn [net_state transcript fst snd].
        -- apply Z.eqb_eq in Hc. subst code.
           eexists _, _, _. split; [rewrite <- !app_assoc; reflexivity|].
           split; [simpl; discriminate|]. intros _. simpl. auto.
        -- eexists _, _, _. split; [rewrite <- !app_assoc; reflexivity|].
           split; [reflexivity|]. intros H. exfalso. apply H. reflexivity.
      * eexists _, _, _. split; [rewrite <- !app_assoc; reflexivity|].
        split; [reflexivity|]. intros H. exfalso. apply H. reflexivity.
    + eexists _, _, _. split; [reflexivity|].
      split; [reflexivity|]. intros H. exfalso. apply H. reflexivity.
Qed.

End Probe.

(* ===================================================================== *)
(** ** dev001.py: listing the zones                                       *)
(* ===================================================================== *)

Section ZoneListing.
Import BMS Stubs.
Local Open Scope string_scope.
Local Open Scope Z_scope.

(** One pass of the loop body of [get_lighting_zones]: one GET, and the
    pass returns exactly what the answer [yields]. *)
Lemma zones_attempt {S : Type} (net : network S) self endpoint (w : world S) :
  let (reply, s') := net_http net (zones_request self endpoint) (net_state w) in
  try_except
    (response <- session_get net self [Lit endpoint] 10 ;;
     if status_code response =? 200
     then (v <- lift (response_json response) ;; ret (Some v))
     else ret None)%io
    (fun _ => ret None) w =
  (Ret (yields reply),
   mkWorld s' (transcript w ++ [EvHttp (zones_request self endpoint) reply])%list).
Proof.
  unfold session_get, http. fold (zones_request self endpoint).
  destruct (net_http net (zones_request self endpoint) (net_state w))
    as [[resp|e] s'] eqn:E.
  - run_io. rewrite E. unfold yields, response_json.
    destruct (status_code resp =? 200)%Z; [|reflexivity].
    destruct (json resp); reflexivity.
  - run_io. rewrite E. reflexivity.
Qed.

Lemma zones_loop {S : Type} (net : network S) self endpoints :
  forall w : world S,
  exists r s' replies,
    for_return endpoints (fun endpoint =>
      try_except
        (response <- session_get net self [Lit endpoint] 10 ;;
         if status_code response =? 200
         then (v <- lift (response_json response) ;; ret (Some v))
         else ret None)%io
        (fun _ => ret None)) w =
    (Ret r, mkWorld s' (transcript w ++ zone_events self endpoints replies)%list) /\
    match r with
    | Some v =>
        exists earlier reply,
          replies = (earlier ++ [reply])%list /\
          (length replies <= length endpoints)%nat /\
          Forall (fun a => yields a = None) earlier /\
          yields reply = Some v
    | None =>
        length replies = length endpoints /\
        Forall (fun a => yields a = None) replies
    end.
Proof.
  induction endpoints as [|endpoint rest IH]; intros w.
  - exists None, (net_state w), []. simpl. unfold ret, zone_events. simpl.
    rewrite app_nil_r. destruct w. split; [reflexivity|]. split; auto.
  - cbn [for_return]. unfold bind at 1.
    pose proof (zones_attempt net self endpoint w) as A.
    destruct (net_http net (zones_request self endpoint) (net_state w))
      as [reply s1].
    rewrite A. destruct (yields reply) as [v|] eqn:Y.
    + exists (Some v), s1, [reply]. split.
      { unfold zone_events. cbn [combine map fst snd].
        rewrite combine_nil. reflexivity. }
      exists [], reply. simpl. repeat split; auto. lia.
    + destruct (IH (mkWorld s1 (transcript w ++
                      [EvHttp (zones_request self endpoint) reply])%list))
        as (r & s' & replies & R & H).
      exists r, s', (reply :: replies). rewrite R. cbn [transcript].
      rewrite <- app_assoc. split; [reflexivity|].
      destruct r as [v|].
      * destruct H as (earlier & last & -> & L & F & Yl).
        exists (reply :: earlier), last. repeat split; auto.
        simpl in *. lia.
      * destruct H as [L F]. split; [simpl; congruence|]. constructor; auto.
Qed.

(** C7 (as amended). [get_lighting_zones] asks its endpoints in list
    order, one GET each, and returns the decoded body of the first
    answer that has status 200 and a JSON body, whatever that body is
    (an empty list included); later endpoints are then not asked.  When
    no answer qualifies it has asked all five and returns the empty
    list.  It never raises. *)
Theorem get_lighting_zones_first_answer :
  forall (S : Type) (net : network S) (self : BMSLightController) (w : world S),
  exists v s' replies,
    get_lighting_zones net self w =
      (Ret v, mkWorld s' (transcript w ++
                          zone_events self (zone_endpoints) replies)%list) /\
    ((exists earlier reply,
         replies = (earlier ++ [reply])%list /\
         (length replies <= length zone_endpoints)%nat /\
         Forall (fun a => yields a = None) earlier /\
         yields reply = Some v)
     \/
     (length replies = length zone_endpoints /\
      Forall (fun a => yields a = None) replies /\
      v = PList [])).
Proof.
  intros S net self w. unfold get_lighting_zones.
  destruct (zones_loop net self zone_endpoints w) as (r & s' & replies & R & H).
  unfold try_except_Exception, or_return. unfold bind at 1. rewrite R.
  destruct r as [v|].
  - exists v, s', replies. split; [reflexivity|]. left. exact H.
  - exists (PList []), s', replies. split; [reflexivity|]. right.
    destruct H. auto.
Qed.

(** C7 as stated does not hold: the first endpoint answers 200 with an
    empty list and the second would answer with a list of one zone;
    [get_lighting_zones] returns the empty list of the first, not the
    first non-empty list. *)
Lemma get_lighting_zones_returns_empty_first_answer :
  fst (get_lighting_zones empty_first bms (start tt)) = Ret (PList []) /\
  In "/bms/lighting" zone_endpoints /\
  yields (fst (net_http empty_first (zones_request bms "/bms/lighting") tt))
    = Some (PList [zone 1]) /\
  truthy (PList [zone 1]) = true.
Proof. vm_compute. repeat split. right. left. reflexivity. Qed.

End ZoneListing.

(* ===================================================================== *)
(** ** Responders whose answers do not change                             *)
(* ===================================================================== *)

Section Steady.
Context {S : Type}.
Implicit Types w : world S.

Lemma steady_ret {A} (a : A) : steady (S:=S) (ret a).
Proof. intros w1 w2. reflexivity. Qed.

Lemma steady_lift {A} (r : result A) : steady (S:=S) (lift r).
Proof. intros w1 w2. reflexivity. Qed.

Lemma steady_sleep ms : steady (S:=S) (sleep ms).
Proof. intros w1 w2. reflexivity. Qed.

Lemma steady_sock_local c : steady (S:=S) (sock_local c).
Proof. intros w1 w2. reflexivity. Qed.

Lemma steady_bind {A B} (m : M (S:=S) A) (k : A -> M B) :
  steady m -> (forall a, steady (k a)) -> steady (bind m k).
Proof.
  intros Hm Hk w1 w2. unfold bind. specialize (Hm w1 w2).
  destruct (m w1) as [r1 v1], (m w2) as [r2 v2]. simpl in Hm. subst r2.
  destruct r1; [apply Hk|reflexivity].
Qed.

Lemma steady_try_except {A} (body : M (S:=S) A) handler :
  steady body -> (forall e, steady (handler e)) ->
  steady (try_except body handler).
Proof.
  intros Hb Hh w1 w2. unfold try_except. specialize (Hb w1 w2).
  destruct (body w1) as [r1 v1], (body w2) as [r2 v2]. simpl in Hb. subst r2.
  destruct r1; [reflexivity|apply Hh].
Qed.

Lemma steady_try_except_Exception {A} (body : M (S:=S) A) handler :
  steady body -> (forall e, steady (handler e)) ->
  steady (try_except_Exception body handler).
Proof.
  intros Hb Hh w1 w2. unfold try_except_Exception. specialize (Hb w1 w2).
  destruct (body w1) as [r1 v1], (body w2) as [r2 v2]. simpl in Hb. subst r2.
  destruct r1 as [a|e]; [reflexivity|].
  destruct (is_Exception e); [apply Hh|reflexivity].
Qed.

Lemma steady_try_finally {A} (body : M (S:=S) A) cleanup :
  steady body -> steady (try_finally body cleanup).
Proof.
  intros Hb w1 w2. unfold try_finally. specialize (Hb w1 w2).
  destruct (body w1) as [r1 v1], (body w2) as [r2 v2]. exact Hb.
Qed.

Lemma steady_for_return {A R} (xs : list A) (body : A -> M (S:=S) (option R)) :
  (forall x, steady (body x)) -> steady (for_return xs body).
Proof.
  intros Hb. induction xs as [|x rest IH]; simpl.
  - apply steady_ret.
  - apply steady_bind; [apply Hb|]. intros [v|]; [apply steady_ret|exact IH].
Qed.

Lemma steady_or_return {R} (loop : M (S:=S) (option R)) after :
  steady loop -> steady after -> steady (or_return loop after).
Proof.
  intros Hl Ha. unfold or_return. apply steady_bind; [exact Hl|].
  intros [v|]; [apply steady_ret|exact Ha].
Qed.

Variable net : network S.
Hypothesis Hnet : unchanging net.

Lemma steady_http r : steady (http net r).
Proof.
  intros w1 w2. unfold http. pose proof (proj1 Hnet r (net_state w1) (net_state w2)) as H.
  destruct (net_http net r (net_state w1)), (net_http net r (net_state w2)).
  exact H.
Qed.

Lemma steady_sock c : steady (sock net c).
Proof.
  intros w1 w2. unfold sock. pose proof (proj2 Hnet c (net_state w1) (net_state w2)) as H.
  destruct (net_sock net c (net_state w1)), (net_sock net c (net_state w2)).
  exact H.
Qed.

Lemma steady_attempt_once (m : strategy S) :
  steady (execute m) -> steady (attempt_once m).
Proof.
  intros Hm. unfold attempt_once. apply steady_try_except_Exception.
  - apply steady_bind; [exact Hm|]. intros b. apply steady_ret.
  - intros e. apply steady_ret.
Qed.

Lemma steady_run_chain (methods : list (strategy S)) :
  (forall m, In m methods -> steady (execute m)) ->
  forall attempts, steady (run_chain methods attempts).
Proof.
  induction methods as [|m rest IH]; intros Hm attempts; simpl.
  - apply steady_ret.
  - apply steady_bind.
    + apply steady_attempt_once. apply Hm. left. reflexivity.
    + intros v. destruct v; try apply steady_ret;
        apply IH; intros m' Hin; apply Hm; right; exact Hin.
Qed.

End Steady.

#[local] Hint Resolve steady_ret steady_lift steady_sleep steady_sock_local
  steady_try_except steady_try_except_Exception steady_try_finally
  steady_for_return steady_or_return steady_http steady_sock : steady.

Ltac steady_step Hnet :=
  first
    [ apply steady_ret | apply steady_lift | apply steady_sleep
    | apply steady_sock_local
    | apply (steady_http _ Hnet) | apply (steady_sock _ Hnet)
    | apply steady_bind | apply steady_try_except_Exception
    | apply steady_try_except | apply steady_try_finally
    | apply steady_for_return | apply steady_or_return
    | match goal with
      | |- forall _, _ => intro
      | |- steady (if ?c then _ else _) => destruct c
      | |- steady (match ?x with _ => _ end) => destruct x
      end ].

Section Idempotence.
Import BMS Stubs.
Context {S : Type} (net : network S) (self : BMSLightController).
Hypothesis Hnet : unchanging net.

Lemma steady_turn_off_zone zone_id : steady (turn_off_zone net self zone_id).
Proof.
  unfold turn_off_zone, session_post. cbv zeta. repeat steady_step Hnet.
Qed.

Lemma steady_get_lighting_zones : steady (get_lighting_zones net self).
Proof.
  unfold get_lighting_zones, session_get. repeat steady_step Hnet.
Qed.

Lemma steady_zone_loop zones :
  forall success_count per_zone,
    steady (zone_loop net self zones success_count per_zone).
Proof.
  induction zones as [|zone rest IH]; intros n per; simpl.
  - apply steady_ret.
  - apply steady_bind; [apply steady_lift|]. intros zone_id.
    apply steady_bind; [apply steady_turn_off_zone|]. intros [|].
    + apply steady_bind; [apply steady_sleep|]. intros _. apply IH.
    + apply IH.
Qed.

Lemma steady_turn_off_zone_by_zone : steady (_turn_off_zone_by_zone net self).
Proof.
  unfold _turn_off_zone_by_zone, turn_off_zones.
  apply steady_try_except_Exception; [|intros e; apply steady_ret].
  apply steady_bind; [apply steady_get_lighting_zones|]. intros zones.
  apply steady_bind; [|intros r; apply steady_ret].
  destruct (negb (truthy zones)); [apply steady_ret|].
  apply steady_bind; [apply steady_lift|]. intros items.
  apply steady_bind; [apply steady_zone_loop|]. intros r. apply steady_ret.
Qed.

Lemma steady_methods m : In m (methods net self) -> steady (execute m).
Proof.
  simpl. intros [<-|[<-|[<-|[<-|[<-|[]]]]]]; simpl.
  - unfold _turn_off_via_rest, session_post, session_get. cbv zeta.
    repeat steady_step Hnet.
  - unfold _turn_off_via_soap, session_post. cbv zeta. repeat steady_step Hnet.
  - unfold _turn_off_via_simple_http, session_get. cbv zeta.
    repeat steady_step Hnet.
  - unfold _turn_off_via_bacnet_simulation, session_post. cbv zeta.
    repeat steady_step Hnet.
  - apply steady_turn_off_zone_by_zone.
Qed.

Lemma steady_turn_off_all_lights : steady (turn_off_all_lights net self).
Proof.
  unfold turn_off_all_lights, dispatch. apply steady_bind.
  - apply steady_run_chain. exact steady_methods.
  - intros r. apply steady_ret.
Qed.

End Idempotence.

Section IdempotenceClaim.
Import BMS Stubs.

(** C9. Against a controller whose answers do not change, dispatching
    the turn-off command a second time, from whatever state the first
    dispatch left the network in, gives the same result as the first; in
    particular a dispatch that returned [True] returns [True] again.
    Success only depends on the answers to the requests issued, not on
    any change of state. *)
Theorem turn_off_all_lights_idempotent :
  forall (S : Type) (net : network S) (self : BMSLightController)
         (w w1 : world S) (b : bool),
    unchanging net ->
    turn_off_all_lights net self w = (Ret b, w1) ->
    exists w2,
      turn_off_all_lights net self w1 = (Ret b, w2) /\
      (b = true -> fst (turn_off_all_lights net self w) = Ret true /\
                   fst (turn_off_all_lights net self w1) = Ret true).
Proof.
  intros S net self w w1 b Hnet E.
  pose proof (steady_turn_off_all_lights net self Hnet w1 w) as St.
  rewrite E in St. simpl in St.
  destruct (turn_off_all_lights net self w1) as [r2 w2] eqn:E2.
  simpl in St. subst r2. exists w2. split; [reflexivity|].
  intros ->. rewrite E. split; reflexivity.
Qed.

Lemma zoned_unchanging bad : unchanging (zoned bad).
Proof. split; intros; reflexivity. Qed.

Lemma turn_off_all_lights_idempotent_witness :
  let w1 := snd (turn_off_all_lights (zoned 2) bms (start 0%nat)) in
  net_state w1 <> 0%nat /\
  exists w2,
    turn_off_all_lights (zoned 2) bms w1 = (Ret true, w2) /\
    (true = true ->
     fst (turn_off_all_lights (zoned 2) bms (start 0%nat)) = Ret true /\
     fst (turn_off_all_lights (zoned 2) bms w1) = Ret true).
Proof.
  intros w1. split; [vm_compute; discriminate|].
  apply (turn_off_all_lights_idempotent nat (zoned 2) bms (start 0%nat) w1 true).
  - apply zoned_unchanging.
  - vm_compute. reflexivity.
Defined.

End IdempotenceClaim.

(* ===================================================================== *)
(** ** dev003.py: discovery                                               *)
(* ===================================================================== *)

Section ListFacts.
Context {A B : Type}.

Lemma NoDup_list_prod (l : list A) (l' : list B) :
  NoDup l -> NoDup l' -> NoDup (list_prod l l').
Proof.
  intros Hl Hl'. induction Hl as [|x t Hx Ht IH]; simpl; [constructor|].
  apply NoDup_app.
  - clear -Hl'. induction Hl' as [|y u Hy Hu IHu]; simpl; constructor; auto.
    intros Hin. apply in_map_iff in Hin. destruct Hin as (y' & E & Hin).
    inversion E; subst. contradiction.
  - exact IH.
  - intros [a b] Hin Hin'. apply in_map_iff in Hin.
    destruct Hin as (y & E & _). inversion E; subst.
    apply in_prod_iff in Hin'. destruct Hin'. contradiction.
Qed.

Lemma NoDup_map_filter {C : Type} (f : A -> C) (p : A -> bool) (l : list A) :
  NoDup (map f l) -> NoDup (map f (filter p l)).
Proof.
  induction l as [|a l IH]; simpl; intros H; [constructor|].
  inversion H as [|? ? Hn Hnd]; subst. destruct (p a); simpl; auto.
  constructor; auto. intros Hin. apply Hn.
  apply in_map_iff in Hin. destruct Hin as (a' & E & Hin).
  apply filter_In in Hin. apply in_map_iff. exists a'. tauto.
Qed.

End ListFacts.

Section Discovery.
Import Building Stubs.
Local Open Scope string_scope.

Context {S : Type} (net : network S).

Lemma check_controller_returns ip port protocol :
  no_raise (check_controller net ip port protocol).
Proof. unfold check_controller. auto with total. Qed.

Hypothesis Hnet : unchanging net.

Lemma steady_check_controller ip port protocol :
  steady (check_controller net ip port protocol).
Proof. unfold check_controller. repeat steady_step Hnet. Qed.

Lemma check_controller_reports s ip info (w : world S) :
  exists w',
    check_controller net ip (info_port info) (info_protocol info) w =
    (Ret (reported net s ip info), w').
Proof.
  destruct (check_controller_returns ip (info_port info) (info_protocol info) w)
    as (b & w' & E).
  exists w'. rewrite E. unfold reported.
  rewrite (steady_check_controller ip (info_port info) (info_protocol info)
             (mkWorld s []) w), E.
  reflexivity.
Qed.

Lemma probe_protocols_spec s ip items :
  forall found (w : world S),
  exists w',
    probe_protocols net ip items found w =
    (Ret (found ++
          map entry (filter (fun p => reported net s (fst p) (snd (snd p)))
                            (map (pair ip) items)))%list, w').
Proof.
  induction items as [|[name info] rest IH]; intros found w; simpl.
  - exists w. rewrite app_nil_r. reflexivity.
  - destruct (check_controller_reports s ip info w) as (w1 & E).
    unfold bind at 1. rewrite E.
    destruct (reported net s ip info).
    + destruct (IH (found ++ [mkFound ip (info_port info) name (info_protocol info)])%list w1)
        as (w' & R).
      exists w'. rewrite R, <- app_assoc. reflexivity.
    + apply IH.
Qed.

Lemma probe_controllers_spec s items controllers :
  forall found (w : world S),
  exists w',
    probe_controllers net controllers items found w =
    (Ret (found ++
          map entry (filter (fun p => reported net s (fst p) (snd (snd p)))
                            (list_prod controllers items)))%list, w').
Proof.
  induction controllers as [|ip rest IH]; intros found w; simpl.
  - exists w. rewrite app_nil_r. reflexivity.
  - destruct (probe_protocols_spec s ip items found w) as (w1 & E).
    unfold bind at 1. rewrite E.
    destruct (IH (found ++
          map entry (filter (fun p => reported net s (fst p) (snd (snd p)))
                            (map (pair ip) items)))%list w1) as (w' & R).
    exists w'. rewrite R, filter_app, map_app, <- app_assoc. reflexivity.
Qed.

End Discovery.

Section DiscoveryClaim.
Import Building Stubs.
Local Open Scope string_scope.

Lemma pairs_of_entries (l : list (string * (string * protocol_info))) :
  map pair_of (map entry l) = map (fun p => (fst p, fst (snd p))) l.
Proof.
  rewrite map_map. apply map_ext. intros [ip [name info]]. reflexivity.
Qed.

Lemma pairs_of_product (controllers : list string)
      (items : list (string * protocol_info)) :
  map (fun p => (fst p, fst (snd p))) (list_prod controllers items) =
  list_prod controllers (map fst items).
Proof.
  induction controllers as [|ip rest IH]; simpl; [reflexivity|].
  rewrite map_app, IH, !map_map. reflexivity.
Qed.

(** C8 (as amended). With probe outcomes that are a function of the
    target and the catalog entry, the result of the discovery is the
    cross-product of targets and catalog entries, in loop order, cut down
    to the pairs for which the probe reported reachable: a pair is in the
    result exactly when it is in the cross-product and was reported
    reachable, once for each time its target occurs in the target list;
    so no pair is repeated when no target is (catalog names are dict
    keys, hence distinct).  The result is the same from whatever state
    the discovery starts. *)
Theorem discovery_lists_reachable_pairs :
  forall (S : Type) (net : network S) (self : BuildingLightController)
         (w : world S),
    unchanging net ->
    let reach := fun p : string * (string * protocol_info) =>
                   reported net (net_state w) (fst p) (snd (snd p)) in
    let found :=
      map entry (filter reach (list_prod (common_controllers self)
                                         (building_protocols self))) in
    (exists w', discover_building_controllers net self w = (Ret found, w')) /\
    (forall w2, fst (discover_building_controllers net self w2) = Ret found) /\
    (forall ip name,
        In (ip, name) (map pair_of found) <->
        exists info,
          In ip (common_controllers self) /\
          In (name, info) (building_protocols self) /\
          reported net (net_state w) ip info = true) /\
    (NoDup (common_controllers self) ->
     NoDup (map fst (building_protocols self)) ->
     NoDup (map pair_of found)).
Proof.
  intros S net self w Hnet reach found.
  assert (R : forall w2, exists w',
             discover_building_controllers net self w2 = (Ret found, w')).
  { intros w2. unfold discover_building_controllers.
    destruct (probe_controllers_spec net Hnet (net_state w)
                (building_protocols self) (common_controllers self) [] w2)
      as (w' & E).
    exists w'. exact E. }
  split; [apply R|]. split.
  { intros w2. destruct (R w2) as (w' & E). rewrite E. reflexivity. }
  split.
  - intros ip name. unfold found. rewrite pairs_of_entries, in_map_iff. split.
    + intros ([ip' [name' info]] & E & Hin). simpl in E. inversion E; subst.
      apply filter_In in Hin. destruct Hin as [Hin Hr].
      apply in_prod_iff in Hin. exists info. tauto.
    + intros (info & Hip & Hitem & Hr). exists (ip, (name, info)).
      split; [reflexivity|]. apply filter_In. split; [|exact Hr].
      apply in_prod_iff. tauto.
  - intros Hc Hi. unfold found. rewrite pairs_of_entries.
    apply NoDup_map_filter. rewrite pairs_of_product.
    apply NoDup_list_prod; assumption.
Qed.

Lemma all_ok_unchanging : unchanging all_ok.
Proof. split; intros; reflexivity. Qed.

Lemma init_has_no_repeated_target : NoDup (common_controllers init).
Proof.
  repeat constructor; simpl; intros H;
    repeat (destruct H as [H|H]; [discriminate H|]); exact H.
Qed.

Lemma init_has_no_repeated_protocol : NoDup (map fst (building_protocols init)).
Proof.
  repeat constructor; simpl; intros H;
    repeat (destruct H as [H|H]; [discriminate H|]); exact H.
Qed.

Lemma discovery_lists_reachable_pairs_witness :
  let found :=
    map entry (filter (fun p => reported all_ok tt (fst p) (snd (snd p)))
                      (list_prod (common_controllers init)
                                 (building_protocols init))) in
  unchanging all_ok /\
  (exists w', discover_building_controllers all_ok init (start tt) = (Ret found, w')) /\
  length found = 56%nat /\
  NoDup (map pair_of found).
Proof.
  intros found. split; [exact all_ok_unchanging|].
  destruct (discovery_lists_reachable_pairs unit all_ok init (start tt)
              all_ok_unchanging) as (H1 & _ & _ & H4).
  split; [exact H1|]. split; [reflexivity|].
  apply H4; [exact init_has_no_repeated_target|exact init_has_no_repeated_protocol].
Defined.

(** C8 as stated does not hold for every target list: a target listed
    twice is probed twice, and each of its reachable pairs is in the
    result twice; nothing folds them into one entry. *)
Lemma discovery_repeats_pairs_of_a_repeated_target :
  let self := mkBuilding (building_protocols init)
                         ["192.168.1.100"; "192.168.1.100"] in
  exists found,
    fst (discover_building_controllers all_ok self (start tt)) = Ret found /\
    ~ NoDup (map pair_of found).
Proof.
  intros self. eexists. split; [vm_compute; reflexivity|].
  intros H. apply NoDup_cons_iff in H. destruct H as [Hn _].
  apply Hn. simpl. do 6 right. left. reflexivity.
Qed.

End DiscoveryClaim.

(* ===================================================================== *)
(** * Further properties                                                  *)
(* ===================================================================== *)

(** ** dev002.py: the TP-Link encoding                                    *)

Section EncryptMore.
Import SmartHome.

Lemma lxor_cancel (key c : Z) : Z.lxor key (Z.lxor key c) = c.
Proof. rewrite <- Z.lxor_assoc, Z.lxor_nilpotent, Z.lxor_0_l. reflexivity. Qed.

Lemma bytearray_append_ret buf v out :
  bytearray_append buf v = Ret out -> out = (buf ++ [v])%list /\ 0 <= v < 256.
Proof.
  unfold bytearray_append. destruct (byte_ok v) eqn:B; intros H; inversion H.
  split; [reflexivity|]. apply byte_ok_true. exact B.
Qed.

Lemma encrypt_loop_shape (data : pystr) :
  forall key result out,
    encrypt_loop data key result = Ret out ->
    exists tail, out = (result ++ tail)%list /\ length tail = length data.
Proof.
  induction data as [|c rest IH]; intros key result out E; simpl in E.
  - inversion E. exists []. rewrite app_nil_r. auto.
  - destruct (bytearray_append result (Z.lxor key c)) as [r1|e] eqn:A;
      [|discriminate E]. simpl in E.
    apply bytearray_append_ret in A. destruct A as [-> _].
    destruct (IH _ _ _ E) as (tail & -> & L).
    exists (Z.lxor key c :: tail). rewrite <- app_assoc. simpl. auto.
Qed.

Lemma encrypt_loop_small (data : pystr) :
  forall key result out,
    0 <= key < 256 ->
    Forall (fun c => 0 <= c) data ->
    encrypt_loop data key result = Ret out ->
    Forall (fun c => c < 256) data.
Proof.
  induction data as [|c rest IH]; intros key result out Hk Hpos E; simpl in E.
  - constructor.
  - destruct (bytearray_append result (Z.lxor key c)) as [r1|e] eqn:A;
      [|discriminate E]. simpl in E.
    apply bytearray_append_ret in A. destruct A as [-> Ha].
    inversion Hpos; subst. constructor.
    + pose proof (lxor_byte key (Z.lxor key c) Hk Ha) as B.
      rewrite lxor_cancel in B. lia.
    + eapply IH; eassumption.
Qed.

Lemma encrypt_loop_injective (d1 : pystr) :
  forall d2 key result out,
    encrypt_loop d1 key result = Ret out ->
    encrypt_loop d2 key result = Ret out ->
    d1 = d2.
Proof.
  induction d1 as [|c1 r1 IH]; intros d2 key result out E1 E2.
  - destruct d2 as [|c2 r2]; [reflexivity|].
    destruct (encrypt_loop_shape _ _ _ _ E1) as (t1 & H1 & L1).
    destruct (encrypt_loop_shape _ _ _ _ E2) as (t2 & H2 & L2).
    rewrite H1 in H2. apply app_inv_head in H2. subst t2.
    simpl in L1, L2. lia.
  - destruct d2 as [|c2 r2].
    + destruct (encrypt_loop_shape _ _ _ _ E1) as (t1 & H1 & L1).
      destruct (encrypt_loop_shape _ _ _ _ E2) as (t2 & H2 & L2).
      rewrite H1 in H2. apply app_inv_head in H2. subst t2.
      simpl in L1, L2. lia.
    + simpl in E1, E2.
      destruct (bytearray_append result (Z.lxor key c1)) as [b1|e] eqn:A1;
        [|discriminate E1].
      destruct (bytearray_append result (Z.lxor key c2)) as [b2|e] eqn:A2;
        [|discriminate E2].
      simpl in E1, E2.
      apply bytearray_append_ret in A1. apply bytearray_append_ret in A2.
      destruct A1 as [-> _], A2 as [-> _].
      destruct (encrypt_loop_shape _ _ _ _ E1) as (t1 & H1 & _).
      destruct (encrypt_loop_shape _ _ _ _ E2) as (t2 & H2 & _).
      rewrite H1, <- !app_assoc in H2. apply app_inv_head in H2.
      inversion H2 as [[Hx Ht]].
      assert (c1 = c2).
      { rewrite <- (lxor_cancel key c1), <- (lxor_cancel key c2), Hx.
        reflexivity. }
      subst c2. f_equal. eapply IH; [exact E1|]. exact E2.
Qed.

(** X1. On a str (code points are not negative) [encrypt_tplink] returns
    exactly when the command has at most 255 characters and every one of
    them is below 256; in every other case it raises. *)
Theorem encrypt_tplink_returns_iff :
  forall data : pystr,
    Forall (fun c => 0 <= c) data ->
    ((exists out, encrypt_tplink data = Ret out) <->
     (length data <= 255)%nat /\ Forall (fun c => c < 256) data).
Proof.
  intros data Hpos. split.
  - intros [out E]. unfold encrypt_tplink, bytearray in E.
    destruct (forallb byte_ok [0; 0; 0; Z.of_nat (length data)]) eqn:Hh;
      [|discriminate E].
    simpl in E. split.
    + simpl in Hh. rewrite andb_true_r in Hh. apply byte_ok_true in Hh. lia.
    + eapply encrypt_loop_small; [|exact Hpos|exact E]. lia.
  - intros [Hlen Hsmall]. unfold encrypt_tplink, bytearray.
    assert (Hh : forallb byte_ok [0; 0; 0; Z.of_nat (length data)] = true).
    { simpl. rewrite andb_true_r. apply byte_ok_true. lia. }
    rewrite Hh. simpl.
    assert (Hchars : Forall (fun c => 0 <= c < 256) data).
    { rewrite Forall_forall in *. intros c Hin.
      split; [apply Hpos|apply Hsmall]; exact Hin. }
    destruct (encrypt_loop_spec data Hchars 171 [0; 0; 0; Z.of_nat (length data)])
      as (tail & E & _); [lia|].
    eexists. exact E.
Qed.

Lemma encrypt_tplink_returns_iff_witness :
  ((exists out, encrypt_tplink [104; 105; 8364] = Ret out) <->
   (length [104; 105; 8364] <= 255)%nat /\
   Forall (fun c => c < 256) [104; 105; 8364]).
Proof.
  apply (encrypt_tplink_returns_iff [104; 105; 8364]).
  repeat constructor; lia.
Defined.

(** X2. The encoding loses nothing: two commands with the same
    encrypted bytes are the same command. *)
Theorem encrypt_tplink_injective :
  forall (d1 d2 : pystr) (out : list Z),
    encrypt_tplink d1 = Ret out ->
    encrypt_tplink d2 = Ret out ->
    d1 = d2.
Proof.
  intros d1 d2 out E1 E2. unfold encrypt_tplink, bytearray in E1, E2.
  destruct (forallb byte_ok [0; 0; 0; Z.of_nat (length d1)]); [|discriminate E1].
  destruct (forallb byte_ok [0; 0; 0; Z.of_nat (length d2)]); [|discriminate E2].
  simpl in E1, E2.
  destruct (encrypt_loop_shape _ _ _ _ E1) as (t1 & H1 & L1).
  destruct (encrypt_loop_shape _ _ _ _ E2) as (t2 & H2 & L2).
  rewrite H1 in H2. simpl in H2. inversion H2 as [[Hn Ht]].
  apply Nat2Z.inj in Hn. rewrite <- Hn in E2.
  eapply encrypt_loop_injective; eassumption.
Qed.

Lemma encrypt_tplink_injective_witness :
  ords tplink_command = ords tplink_command.
Proof.
  apply (encrypt_tplink_injective (ords tplink_command) (ords tplink_command)
           [0; 0; 0; 42; 208; 242; 129; 248; 139; 255; 154; 247; 213; 239; 148;
            182; 197; 160; 212; 139; 249; 156; 240; 145; 232; 183; 196; 176;
            209; 165; 192; 226; 216; 163; 129; 242; 134; 231; 147; 246; 212;
            238; 222; 163; 222; 163]); reflexivity.
Defined.

End EncryptMore.

(** ** dev002.py: device types and their controls                         *)

Ltac sock_step net :=
  match goal with
  | |- context [net_sock net ?c ?s] =>
      let r := fresh "r" in
      let e := fresh "e" in
      let s' := fresh "s" in
      destruct (net_sock net c s) as [[r|e] s'];
      cbn [net_state transcript fst snd]
  end.

Ltac http_step net :=
  match goal with
  | |- context [net_http net ?q ?s] =>
      let r := fresh "r" in
      let e := fresh "e" in
      let s' := fresh "s" in
      destruct (net_http net q s) as [[r|e] s'];
      cbn [net_state transcript fst snd]
  end.

Section DeviceTypes.
Import SmartHome.
Local Open Scope string_scope.

Lemma identify_loop_sound items port t :
  identify_loop items port = Some t -> In (t, port) items.
Proof.
  induction items as [|[t' p'] rest IH]; simpl; [discriminate|].
  destruct (port =? p')%Z eqn:E.
  - intros H. inversion H; subst. apply Z.eqb_eq in E. subst. left. reflexivity.
  - intros H. right. apply IH. exact H.
Qed.

Lemma identify_loop_none items port :
  identify_loop items port = None <-> ~ In port (map snd items).
Proof.
  induction items as [|[t' p'] rest IH]; simpl.
  - split; auto.
  - destruct (port =? p')%Z eqn:E.
    + apply Z.eqb_eq in E. subst. split; [discriminate|].
      intros H. exfalso. apply H. left. reflexivity.
    + apply Z.eqb_neq in E. rewrite IH. split.
      * intros H [H1|H1]; [congruence|contradiction].
      * intros H H1. apply H. right. exact H1.
Qed.

Lemma identify_loop_complete items port t :
  NoDup (map snd items) -> In (t, port) items ->
  identify_loop items port = Some t.
Proof.
  induction items as [|[t' p'] rest IH]; simpl; intros ND Hin; [contradiction|].
  inversion ND as [|? ? Hn ND']; subst.
  destruct Hin as [E|Hin].
  - inversion E; subst. rewrite Z.eqb_refl. reflexivity.
  - destruct (port =? p')%Z eqn:E.
    + apply Z.eqb_eq in E. subst. exfalso. apply Hn.
      apply in_map_iff. exists (t, p'). auto.
    + apply IH; assumption.
Qed.

Lemma init_ports_distinct : NoDup (map snd (common_ports init)).
Proof.
  repeat constructor; simpl; intros H;
    repeat (destruct H as [H|H]; [discriminate H|]); exact H.
Qed.

(** X3. [identify_device_by_port] is the reverse lookup of
    [common_ports]: the type it returns is registered with that port, it
    returns [None] exactly for the ports no type is registered with, and
    when the registered ports are distinct (as in the built-in table)
    every registered type is found back from its port. *)
Theorem identify_device_by_port_lookup :
  forall (self : SmartHomeLightController) (port : Z),
    (forall t, identify_device_by_port self port = Some t ->
               In (t, port) (common_ports self)) /\
    (identify_device_by_port self port = None <->
     ~ In port (map snd (common_ports self))) /\
    (NoDup (map snd (common_ports self)) ->
     forall t, In (t, port) (common_ports self) ->
               identify_device_by_port self port = Some t).
Proof.
  intros self port. unfold identify_device_by_port. split; [|split].
  - intros t. apply identify_loop_sound.
  - apply identify_loop_none.
  - intros ND t. apply identify_loop_complete. exact ND.
Qed.

Lemma identify_device_by_port_lookup_witness :
  NoDup (map snd (common_ports init)) /\
  identify_device_by_port init 55443 = Some "yeelight".
Proof.
  split; [exact init_ports_distinct|].
  apply (proj2 (proj2 (identify_device_by_port_lookup init 55443))
           init_ports_distinct "yeelight").
  simpl. do 5 right. left. reflexivity.
Defined.

Context {S : Type} (net : network S).

Lemma control_philips_hue_returns ip : no_raise (control_philips_hue net ip).
Proof. unfold control_philips_hue. auto with total. Qed.

Lemma control_tplink_returns ip : no_raise (control_tplink net ip).
Proof. unfold control_tplink. auto with total. Qed.

Lemma control_yeelight_returns ip : no_raise (control_yeelight net ip).
Proof. unfold control_yeelight. auto with total. Qed.

Lemma control_wiz_returns ip : no_raise (control_wiz net ip).
Proof. unfold control_wiz. auto with total. Qed.

Lemma try_turn_off_lights_returns d : no_raise (try_turn_off_lights net d).
Proof.
  unfold try_turn_off_lights. cbv zeta.
  apply no_raise_try_except_Exception; [|auto with total].
  apply no_raise_only_Exception.
  repeat match goal with
         | |- no_raise (if ?c then _ else _) => destruct c
         end.
  - apply control_philips_hue_returns.
  - apply control_tplink_returns.
  - apply control_yeelight_returns.
  - apply control_wiz_returns.
  - apply no_raise_ret.
  - apply no_raise_ret.
Qed.

End DeviceTypes.

Section DeviceControl.
Import SmartHome Stubs.
Local Open Scope string_scope.

(** X4. [try_turn_off_lights] never raises, and it only knows four
    device types: for any other type, and so for the LIFX, Tuya and Home
    Assistant devices that [identify_device_by_port] recognises by their
    ports, it returns [False] without sending anything. *)
Theorem try_turn_off_lights_unsupported :
  (forall (S : Type) (net : network S) (d : device) (w : world S),
      exists b w', try_turn_off_lights net d w = (Ret b, w')) /\
  (forall (S : Type) (net : network S) (d : device) (w : world S),
      ~ In (device_type d) ["philips_hue"; "tplink"; "yeelight"; "wiz"] ->
      try_turn_off_lights net d w = (Ret false, w)) /\
  (forall (S : Type) (net : network S) (ip : string) (port : Z) (t : string)
          (w : world S),
      In port [56700; 6668; 8123]%Z ->
      identify_device_by_port init port = Some t ->
      try_turn_off_lights net (mkDevice ip port t) w = (Ret false, w)).
Proof.
  assert (U : forall (S : Type) (net : network S) (d : device) (w : world S),
      ~ In (device_type d) ["philips_hue"; "tplink"; "yeelight"; "wiz"] ->
      try_turn_off_lights net d w = (Ret false, w)).
  { intros S net d w Hn. unfold try_turn_off_lights. cbv zeta.
    repeat match goal with
           | |- context [String.eqb (device_type d) ?x] =>
               destruct (String.eqb (device_type d) x) eqn:?
           end;
      try reflexivity;
      match goal with
      | H : String.eqb _ _ = true |- _ =>
          apply String.eqb_eq in H; exfalso; apply Hn; rewrite H; simpl; tauto
      end. }
  split; [|split].
  - intros S net d w. apply try_turn_off_lights_returns.
  - exact U.
  - intros S net ip port t w Hp Hid. apply U. simpl.
    destruct Hp as [<-|[<-|[<-|[]]]]; vm_compute in Hid; inversion Hid; subst;
      intros [H|[H|[H|[H|[]]]]]; discriminate H.
Qed.

Lemma try_turn_off_lights_unsupported_witness :
  try_turn_off_lights all_ok (mkDevice "192.168.1.7" 56700 "lifx") (start tt)
  = (Ret false, start tt).
Proof.
  apply (proj2 (proj2 try_turn_off_lights_unsupported) unit all_ok
           "192.168.1.7" 56700%Z "lifx" (start tt)).
  - simpl. auto.
  - reflexivity.
Defined.




End DeviceControl.

(** ** dev001.py: zone entries                                            *)

Section ZoneEntries.
Import BMS Stubs.
Local Open Scope string_scope.

Lemma dict_get_present entries key d d' :
  In key (map fst entries) -> dict_get entries key d = dict_get entries key d'.
Proof.
  induction entries as [|[k v] rest IH]; simpl; [contradiction|].
  destruct (String.eqb k key) eqn:E; [reflexivity|].
  intros [H|H]; [|apply IH; exact H].
  apply String.eqb_neq in E. contradiction.
Qed.

Lemma dict_get_absent entries key d :
  ~ In key (map fst entries) -> dict_get entries key d = d.
Proof.
  induction entries as [|[k v] rest IH]; simpl; [reflexivity|].
  intros H. destruct (String.eqb k key) eqn:E.
  - apply String.eqb_eq in E. exfalso. apply H. left. exact E.
  - apply IH. intros H1. apply H. right. exact H1.
Qed.

Lemma zone_id_of_not_dict v :
  is_dict v = false -> zone_id_of v = Raise AttributeError.
Proof. intros Hv. destruct v; try reflexivity. discriminate Hv. Qed.

(** X6. The id of a zone is the value under ['id'] when the zone has
    that key, else the value under ['zoneId'], else the value under
    ['name'], and [None] when it has none of the three; asking a zone
    entry that is not a dict raises [AttributeError]. *)
Theorem zone_id_of_priority :
  forall entries : list (string * pyval),
    let keys := map fst entries in
    (In "id" keys ->
     zone_id_of (PDict entries) = Ret (dict_get entries "id" PNone)) /\
    (~ In "id" keys -> In "zoneId" keys ->
     zone_id_of (PDict entries) = Ret (dict_get entries "zoneId" PNone)) /\
    (~ In "id" keys -> ~ In "zoneId" keys -> In "name" keys ->
     zone_id_of (PDict entries) = Ret (dict_get entries "name" PNone)) /\
    (~ In "id" keys -> ~ In "zoneId" keys -> ~ In "name" keys ->
     zone_id_of (PDict entries) = Ret PNone) /\
    (forall v, is_dict v = false -> zone_id_of v = Raise AttributeError).
Proof.
  intros entries keys. unfold zone_id_of. simpl.
  split; [|split; [|split; [|split]]].
  - intros H. f_equal. apply dict_get_present. exact H.
  - intros H1 H2. rewrite (dict_get_absent entries "id") by exact H1.
    f_equal. apply dict_get_present. exact H2.
  - intros H1 H2 H3. rewrite (dict_get_absent entries "id") by exact H1.
    rewrite (dict_get_absent entries "zoneId") by exact H2. reflexivity.
  - intros H1 H2 H3. rewrite (dict_get_absent entries "id") by exact H1.
    rewrite (dict_get_absent entries "zoneId") by exact H2.
    rewrite (dict_get_absent entries "name") by exact H3. reflexivity.
  - apply zone_id_of_not_dict.
Qed.

Lemma zone_id_of_priority_witness :
  zone_id_of (PDict [("name", PStr "hall"); ("zoneId", PInt 4)]) = Ret (PInt 4) /\
  zone_id_of (PDict [("floor", PInt 2)]) = Ret PNone.
Proof.
  split.
  - apply (proj1 (proj2 (zone_id_of_priority
                           [("name", PStr "hall"); ("zoneId", PInt 4)]))).
    + simpl. intros [H|[H|[]]]; discriminate H.
    + simpl. auto.
  - apply (proj1 (proj2 (proj2 (proj2 (zone_id_of_priority [("floor", PInt 2)])))));
      simpl; intros [H|[]]; discriminate H.
Defined.

Lemma zone_loop_stops_at_malformed {S : Type} (net : network S) self zones :
  Exists (fun z => is_dict z = false) zones ->
  forall success_count per_zone (w : world S),
  exists w',
    zone_loop net self zones success_count per_zone w = (Raise AttributeError, w').
Proof.
  induction zones as [|z rest IH]; intros Hex n per w.
  - inversion Hex.
  - simpl. destruct (is_dict z) eqn:D.
    + assert (Hrest : Exists (fun z => is_dict z = false) rest).
      { inversion Hex; subst; [congruence|assumption]. }
      destruct z; try discriminate D. unfold bind at 1, lift at 1. simpl.
      set (zone_id := dict_get entries "id" _).
      destruct (turn_off_zone_returns net self zone_id w) as (ok & w1 & E).
      unfold bind at 1. rewrite E. destruct ok.
      * unfold bind at 1, sleep at 1. apply IH. exact Hrest.
      * apply IH. exact Hrest.
    + exists w. unfold bind, lift.
      rewrite (zone_id_of_not_dict z D). reflexivity.
Qed.

(** X7. One malformed entry spoils the whole zone-by-zone run: when the
    zone listing is a list with an entry that is not a JSON object, the
    operation reports failure, even if zones listed before that entry
    were switched off.  When the listing is a JSON object instead of a
    list, it reports failure without sending any off-command. *)
Theorem zone_by_zone_fails_on_malformed_listing :
  (forall (S : Type) (net : network S) (self : BMSLightController)
          (zones : list pyval) (w0 w : world S),
      get_lighting_zones net self w0 = (Ret (PList zones), w) ->
      Exists (fun z => is_dict z = false) zones ->
      fst (_turn_off_zone_by_zone net self w0) = Ret false)
  /\
  (forall (S : Type) (net : network S) (self : BMSLightController)
          (entries : list (string * pyval)) (w0 w : world S),
      get_lighting_zones net self w0 = (Ret (PDict entries), w) ->
      _turn_off_zone_by_zone net self w0 = (Ret false, w)).
Proof.
  split.
  - intros S net self zones w0 w G Hex.
    unfold _turn_off_zone_by_zone, try_except_Exception.
    unfold bind at 1. rewrite G. unfold turn_off_zones.
    destruct zones as [|z zs]; [inversion Hex|].
    cbn [truthy negb py_iter]. unfold bind at 1, lift at 1.
    destruct (zone_loop_stops_at_malformed net self (z :: zs) Hex 0 [] w)
      as (w' & L).
    unfold bind. rewrite L. reflexivity.
  - intros S net self entries w0 w G.
    unfold _turn_off_zone_by_zone, try_except_Exception.
    unfold bind at 1. rewrite G. unfold turn_off_zones.
    destruct entries as [|[k v] rest]; [reflexivity|].
    cbn [truthy negb py_iter map fst]. unfold bind, lift. simpl. reflexivity.
Qed.

Lemma zone_by_zone_fails_on_malformed_listing_witness :
  In (Command (PInt 1))
     (map step_of (transcript (snd (_turn_off_zone_by_zone mixed_zones bms (start tt)))))
  /\ fst (_turn_off_zone_by_zone mixed_zones bms (start tt)) = Ret false.
Proof.
  split; [vm_compute; auto|].
  apply (proj1 zone_by_zone_fails_on_malformed_listing unit mixed_zones bms
           [zone 1; PStr "lobby"] (start tt)
           (snd (get_lighting_zones mixed_zones bms (start tt)))).
  - vm_compute. reflexivity.
  - right. left. reflexivity.
Defined.

End ZoneEntries.

(** ** What a computation may add to the transcript                       *)

Section OnlyEmits.
Context {S : Type} (P : event -> Prop).
Implicit Types w : world S.

Lemma only_emits_ret {A} (a : A) : only_emits (S:=S) P (ret a).
Proof. intros w. exists []. rewrite app_nil_r. split; [reflexivity|constructor]. Qed.

Lemma only_emits_lift {A} (r : result A) : only_emits (S:=S) P (lift r).
Proof. intros w. exists []. rewrite app_nil_r. split; [reflexivity|constructor]. Qed.

Lemma only_emits_bind {A B} (m : M (S:=S) A) (k : A -> M B) :
  only_emits P m -> (forall a, only_emits P (k a)) -> only_emits P (bind m k).
Proof.
  intros Hm Hk w. unfold bind. destruct (Hm w) as (evs1 & T1 & P1).
  destruct (m w) as [[a|e] w1]; simpl in T1.
  - destruct (Hk a w1) as (evs2 & T2 & P2). exists (evs1 ++ evs2).
    rewrite T2, T1, app_assoc. split; [reflexivity|]. apply Forall_app. auto.
  - exists evs1. auto.
Qed.

Lemma only_emits_try_except {A} (body : M (S:=S) A) handler :
  only_emits P body -> (forall e, only_emits P (handler e)) ->
  only_emits P (try_except body handler).
Proof.
  intros Hb Hh w. unfold try_except. destruct (Hb w) as (evs1 & T1 & P1).
  destruct (body w) as [[a|e] w1]; simpl in T1.
  - exists evs1. auto.
  - destruct (Hh e w1) as (evs2 & T2 & P2). exists (evs1 ++ evs2).
    rewrite T2, T1, app_assoc. split; [reflexivity|]. apply Forall_app. auto.
Qed.

Lemma only_emits_try_except_Exception {A} (body : M (S:=S) A) handler :
  only_emits P body -> (forall e, only_emits P (handler e)) ->
  only_emits P (try_except_Exception body handler).
Proof.
  intros Hb Hh w. unfold try_except_Exception. destruct (Hb w) as (evs1 & T1 & P1).
  destruct (body w) as [[a|e] w1]; simpl in T1.
  - exists evs1. auto.
  - destruct (is_Exception e); [|exists evs1; auto].
    destruct (Hh e w1) as (evs2 & T2 & P2). exists (evs1 ++ evs2).
    rewrite T2, T1, app_assoc. split; [reflexivity|]. apply Forall_app. auto.
Qed.

Lemma only_emits_for_return {A R} (xs : list A) (body : A -> M (S:=S) (option R)) :
  (forall x, In x xs -> only_emits P (body x)) -> only_emits P (for_return xs body).
Proof.
  induction xs as [|x rest IH]; simpl; intros Hb.
  - apply only_emits_ret.
  - apply only_emits_bind; [apply Hb; left; reflexivity|].
    intros [v|]; [apply only_emits_ret|]. apply IH. intros y Hy. apply Hb. right. exact Hy.
Qed.

Lemma only_emits_or_return {R} (loop : M (S:=S) (option R)) after :
  only_emits P loop -> only_emits P after -> only_emits P (or_return loop after).
Proof.
  intros Hl Ha. unfold or_return. apply only_emits_bind; [exact Hl|].
  intros [v|]; [apply only_emits_ret|exact Ha].
Qed.

Lemma only_emits_http (net : network S) r :
  (forall reply, P (EvHttp r reply)) -> only_emits P (http net r).
Proof.
  intros Hr w. unfold http. destruct (net_http net r (net_state w)) as [reply s'].
  exists [EvHttp r reply]. split; [reflexivity|]. constructor; auto.
Qed.

Lemma only_emits_sock (net : network S) c :
  (forall reply, P (EvSock c reply)) -> only_emits P (sock net c).
Proof.
  intros Hc w. unfold sock. destruct (net_sock net c (net_state w)) as [reply s'].
  exists [EvSock c reply]. split; [reflexivity|]. constructor; auto.
Qed.

Lemma only_emits_sock_local c :
  P (EvSock c (Ret 0)) -> only_emits (S:=S) P (sock_local c).
Proof.
  intros Hc w. exists [EvSock c (Ret 0)]. split; [reflexivity|]. constructor; auto.
Qed.

Lemma only_emits_sleep ms : P (EvSleep ms) -> only_emits (S:=S) P (sleep ms).
Proof.
  intros Hc w. exists [EvSleep ms]. split; [reflexivity|]. constructor; auto.
Qed.

Lemma only_emits_run_chain (methods : list (strategy S)) :
  (forall m, In m methods -> only_emits P (execute m)) ->
  forall attempts, only_emits P (run_chain methods attempts).
Proof.
  induction methods as [|m rest IH]; intros Hm attempts; simpl.
  - apply only_emits_ret.
  - apply only_emits_bind.
    + unfold attempt_once. apply only_emits_try_except_Exception.
      * apply only_emits_bind; [apply Hm; left; reflexivity|].
        intros b. apply only_emits_ret.
      * intros e. apply only_emits_ret.
    + intros v. destruct v; try apply only_emits_ret;
        apply IH; intros m' Hin; apply Hm; right; exact Hin.
Qed.

Lemma only_emits_run_chain_plain (methods : list (strategy S)) :
  (forall m, In m methods -> only_emits P (execute m)) ->
  forall attempts, only_emits P (run_chain_plain methods attempts).
Proof.
  induction methods as [|m rest IH]; intros Hm attempts; simpl.
  - apply only_emits_ret.
  - apply only_emits_bind; [apply Hm; left; reflexivity|].
    intros [|]; [apply only_emits_ret|].
    apply IH. intros m' Hin. apply Hm. right. exact Hin.
Qed.

End OnlyEmits.

Ltac emits_step :=
  first
    [ apply only_emits_ret | apply only_emits_lift
    | apply only_emits_bind | apply only_emits_try_except_Exception
    | apply only_emits_try_except
    | apply only_emits_or_return
    | match goal with
      | |- forall _, _ => intro
      | |- only_emits _ (if ?c then _ else _) => destruct c
      | |- only_emits _ (match ?x with _ => _ end) => destruct x
      end ].

Section BMSReach.
Import BMS Stubs.
Context {S : Type} (net : network S) (self : BMSLightController).

Lemma session_get_to_controller endpoint t :
  only_emits (to_controller self) (session_get net self endpoint t).
Proof.
  unfold session_get. apply only_emits_http. intros reply. simpl. auto.
Qed.

Lemma session_post_to_controller endpoint b hdrs t :
  only_emits (to_controller self) (session_post net self endpoint b hdrs t).
Proof.
  unfold session_post. apply only_emits_http. intros reply. simpl. auto.
Qed.

Lemma turn_off_zone_to_controller zone_id :
  only_emits (to_controller self) (turn_off_zone net self zone_id).
Proof.
  unfold turn_off_zone. cbv zeta.
  apply only_emits_or_return; [|apply only_emits_ret].
  apply only_emits_for_return. intros endpoint _.
  apply only_emits_try_except; [|intros e; apply only_emits_ret].
  apply only_emits_bind; [apply session_post_to_controller|].
  repeat emits_step.
Qed.

Lemma get_lighting_zones_to_controller :
  only_emits (to_controller self) (get_lighting_zones net self).
Proof.
  unfold get_lighting_zones.
  apply only_emits_try_except_Exception; [|intros e; apply only_emits_ret].
  apply only_emits_or_return; [|apply only_emits_ret].
  apply only_emits_for_return. intros endpoint _.
  apply only_emits_try_except; [|intros e; apply only_emits_ret].
  apply only_emits_bind; [apply session_get_to_controller|].
  repeat emits_step.
Qed.

Lemma zone_loop_to_controller zones :
  forall success_count per_zone,
    only_emits (to_controller self) (zone_loop net self zones success_count per_zone).
Proof.
  induction zones as [|z rest IH]; intros n per; simpl.
  - apply only_emits_ret.
  - apply only_emits_bind; [apply only_emits_lift|]. intros zone_id.
    apply only_emits_bind; [apply turn_off_zone_to_controller|]. intros [|].
    + apply only_emits_bind; [|intros _; apply IH].
      apply only_emits_sleep. reflexivity.
    + apply IH.
Qed.

Lemma methods_to_controller m :
  In m (methods net self) -> only_emits (to_controller self) (execute m).
Proof.
  simpl. intros [<-|[<-|[<-|[<-|[<-|[]]]]]]; simpl.
  - unfold _turn_off_via_rest. cbv zeta.
    apply only_emits_or_return; [|apply only_emits_ret].
    apply only_emits_for_return. intros [endpoint method] _.
    apply only_emits_try_except; [|intros e; apply only_emits_ret].
    apply only_emits_bind.
    + destruct (String.eqb method "POST");
        [apply session_post_to_controller|apply session_get_to_controller].
    + repeat emits_step.
  - unfold _turn_off_via_soap. cbv zeta.
    apply only_emits_try_except; [|intros e; apply only_emits_ret].
    apply only_emits_bind; [apply session_post_to_controller|].
    repeat emits_step.
  - unfold _turn_off_via_simple_http. cbv zeta.
    apply only_emits_or_return; [|apply only_emits_ret].
    apply only_emits_for_return. intros command _.
    apply only_emits_try_except; [|intros e; apply only_emits_ret].
    apply only_emits_bind; [apply session_get_to_controller|].
    repeat emits_step.
  - unfold _turn_off_via_bacnet_simulation. cbv zeta.
    apply only_emits_try_except; [|intros e; apply only_emits_ret].
    apply only_emits_bind; [apply session_post_to_controller|].
    repeat emits_step.
  - unfold _turn_off_zone_by_zone, turn_off_zones.
    apply only_emits_try_except_Exception; [|intros e; apply only_emits_ret].
    apply only_emits_bind; [apply get_lighting_zones_to_controller|].
    intros zones. apply only_emits_bind; [|intros r; apply only_emits_ret].
    destruct (negb (truthy zones)); [apply only_emits_ret|].
    apply only_emits_bind; [apply only_emits_lift|]. intros items.
    apply only_emits_bind; [apply zone_loop_to_controller|].
    intros r. apply only_emits_ret.
Qed.

End BMSReach.

Section BMSReachClaim.
Import BMS.

(** X8. Whatever the controller answers, every [session.get] and
    [session.post] call that [turn_off_all_lights] makes is passed a URL
    that starts with the configured [base_url], and is made with the
    session credentials and [verify=False]; apart from these calls it
    only sleeps half a second at a time, and it makes no socket call.
    (The property is about the calls of the script; where the library
    goes by itself after a redirecting answer is not covered.) *)
Theorem turn_off_all_lights_stays_on_controller :
  forall (S : Type) (net : network S) (self : BMSLightController) (w : world S),
  exists evs,
    transcript (snd (turn_off_all_lights net self w)) = (transcript w ++ evs)%list /\
    Forall (to_controller self) evs.
Proof.
  intros S net self. change (only_emits (to_controller self) (turn_off_all_lights net self)).
  unfold turn_off_all_lights, dispatch.
  apply only_emits_bind; [|intros r; apply only_emits_ret].
  apply only_emits_run_chain. apply methods_to_controller.
Qed.

End BMSReachClaim.

(** ** Sockets: who closes what                                           *)

Section SocketCare.
Import BMS Building Stubs.
Local Open Scope string_scope.

Lemma opens_app evs evs' : opens (evs ++ evs') = opens evs + opens evs'.
Proof. unfold opens. rewrite filter_app, length_app. lia. Qed.

Lemma closes_app evs evs' : closes (evs ++ evs') = closes evs + closes evs'.
Proof. unfold closes. rewrite filter_app, length_app. lia. Qed.

(** One pass over a port: a socket of its own, closed again on every
    path; the pass returns the name exactly when [connect_ex] gave 0. *)
Lemma try_port_spec {S : Type} (net : network S) self name port (w : world S) :
  exists r s' evs,
    try_port net self name port w =
      (Ret r, mkWorld s' (transcript w ++ evs)%list) /\
    opens evs = closes evs /\
    (r = Some (Some name) <->
     exists p, In (EvSock (ConnectEx (controller_ip self) p) (Ret 0)) evs) /\
    (r = None \/ r = Some (Some name)).
Proof.
  destruct w as [s t]. unfold try_port, with_socket. run_io. unfold sock.
  cbn [net_state transcript].
  destruct (net_sock net (Socket SOCK_STREAM) s) as [[fd|e] s1];
    cbn [net_state transcript fst snd].
  - destruct (net_sock net (ConnectEx (controller_ip self) port) s1)
      as [[code|e] s2]; cbn [net_state transcript fst snd].
    + destruct (code =? 0)%Z eqn:Hc; cbn [net_state transcript fst snd].
      * apply Z.eqb_eq in Hc. subst code.
        eexists _, _, _. split; [rewrite <- !app_assoc; reflexivity|].
        split; [reflexivity|]. split; [|auto].
        split; [intros _; exists port; simpl; auto|reflexivity].
      * eexists _, _, _. split; [rewrite <- !app_assoc; reflexivity|].
        split; [reflexivity|]. split; [|auto].
        split; [discriminate|]. intros (p & Hin). simpl in Hin.
        destruct Hin as [H|[H|[H|[H|[]]]]]; try discriminate H.
        inversion H; subst. discriminate Hc.
    + eexists _, _, _. split; [rewrite <- !app_assoc; reflexivity|].
      split; [reflexivity|]. split; [|auto].
      split; [discriminate|]. intros (p & Hin). simpl in Hin.
      destruct Hin as [H|[H|[H|[H|[]]]]]; discriminate H.
  - eexists _, _, _. split; [reflexivity|].
    split; [reflexivity|]. split; [|auto].
    split; [discriminate|]. intros (p & Hin). simpl in Hin.
    destruct Hin as [H|[]]; discriminate H.
Qed.

Lemma try_ports_spec {S : Type} (net : network S) self name ports :
  forall w : world S,
  exists r s' evs,
    for_return ports (try_port net self name) w =
      (Ret r, mkWorld s' (transcript w ++ evs)%list) /\
    opens evs = closes evs /\
    (r = Some (Some name) <->
     exists p, In (EvSock (ConnectEx (controller_ip self) p) (Ret 0)) evs) /\
    (r = None \/ r = Some (Some name)).
Proof.
  induction ports as [|port rest IH]; intros w.
  - exists None, (net_state w), []. destruct w as [s t]. simpl.
    rewrite app_nil_r. split; [reflexivity|]. split; [reflexivity|].
    split; [|auto]. split; [discriminate|]. intros (p & []).
  - cbn [for_return]. unfold bind at 1.
    destruct (try_port_spec net self name port w) as (r1 & s1 & evs1 & E1 & B1 & I1 & C1).
    rewrite E1. destruct C1 as [-> | ->].
    + destruct (IH (mkWorld s1 (transcript w ++ evs1)%list))
        as (r & s' & evs2 & E2 & B2 & I2 & C2).
      exists r, s', (evs1 ++ evs2)%list. rewrite E2. cbn [transcript].
      rewrite <- app_assoc. split; [reflexivity|].
      split; [rewrite opens_app, closes_app; lia|]. split; [|exact C2].
      rewrite I2. split.
      * intros (p & Hin). exists p. apply in_or_app. right. exact Hin.
      * intros (p & Hin). apply in_app_or in Hin. destruct Hin as [Hin|Hin].
        -- assert (X : @None (option string) = Some (Some name)).
           { apply I1. exists p. exact Hin. }
           discriminate X.
        -- exists p. exact Hin.
    + exists (Some (Some name)), s1, evs1. split; [reflexivity|].
      split; [exact B1|]. split; [exact I1|auto].
Qed.

Lemma port_probe_spec {S : Type} (net : network S) self name ports (w : world S) :
  exists r s' evs,
    or_return (for_return ports (try_port net self name)) (ret None) w =
      (Ret r, mkWorld s' (transcript w ++ evs)%list) /\
    opens evs = closes evs /\
    (r = Some name <->
     exists p, In (EvSock (ConnectEx (controller_ip self) p) (Ret 0)) evs) /\
    (r = None \/ r = Some name).
Proof.
  destruct (try_ports_spec net self name ports w) as (r & s' & evs & E & B & I & C).
  unfold or_return, bind. rewrite E. destruct C as [-> | ->].
  - exists None, s', evs. split; [reflexivity|]. split; [exact B|].
    split; [|auto]. rewrite <- I. split; discriminate.
  - exists (Some name), s', evs. split; [reflexivity|]. split; [exact B|].
    split; [|auto]. rewrite <- I. split; reflexivity.
Qed.

Lemma single_probe_spec {S : Type} (net : network S) self name port (w : world S) :
  exists r s' evs,
    or_return (try_port net self name port) (ret None) w =
      (Ret r, mkWorld s' (transcript w ++ evs)%list) /\
    opens evs = closes evs /\
    (r = Some name <->
     exists p, In (EvSock (ConnectEx (controller_ip self) p) (Ret 0)) evs) /\
    (r = None \/ r = Some name).
Proof.
  destruct (try_port_spec net self name port w) as (r & s' & evs & E & B & I & C).
  unfold or_return, bind. rewrite E. destruct C as [-> | ->].
  - exists None, s', evs. split; [reflexivity|]. split; [exact B|].
    split; [|auto]. rewrite <- I. split; discriminate.
  - exists (Some name), s', evs. split; [reflexivity|]. split; [exact B|].
    split; [|auto]. rewrite <- I. split; reflexivity.
Qed.

(** X9. The TCP probes of [BMSLightController] ([_try_bacnet],
    [_try_modbus], [_try_knx], [_try_lonworks]) never raise and never
    leave a socket open: each socket they create is closed again, whatever
    happens to the connection.  A probe returns its protocol name exactly
    when one of its [connect_ex] calls returned 0, and [None] otherwise. *)
Theorem bms_probes_close_their_sockets :
  forall (S : Type) (net : network S) (self : BMSLightController) (w : world S),
    let spec (probe : M (option string)) (name : string) :=
      exists r s' evs,
        probe w = (Ret r, mkWorld s' (transcript w ++ evs)%list) /\
        opens evs = closes evs /\
        (r = Some name <->
         exists p, In (EvSock (ConnectEx (controller_ip self) p) (Ret 0)) evs) /\
        (r = None \/ r = Some name) in
    spec (_try_bacnet net self) "BACnet" /\
    spec (_try_modbus net self) "Modbus" /\
    spec (_try_knx net self) "KNX" /\
    spec (_try_lonworks net self) "LonWorks".
Proof.
  intros S net self w spec. unfold spec. split; [|split; [|split]].
  - exact (single_probe_spec net self "BACnet" 47808%Z w).
  - exact (port_probe_spec net self "Modbus" [502; 510; 1502]%Z w).
  - exact (port_probe_spec net self "KNX" [3671; 3672]%Z w).
  - exact (single_probe_spec net self "LonWorks" 1628%Z w).
Qed.

(** X10. [check_controller] of [BuildingLightController] never raises
    either, but it does not always clean up: when [connect_ex] or
    [sendto] raises, the socket just created is left open; on every
    other path each created socket is closed. *)
Theorem check_controller_leaks_on_error :
  forall (S : Type) (net : network S) (ip : string) (port : Z)
         (protocol : string) (w : world S),
  exists b s' evs,
    check_controller net ip port protocol w =
      (Ret b, mkWorld s' (transcript w ++ evs)%list) /\
    (existsb raised_after_open evs = true ->
     b = false /\ opens evs = 1%Z /\ closes evs = 0%Z) /\
    (existsb raised_after_open evs = false -> opens evs = closes evs).
Proof.
  intros S net ip port protocol [s t]. unfold check_controller.
  destruct (existsb (String.eqb protocol) ["TCP"; "HTTP"]);
    [|destruct (String.eqb protocol "UDP")];
    run_io; unfold sock; cbn [net_state transcript].
  - repeat sock_step net;
      (eexists _, _, _; split; [rewrite <- ?app_assoc; reflexivity|];
       split; [simpl; try discriminate; auto|simpl; try discriminate; reflexivity]).
  - repeat sock_step net;
      (eexists _, _, _; split; [rewrite <- ?app_assoc; reflexivity|];
       split; [simpl; try discriminate; auto|simpl; try discriminate; reflexivity]).
  - exists false, s, []. rewrite app_nil_r. split; [reflexivity|].
    split; [discriminate|reflexivity].
Qed.

End SocketCare.

(** ** dev003.py: raw command strategies                                  *)

Ltac eval_fromhex :=
  match goal with
  | |- context [Building.fromhex ?x] =>
      let v := eval vm_compute in (Building.fromhex x) in
      change (Building.fromhex x) with v
  end.

Ltac raw_event :=
  let c := fresh "c" in
  let e := fresh "e" in
  let H := fresh "H" in
  intros c e H; simpl in H;
  repeat (destruct H as [H|H]; [try discriminate H|]);
  try contradiction;
  inversion H; subst;
  match goal with
  | E : is_Exception _ = _ |- _ => rewrite E; reflexivity
  end.

Ltac raw_leaf :=
  eexists _, _, _; split; [rewrite <- ?app_assoc; reflexivity|];
  split; [reflexivity|];
  split; [first [discriminate | intros _; split; reflexivity]|];
  split; [first [raw_event | intros ? ? H; simpl in H; intuition discriminate]|];
  first
    [ split; [simpl; split; congruence|reflexivity]
    | split; [assumption|];
      split; [reflexivity|];
      eexists; simpl; repeat (first [left; reflexivity | right]) ].

Ltac raw_strategy net :=
  eval_fromhex; run_io; unfold sock; cbn [net_state transcript];
  repeat sock_step net;
  repeat match goal with
         | |- context [is_Exception ?e] => destruct (is_Exception e) eqn:?
         end;
  raw_leaf.

Section RawStrategies.
Import Building Stubs.
Local Open Scope string_scope.

(** X11. The raw strategies of [BuildingLightController] (Modbus, KNX,
    BACnet, MQTT) make their socket calls in the order of the source and
    stop at the first call that raises.  When no call raised the result
    is [True], all the calls were made, with the bytes of the hex string
    handed to [send] or [sendto], and the socket was closed once; no
    answer is looked at (Modbus waits for some [recv] to return, the
    others do not even read).  When a call raised an error derived from
    [Exception] the result is [False]; when it raised anything else,
    that very exception goes through to the caller; in both cases the
    socket is not closed.  Nothing is raised unless a socket call
    raised it. *)
Theorem raw_strategies_succeed_on_transport :
  forall (S : Type) (net : network S) (ip : string) (w : world S),
    let spec (strategy : M bool) (calls : list sock_call) :=
      exists o s' evs,
        strategy w = (o, mkWorld s' (transcript w ++ evs)%list) /\
        sock_calls evs = firstn (length evs) calls /\
        (existsb raised evs = false -> o = Ret true /\ sock_calls evs = calls) /\
        (forall c e, In (EvSock c (Raise e)) evs ->
                     o = if is_Exception e then Ret false else Raise e) /\
        match o with
        | Ret b =>
            (b = true <-> existsb raised evs = false) /\
            closes evs = (if b then 1 else 0)%Z
        | Raise e =>
            is_Exception e = false /\ closes evs = 0%Z /\
            exists c, In (EvSock c (Raise e)) evs
        end in
    spec (turn_off_lights_via_modbus net ip)
         [Socket SOCK_STREAM; SetTimeout 5; Connect ip 502;
          Send [0; 1; 0; 0; 0; 6; 1; 5; 0; 0; 255; 0]%Z;
          Recv 1024; Close] /\
    spec (turn_off_lights_via_knx net ip)
         [Socket SOCK_DGRAM; SetTimeout 5;
          SendTo [6; 16; 2; 5; 0; 20; 8; 1; 192; 168; 1; 100; 4; 210;
                  0; 0; 0; 0; 0; 0; 0; 0; 0; 0]%Z ip 3671;
          Close] /\
    spec (turn_off_lights_via_bacnet net ip)
         [Socket SOCK_DGRAM; SetTimeout 5;
          SendTo [129; 11; 0; 12; 1; 32; 255; 255; 0; 255; 16; 8; 12; 2;
                  62; 0; 0; 0; 63]%Z ip 47808;
          Close] /\
    spec (turn_off_lights_via_mqtt net ip)
         [Socket SOCK_STREAM; SetTimeout 5; Connect ip 1883;
          Send [16; 38; 0; 4; 77; 81; 84; 84; 4; 2; 0; 60; 0; 26;
                98; 117; 105; 108; 100; 105; 110; 103; 47;
                108; 105; 103; 104; 116; 105; 110; 103; 47;
                97; 108; 108; 47; 111; 102; 102]%Z;
          Close].
Proof.
  intros S net ip [s t] spec. unfold spec. split; [|split; [|split]].
  - unfold turn_off_lights_via_modbus. raw_strategy net.
  - unfold turn_off_lights_via_knx. raw_strategy net.
  - unfold turn_off_lights_via_bacnet. raw_strategy net.
  - unfold turn_off_lights_via_mqtt. raw_strategy net.
Qed.

End RawStrategies.

(** ** dev003.py: the building-wide routine                               *)

Section CivilNetwork.
Context {S : Type} (net : network S).

Lemma only_Exception_sock c : civil net -> raises_only_Exception (sock net c).
Proof.
  intros [_ Hs] w e w' E. unfold sock in E.
  specialize (Hs c (net_state w) e).
  destruct (net_sock net c (net_state w)) as [reply s']. inversion E; subst.
  apply Hs. reflexivity.
Qed.

Lemma no_raise_sock_local c : no_raise (S:=S) (sock_local c).
Proof. intros w. eexists _, _. reflexivity. Qed.

End CivilNetwork.

Section BuildingWide.
Import Building Stubs.
Local Open Scope string_scope.
Context {S : Type} (net : network S).

Lemma turn_off_lights_via_rest_returns ip :
  no_raise (turn_off_lights_via_rest net ip).
Proof.
  unfold turn_off_lights_via_rest. cbv zeta.
  apply no_raise_or_return; [|apply no_raise_ret].
  apply no_raise_try_except_Exception; [|intros e; apply no_raise_ret].
  apply no_raise_only_Exception. apply no_raise_bind.
  - apply no_raise_for_return. intros endpoint. auto with total.
  - intros [b|]; [apply no_raise_ret|].
    apply no_raise_for_return. intros endpoint. auto with total.
Qed.

Lemma turn_off_lights_via_modbus_returns ip :
  civil net -> no_raise (turn_off_lights_via_modbus net ip).
Proof.
  intros Hc. unfold turn_off_lights_via_modbus. eval_fromhex.
  apply no_raise_try_except_Exception; [|intros e; apply no_raise_ret].
  repeat first
    [ apply only_Exception_bind
    | apply (only_Exception_sock net _ Hc)
    | apply no_raise_only_Exception;
      first [apply no_raise_ret | apply no_raise_sock_local]
    | apply only_Exception_lift; intros e H; discriminate H
    | intro ].
Qed.

Hypothesis Hsocket : forall s, exists fd s',
  net_sock net (Socket SOCK_DGRAM) s = (Ret fd, s').
Hypothesis Hsendto : forall data host port s, exists sent s',
  net_sock net (SendTo data host port) s = (Ret sent, s').

Lemma turn_off_lights_via_knx_succeeds ip (w : world S) :
  exists w', turn_off_lights_via_knx net ip w = (Ret true, w').
Proof.
  unfold turn_off_lights_via_knx. eval_fromhex. run_io. unfold sock.
  cbn [net_state transcript].
  destruct (Hsocket (net_state w)) as (fd & s1 & E1). rewrite E1.
  cbn [net_state transcript].
  match goal with
  | |- context [net_sock net (SendTo ?d ?h ?p) s1] =>
      destruct (Hsendto d h p s1) as (sent & s2 & E2); rewrite E2
  end.
  eexists. reflexivity.
Qed.

Lemma check_controller_udp_succeeds ip port (w : world S) :
  exists w', check_controller net ip port "UDP" w = (Ret true, w').
Proof.
  unfold check_controller. cbn [existsb String.eqb Ascii.eqb Bool.eqb orb].
  run_io. unfold sock. cbn [net_state transcript].
  destruct (Hsocket (net_state w)) as (fd & s1 & E1). rewrite E1.
  cbn [net_state transcript].
  destruct (Hsendto [0%Z] ip port s1) as (sent & s2 & E2). rewrite E2.
  eexists. reflexivity.
Qed.

End BuildingWide.

Section Discovered.
Import Building Stubs.
Local Open Scope string_scope.
Context {S : Type} (net : network S).

Lemma probe_protocols_appends ip items :
  forall found (w : world S),
  exists more w',
    probe_protocols net ip items found w = (Ret (found ++ more)%list, w').
Proof.
  induction items as [|[name info] rest IH]; intros found w; simpl.
  - exists [], w. rewrite app_nil_r. reflexivity.
  - destruct (check_controller_returns net ip (info_port info) (info_protocol info) w)
      as (ok & w1 & E).
    unfold bind at 1. rewrite E. destruct ok.
    + destruct (IH (found ++ [mkFound ip (info_port info) name (info_protocol info)])%list w1)
        as (more & w' & R).
      eexists _, w'. rewrite R, <- app_assoc. reflexivity.
    + apply IH.
Qed.

Lemma probe_controllers_appends items controllers :
  forall found (w : world S),
  exists more w',
    probe_controllers net controllers items found w = (Ret (found ++ more)%list, w').
Proof.
  induction controllers as [|ip rest IH]; intros found w; simpl.
  - exists [], w. rewrite app_nil_r. reflexivity.
  - destruct (probe_protocols_appends ip items found w) as (m1 & w1 & E).
    unfold bind at 1. rewrite E.
    destruct (IH (found ++ m1)%list w1) as (m2 & w' & R).
    exists (m1 ++ m2)%list, w'. rewrite R, <- app_assoc. reflexivity.
Qed.

End Discovered.

Section BuildingWideClaims.
Import Building Stubs.
Local Open Scope string_scope.

(** X12. For a protocol name that [emergency_light_off] does not know
    (such as the [dali] and [opcua] entries of the catalog) the fallback
    ends with the KNX datagram: on a network that fails with ordinary
    errors only and on which datagrams can be sent, the call reports
    success even when the REST and Modbus attempts both failed. *)
Theorem emergency_light_off_unknown_protocol :
  forall (S : Type) (net : network S) (ip protocol : string) (w : world S),
    civil net ->
    (forall s, exists fd s', net_sock net (Socket SOCK_DGRAM) s = (Ret fd, s')) ->
    (forall data host port s, exists sent s',
        net_sock net (SendTo data host port) s = (Ret sent, s')) ->
    ~ In protocol ["rest_api"; "modbus"; "knx"; "bacnet"; "mqtt"] ->
    fst (emergency_light_off net ip protocol w) = Ret true.
Proof.
  intros S net ip protocol w Hc Hsock Hsend Hn. unfold emergency_light_off.
  repeat match goal with
         | |- context [String.eqb protocol ?x] =>
             destruct (String.eqb protocol x) eqn:?
         end;
    try match goal with
        | H : String.eqb _ _ = true |- _ =>
            apply String.eqb_eq in H; exfalso; apply Hn; rewrite H; simpl; tauto
        end.
  unfold dispatch_plain. simpl. unfold bind at 1. unfold bind at 1.
  destruct (turn_off_lights_via_rest_returns net ip w) as (b1 & w1 & E1).
  rewrite E1. destruct b1; [reflexivity|].
  unfold bind at 1.
  destruct (turn_off_lights_via_modbus_returns net ip Hc w1) as (b2 & w2 & E2).
  rewrite E2. destruct b2; [reflexivity|].
  unfold bind at 1.
  destruct (turn_off_lights_via_knx_succeeds net Hsock Hsend ip w2) as (w3 & E3).
  rewrite E3. reflexivity.
Qed.

Lemma udp_only_civil : civil udp_only.
Proof.
  split.
  - intros r s e H. inversion H. reflexivity.
  - intros c s e H. destruct c; inversion H; reflexivity.
Qed.

Lemma emergency_light_off_unknown_protocol_witness :
  fst (turn_off_lights_via_rest udp_only "192.168.1.10" (start tt)) = Ret false /\
  fst (turn_off_lights_via_modbus udp_only "192.168.1.10" (start tt)) = Ret false /\
  fst (emergency_light_off udp_only "192.168.1.10" "opcua" (start tt)) = Ret true.
Proof.
  split; [vm_compute; reflexivity|]. split; [vm_compute; reflexivity|].
  apply (emergency_light_off_unknown_protocol unit udp_only "192.168.1.10"
           "opcua" (start tt) udp_only_civil).
  - intros s. eexists _, _. reflexivity.
  - intros data host port s. eexists _, _. reflexivity.
  - simpl. intros [H|[H|[H|[H|[H|[]]]]]]; discriminate H.
Defined.

(** X13. [building_wide_light_off] sends no command when the discovery
    finds no controller: it returns [False] straight away.  And its
    success is as weak as the UDP probe: with a KNX/UDP entry first in
    the catalog (as in the built-in one), at least one target, and a
    network on which datagrams can be sent, it always reports the whole
    building switched off, whatever else the network does. *)
Theorem building_wide_light_off_outcomes :
  (forall (S : Type) (net : network S) (self : BuildingLightController)
          (w w1 : world S),
      discover_building_controllers net self w = (Ret [], w1) ->
      building_wide_light_off net self w = (Ret false, w1))
  /\
  (forall (S : Type) (net : network S) (self : BuildingLightController)
          (ip : string) (ips : list string) (port : Z)
          (items : list (string * protocol_info)) (w : world S),
      common_controllers self = ip :: ips ->
      building_protocols self = ("knx", mkInfo port "UDP") :: items ->
      (forall s, exists fd s', net_sock net (Socket SOCK_DGRAM) s = (Ret fd, s')) ->
      (forall data host p s, exists sent s',
          net_sock net (SendTo data host p) s = (Ret sent, s')) ->
      fst (building_wide_light_off net self w) = Ret true).
Proof.
  split.
  - intros S net self w w1 E. unfold building_wide_light_off, bind.
    rewrite E. reflexivity.
  - intros S net self ip ips port items w Hc Hp Hsock Hsend.
    unfold building_wide_light_off, discover_building_controllers.
    rewrite Hc, Hp. cbn [probe_controllers probe_protocols info_port info_protocol].
    unfold bind at 1. unfold bind at 1. unfold bind at 1.
    destruct (check_controller_udp_succeeds net Hsock Hsend ip port w) as (w1 & E1).
    rewrite E1. cbn [app].
    destruct (probe_protocols_appends net ip items
                [mkFound ip port "knx" "UDP"] w1) as (m1 & w2 & E2).
    rewrite E2.
    destruct (probe_controllers_appends net (("knx", mkInfo port "UDP") :: items)
                ips ([mkFound ip port "knx" "UDP"] ++ m1)%list w2)
      as (m2 & w3 & E3).
    rewrite E3. cbn [app]. unfold or_return. cbn [for_return found_ip found_protocol].
    unfold bind at 1. unfold bind at 1. unfold bind at 1.
    unfold emergency_light_off.
    cbn [String.eqb Ascii.eqb Bool.eqb].
    destruct (turn_off_lights_via_knx_succeeds net Hsock Hsend ip w3) as (w4 & E4).
    rewrite E4. reflexivity.
Qed.

Lemma building_wide_light_off_outcomes_witness :
  fst (building_wide_light_off udp_only init (start tt)) = Ret true.
Proof.
  apply (proj2 building_wide_light_off_outcomes unit udp_only init
           "192.168.1.100"
           ["192.168.1.101"; "192.168.1.200"; "192.168.1.201";
            "192.168.1.10"; "192.168.1.50"; "plc.local"; "building-ctrl.local"]
           3671%Z
           [("modbus", mkInfo 502 "TCP"); ("bacnet", mkInfo 47808 "UDP");
            ("dali", mkInfo 50000 "TCP"); ("opcua", mkInfo 4840 "TCP");
            ("rest_api", mkInfo 80 "HTTP"); ("mqtt", mkInfo 1883 "TCP")]
           (start tt)).
  - reflexivity.
  - reflexivity.
  - intros s. eexists _, _. reflexivity.
  - intros data host p s. eexists _, _. reflexivity.
Defined.

End BuildingWideClaims.

(** ** dev003.py: what the discovery touches                              *)

Section DiscoveryReach.
Import Building Stubs.
Local Open Scope string_scope.
Context {S : Type} (net : network S) (self : BuildingLightController).

Lemma check_controller_probe_events ip port protocol :
  In ip (common_controllers self) ->
  In port (map (fun item => info_port (snd item)) (building_protocols self)) ->
  only_emits (probe_event self) (check_controller net ip port protocol).
Proof.
  intros Hip Hport. unfold check_controller.
  apply only_emits_or_return; [|apply only_emits_ret].
  apply only_emits_try_except; [|intros e; apply only_emits_ret].
  destruct (existsb (String.eqb protocol) ["TCP"; "HTTP"]);
    [|destruct (String.eqb protocol "UDP")];
    repeat first
      [ apply only_emits_ret
      | apply only_emits_bind
      | apply only_emits_sock; intros reply; simpl; auto
      | apply only_emits_sock_local; simpl; auto
      | intro ].
Qed.

Lemma probe_protocols_probe_events ip items :
  In ip (common_controllers self) ->
  incl items (building_protocols self) ->
  forall found, only_emits (probe_event self) (probe_protocols net ip items found).
Proof.
  intros Hip. induction items as [|[name info] rest IH]; intros Hincl found; simpl.
  - apply only_emits_ret.
  - apply only_emits_bind.
    + apply check_controller_probe_events; [exact Hip|].
      apply in_map_iff. exists (name, info). split; [reflexivity|].
      apply Hincl. left. reflexivity.
    + intros ok. apply IH. intros x Hx. apply Hincl. right. exact Hx.
Qed.

Lemma probe_controllers_probe_events controllers :
  incl controllers (common_controllers self) ->
  forall found,
    only_emits (probe_event self)
               (probe_controllers net controllers (building_protocols self) found).
Proof.
  induction controllers as [|ip rest IH]; intros Hincl found; simpl.
  - apply only_emits_ret.
  - apply only_emits_bind.
    + apply probe_protocols_probe_events; [apply Hincl; left; reflexivity|].
      apply incl_refl.
    + intros f. apply IH. intros x Hx. apply Hincl. right. exact Hx.
Qed.

End DiscoveryReach.

Section DiscoveryReachClaim.
Import Building.

(** X14. The discovery only probes what it is configured with: all it
    does on the network is create, configure and close sockets, call
    [connect_ex] on a listed target at a catalog port, or send such a
    target a single zero byte.  It makes no HTTP request, sends no other
    data, and never reads an answer. *)
Theorem discovery_only_probes_configured_targets :
  forall (S : Type) (net : network S) (self : BuildingLightController)
         (w : world S),
  exists evs,
    transcript (snd (discover_building_controllers net self w)) =
      (transcript w ++ evs)%list /\
    Forall (probe_event self) evs.
Proof.
  intros S net self.
  change (only_emits (probe_event self) (discover_building_controllers net self)).
  unfold discover_building_controllers.
  apply probe_controllers_probe_events. apply incl_refl.
Qed.

End DiscoveryReachClaim.

(** ** dev001.py: the system status                                       *)

Section SystemStatus.
Import BMS Stubs.
Local Open Scope string_scope.
Local Open Scope Z_scope.

Lemma status_attempt {S : Type} (net : network S) self endpoint (w : world S) :
  let q := mkRequest GET (base_url self ++ [Lit endpoint])%list NoBody []
                     (self_auth self) 5 false in
  let (reply, s') := net_http net q (net_state w) in
  try_except
    (response <- session_get net self [Lit endpoint] 5 ;;
     if status_code response =? 200
     then (v <- lift (response_json response) ;; ret (Some v))
     else ret None)%io
    (fun _ => ret None) w =
  (Ret (yields reply), mkWorld s' (transcript w ++ [EvHttp q reply])%list).
Proof.
  intros q. unfold session_get, http. fold q.
  destruct (net_http net q (net_state w)) as [[resp|e] s'] eqn:E.
  - run_io. rewrite E. unfold yields, response_json.
    destruct (status_code resp =? 200)%Z; [|reflexivity].
    destruct (json resp); reflexivity.
  - run_io. rewrite E. reflexivity.
Qed.

Lemma status_loop {S : Type} (net : network S) self endpoints :
  forall w : world S,
  exists r s' evs,
    for_return endpoints (fun endpoint =>
      try_except
        (response <- session_get net self [Lit endpoint] 5 ;;
         if status_code response =? 200
         then (v <- lift (response_json response) ;; ret (Some v))
         else ret None)%io
        (fun _ => ret None)) w =
    (Ret r, mkWorld s' (transcript w ++ evs)%list) /\
    forall v, r = Some v ->
      exists q reply, In (EvHttp q reply) evs /\ yields reply = Some v.
Proof.
  induction endpoints as [|endpoint rest IH]; intros w.
  - exists None, (net_state w), []. destruct w. simpl. rewrite app_nil_r.
    split; [reflexivity|]. discriminate.
  - cbn [for_return]. unfold bind at 1.
    pose proof (status_attempt net self endpoint w) as A. cbv zeta in A.
    destruct (net_http net _ (net_state w)) as [reply s1].
    rewrite A. destruct (yields reply) as [v|] eqn:Y.
    + eexists (Some v), s1, [_]. split; [reflexivity|].
      intros v' Hv. inversion Hv; subst. eexists _, reply.
      split; [left; reflexivity|exact Y].
    + match goal with
      | |- context [IO.mkWorld s1 ?tr] =>
          destruct (IH (mkWorld s1 tr)) as (r & s' & evs & R & H)
      end.
      rewrite R. cbn [transcript].
      eexists r, s', (_ :: evs). rewrite <- app_assoc.
      split; [reflexivity|]. intros v Hv.
      destruct (H v Hv) as (q & reply' & Hin & Hq). exists q, reply'.
      split; [right; exact Hin|exact Hq].
Qed.

(** X15. [get_system_status] never raises, and what it returns is
    either the JSON body of an answer with status 200 that it received,
    or the dict with status [unknown].  Its outer handler, which would
    answer with status [error] and the text of the exception, can never
    run: the result does not depend on how exceptions are printed. *)
Theorem get_system_status_never_reports_error :
  forall (S : Type) (net : network S) (self : BMSLightController)
         (exn_message : exn -> string) (w : world S),
  exists v s' evs,
    get_system_status net self exn_message w =
      (Ret v, mkWorld s' (transcript w ++ evs)%list) /\
    (v = status_unknown \/
     exists q reply, In (EvHttp q reply) evs /\ yields reply = Some v) /\
    forall other : exn -> string,
      get_system_status net self other w =
      get_system_status net self exn_message w.
Proof.
  intros S net self exn_message w.
  destruct (status_loop net self status_endpoints w) as (r & s' & evs & R & H).
  assert (G : forall f,
             get_system_status net self f w =
             (Ret (match r with Some v => v | None => status_unknown end),
              mkWorld s' (transcript w ++ evs)%list)).
  { intros f. unfold get_system_status, try_except_Exception, or_return.
    unfold bind at 1. rewrite R. destruct r; reflexivity. }
  eexists _, s', evs. split; [apply G|]. split.
  - destruct r as [v|]; [right; apply H; reflexivity|left; reflexivity].
  - intros other. rewrite !G. reflexivity.
Qed.

End SystemStatus.

(** ** dev001.py: which status codes count                                *)

Section UniformStatus.
Import BMS Stubs.
Local Open Scope string_scope.
Local Open Scope Z_scope.

Lemma for_return_none {S A R : Type} (xs : list A)
      (body : A -> M (S:=S) (option R)) :
  (forall x w, exists w', body x w = (Ret None, w')) ->
  forall w, exists w', for_return xs body w = (Ret None, w').
Proof.
  intros Hb. induction xs as [|x rest IH]; intros w; simpl.
  - exists w. reflexivity.
  - destruct (Hb x w) as (w1 & E). unfold bind. rewrite E. apply IH.
Qed.

Lemma run_chain_all_false {S : Type} (methods : list (strategy S)) :
  (forall m, In m methods -> forall w, exists w', execute m w = (Ret false, w')) ->
  forall attempts w, exists log w',
    run_chain methods attempts w = (Ret (false, log), w').
Proof.
  induction methods as [|m rest IH]; intros Hm attempts w; simpl.
  - eexists _, _. reflexivity.
  - destruct (Hm m (or_introl eq_refl) w) as (w1 & E).
    unfold bind at 1, attempt_once, try_except_Exception, bind, ret. rewrite E.
    apply IH. intros m' Hin. apply Hm. right. exact Hin.
Qed.

Context {S : Type} (net : network S) (self : BMSLightController) (c : Z).
Hypothesis Hstatus : forall r s, exists resp s',
  net_http net r s = (Ret resp, s') /\ status_code resp = c.

Lemma http_uniform r (w : world S) :
  exists resp w', http net r w = (Ret resp, w') /\ status_code resp = c /\
                  transcript w' = (transcript w ++ [EvHttp r (Ret resp)])%list.
Proof.
  unfold http. destruct (Hstatus r (net_state w)) as (resp & s' & E & C).
  rewrite E. eexists _, _. split; [reflexivity|]. split; [exact C|reflexivity].
Qed.

Hypothesis Hc : ~ In c [200; 201; 202].

Lemma not_200 : (c =? 200) = false.
Proof. apply Z.eqb_neq. intros ->. apply Hc. left. reflexivity. Qed.

Lemma not_accepted resp : status_code resp = c -> status_in resp [200; 201; 202] = false.
Proof.
  intros C. unfold status_in. rewrite C. simpl.
  repeat match goal with
         | |- context [c =? ?k] =>
             let E := fresh in
             destruct (c =? k) eqn:E;
             [apply Z.eqb_eq in E; exfalso; apply Hc; rewrite E; simpl; tauto|]
         end.
  reflexivity.
Qed.

Lemma _turn_off_via_rest_refused (w : world S) :
  exists w', _turn_off_via_rest net self w = (Ret false, w').
Proof.
  unfold _turn_off_via_rest. cbv zeta. unfold or_return.
  match goal with
  | |- context [for_return ?xs ?body] =>
      destruct (for_return_none xs body) with (w := w) as (w' & E)
  end.
  - intros [endpoint method] w0. unfold try_except, bind.
    destruct (String.eqb method "POST"); unfold session_post, session_get;
      match goal with
      | |- context [http net ?r w0] =>
          destruct (http_uniform r w0) as (resp & w1 & E & C & _); rewrite E
      end;
      rewrite (not_accepted resp C); eexists; reflexivity.
  - unfold bind at 1. cbv beta. rewrite E. eexists. reflexivity.
Qed.

Lemma _turn_off_via_soap_refused (w : world S) :
  exists w', _turn_off_via_soap net self w = (Ret false, w').
Proof.
  unfold _turn_off_via_soap. cbv zeta. unfold try_except, bind, session_post.
  match goal with
  | |- context [http net ?r w] =>
      destruct (http_uniform r w) as (resp & w1 & E & C & _); rewrite E
  end.
  unfold ret. rewrite C, not_200. eexists. reflexivity.
Qed.

Lemma _turn_off_via_simple_http_refused (w : world S) :
  exists w', _turn_off_via_simple_http net self w = (Ret false, w').
Proof.
  unfold _turn_off_via_simple_http. cbv zeta. unfold or_return.
  match goal with
  | |- context [for_return ?xs ?body] =>
      destruct (for_return_none xs body) with (w := w) as (w' & E)
  end.
  - intros command w0. unfold try_except, bind, session_get.
    match goal with
    | |- context [http net ?r w0] =>
        destruct (http_uniform r w0) as (resp & w1 & E & C & _); rewrite E
    end.
    rewrite C, not_200. eexists. reflexivity.
  - unfold bind at 1. cbv beta. rewrite E. eexists. reflexivity.
Qed.

Lemma _turn_off_via_bacnet_simulation_refused (w : world S) :
  exists w', _turn_off_via_bacnet_simulation net self w = (Ret false, w').
Proof.
  unfold _turn_off_via_bacnet_simulation. cbv zeta.
  unfold try_except, bind, session_post.
  match goal with
  | |- context [http net ?r w] =>
      destruct (http_uniform r w) as (resp & w1 & E & C & _); rewrite E
  end.
  unfold ret. rewrite C, not_200. eexists. reflexivity.
Qed.

Lemma _turn_off_zone_by_zone_refused (w : world S) :
  exists w', _turn_off_zone_by_zone net self w = (Ret false, w').
Proof.
  unfold _turn_off_zone_by_zone, get_lighting_zones.
  match goal with
  | |- context [for_return ?xs ?body] =>
      destruct (for_return_none xs body) with (w := w) as (w' & E)
  end.
  - intros endpoint w0. unfold try_except, bind, session_get.
    match goal with
    | |- context [http net ?r w0] =>
        destruct (http_uniform r w0) as (resp & w1 & E & C & _); rewrite E
    end.
    rewrite C, not_200. eexists. reflexivity.
  - unfold try_except_Exception at 1, bind at 1, try_except_Exception at 1,
      or_return, bind at 1.
    cbv beta. rewrite E. eexists. reflexivity.
Qed.

Lemma methods_refused m :
  In m (methods net self) -> forall w, exists w', execute m w = (Ret false, w').
Proof.
  simpl. intros [<-|[<-|[<-|[<-|[<-|[]]]]]]; simpl.
  - apply _turn_off_via_rest_refused.
  - apply _turn_off_via_soap_refused.
  - apply _turn_off_via_simple_http_refused.
  - apply _turn_off_via_bacnet_simulation_refused.
  - apply _turn_off_zone_by_zone_refused.
Qed.

End UniformStatus.

Section UniformStatusClaim.
Import BMS Stubs.
Local Open Scope Z_scope.

(** X16. Against a controller that answers every request with the same
    status code, [turn_off_all_lights] succeeds exactly when that code is
    200, 201 or 202, and then after a single request (the first REST
    endpoint); with any other code every strategy fails and the result
    is [False]. *)
Theorem turn_off_all_lights_uniform_status :
  forall (S : Type) (net : network S) (self : BMSLightController) (c : Z)
         (w : world S),
    (forall r s, exists resp s',
        net_http net r s = (Ret resp, s') /\ status_code resp = c) ->
    (In c [200; 201; 202] ->
     exists q resp w',
       turn_off_all_lights net self w = (Ret true, w') /\
       transcript w' = (transcript w ++ [EvHttp q (Ret resp)])%list) /\
    (~ In c [200; 201; 202] ->
     fst (turn_off_all_lights net self w) = Ret false).
Proof.
  intros S net self c w Hstatus. split.
  - intros Hin. unfold turn_off_all_lights, dispatch, methods.
    cbn [run_chain]. unfold attempt_once. cbn [execute].
    unfold _turn_off_via_rest. cbv zeta. cbn [for_return String.eqb Ascii.eqb Bool.eqb].
    unfold session_post.
    match goal with
    | |- context [http net ?r] =>
        destruct (http_uniform net c Hstatus r w) as (resp & w1 & E & C & T)
    end.
    assert (A : status_in resp [200; 201; 202] = true).
    { unfold status_in. rewrite C. simpl.
      destruct Hin as [<-|[<-|[<-|[]]]]; reflexivity. }
    eexists _, resp, w1. split; [|exact T].
    unfold or_return, try_except_Exception, try_except, bind, ret.
    rewrite E, A. reflexivity.
  - intros Hn. unfold turn_off_all_lights, dispatch.
    destruct (run_chain_all_false (methods net self)
                (methods_refused net self c Hstatus Hn) [] w) as (log & w' & R).
    unfold bind. rewrite R. reflexivity.
Qed.

Lemma turn_off_all_lights_uniform_status_witness :
  exists q resp w',
    turn_off_all_lights all_ok bms (start tt) = (Ret true, w') /\
    transcript w' = [EvHttp q (Ret resp)].
Proof.
  apply (proj1 (turn_off_all_lights_uniform_status unit all_ok bms 200 (start tt)
                  (fun r s => ex_intro _ (mkResponse 200 None)
                                (ex_intro _ s (conj eq_refl eq_refl))))).
  simpl. auto.
Defined.

End UniformStatusClaim.

(** ** dev003.py: hosts contacted                                         *)

Section WithinTargets.
Import Building Stubs.
Local Open Scope string_scope.
Context {S : Type} (net : network S) (self : BuildingLightController).

Lemma only_emits_weaken {A} (P Q : event -> Prop) (m : M (S:=S) A) :
  (forall ev, P ev -> Q ev) -> only_emits P m -> only_emits Q m.
Proof.
  intros H Hm w. destruct (Hm w) as (evs & T & F). exists evs.
  split; [exact T|]. eapply Forall_impl; [exact H|exact F].
Qed.

Lemma probe_event_within ev : probe_event self ev -> within_targets self ev.
Proof.
  destruct ev as [r reply|c reply|ms]; simpl; try tauto.
  destruct c; simpl; try tauto.
  destruct data as [|b [|b' data]]; try tauto; destruct b; tauto.
Qed.

Ltac within_step ip Hip :=
  first
    [ apply only_emits_ret | apply only_emits_lift
    | apply only_emits_bind | apply only_emits_try_except_Exception
    | apply only_emits_try_except | apply only_emits_or_return
    | apply only_emits_for_return
    | apply only_emits_sock; intros ?; simpl; solve [auto]
    | apply only_emits_sock_local; simpl; solve [auto]
    | apply only_emits_http; intros ?; simpl; solve [eauto]
    | match goal with
      | |- forall _, _ => intro
      | |- only_emits _ (if ?c then _ else _) => destruct c
      | |- only_emits _ (match ?x with _ => _ end) => destruct x
      end ].

Lemma via_rest_within ip :
  In ip (common_controllers self) ->
  only_emits (within_targets self) (turn_off_lights_via_rest net ip).
Proof.
  intros Hip. unfold turn_off_lights_via_rest, requests_post. cbv zeta.
  apply only_emits_or_return; [|apply only_emits_ret].
  apply only_emits_try_except_Exception; [|intros e; apply only_emits_ret].
  apply only_emits_bind.
  - apply only_emits_for_return. intros endpoint Hin.
    apply only_emits_try_except; [|intros e; apply only_emits_ret].
    apply only_emits_bind.
    + apply only_emits_http. intros reply. simpl.
      simpl in Hin. repeat (destruct Hin as [<-|Hin]; [eauto|]). destruct Hin.
    + repeat within_step ip Hip.
  - intros [b|]; [apply only_emits_ret|].
    apply only_emits_for_return. intros endpoint Hin.
    apply only_emits_try_except; [|intros e; apply only_emits_ret].
    apply only_emits_bind.
    + apply only_emits_http. intros reply. simpl.
      simpl in Hin. repeat (destruct Hin as [<-|Hin]; [eauto|]). destruct Hin.
    + repeat within_step ip Hip.
Qed.

Lemma emergency_light_off_within ip protocol :
  In ip (common_controllers self) ->
  only_emits (within_targets self) (emergency_light_off net ip protocol).
Proof.
  intros Hip. unfold emergency_light_off.
  repeat match goal with
         | |- only_emits _ (if ?c then _ else _) => destruct c
         end.
  - apply via_rest_within. exact Hip.
  - unfold turn_off_lights_via_modbus. repeat within_step ip Hip.
  - unfold turn_off_lights_via_knx. repeat within_step ip Hip.
  - unfold turn_off_lights_via_bacnet. repeat within_step ip Hip.
  - unfold turn_off_lights_via_mqtt. repeat within_step ip Hip.
  - unfold dispatch_plain.
    apply only_emits_bind; [|intros r; apply only_emits_ret].
    apply only_emits_run_chain_plain.
    simpl. intros m [<-|[<-|[<-|[]]]]; simpl.
    + apply via_rest_within. exact Hip.
    + unfold turn_off_lights_via_modbus. repeat within_step ip Hip.
    + unfold turn_off_lights_via_knx. repeat within_step ip Hip.
Qed.

Lemma probe_protocols_found_ips ip items :
  In ip (common_controllers self) ->
  forall found (w : world S) out w',
    Forall (fun f => In (found_ip f) (common_controllers self)) found ->
    probe_protocols net ip items found w = (Ret out, w') ->
    Forall (fun f => In (found_ip f) (common_controllers self)) out.
Proof.
  intros Hip. induction items as [|[name info] rest IH];
    intros found w out w' Hf E; simpl in E.
  - inversion E; subst. exact Hf.
  - unfold bind at 1 in E.
    destruct (check_controller net ip (info_port info) (info_protocol info) w)
      as [[ok|e] w1]; [|discriminate E].
    eapply IH; [|exact E]. destruct ok; [|exact Hf].
    apply Forall_app. split; [exact Hf|]. constructor; [exact Hip|constructor].
Qed.

Lemma probe_controllers_found_ips items controllers :
  incl controllers (common_controllers self) ->
  forall found (w : world S) out w',
    Forall (fun f => In (found_ip f) (common_controllers self)) found ->
    probe_controllers net controllers items found w = (Ret out, w') ->
    Forall (fun f => In (found_ip f) (common_controllers self)) out.
Proof.
  induction controllers as [|ip rest IH]; intros Hincl found w out w' Hf E;
    simpl in E.
  - inversion E; subst. exact Hf.
  - unfold bind at 1 in E.
    destruct (probe_protocols net ip items found w) as [[f1|e] w1] eqn:E1;
      [|discriminate E].
    eapply IH; [|eapply probe_protocols_found_ips; [|exact Hf|exact E1]|exact E].
    + intros x Hx. apply Hincl. right. exact Hx.
    + apply Hincl. left. reflexivity.
Qed.

Lemma probe_protocols_returns ip items :
  forall found, no_raise (probe_protocols net ip items found).
Proof.
  induction items as [|[name info] rest IH]; intros found; simpl.
  - apply no_raise_ret.
  - apply no_raise_bind; [apply check_controller_returns|].
    intros ok. apply IH.
Qed.

Lemma probe_controllers_returns items controllers :
  forall found, no_raise (probe_controllers net controllers items found).
Proof.
  induction controllers as [|ip rest IH]; intros found; simpl.
  - apply no_raise_ret.
  - apply no_raise_bind; [apply probe_protocols_returns|].
    intros f. apply IH.
Qed.

End WithinTargets.

Section NamedHosts.
Import Building.
Context {S : Type} (net : network S).

Lemma names_only_incl hosts hosts' ev :
  incl hosts hosts' -> names_only hosts ev -> names_only hosts' ev.
Proof.
  intros Hincl. destruct ev as [r reply|c reply|ms]; simpl; [|destruct c|];
    try tauto; try (intros H; apply Hincl; exact H).
  intros (ip & rest & U & Hin). exists ip, rest. split; [exact U|].
  apply Hincl. exact Hin.
Qed.

Lemma emergency_light_off_names hosts ip protocol :
  In ip hosts ->
  only_emits (names_only hosts) (emergency_light_off net ip protocol).
Proof.
  intros Hip.
  exact (emergency_light_off_within net (mkBuilding [] hosts) ip protocol Hip).
Qed.

End NamedHosts.

Section WithinTargetsClaim.
Import Building.

(** X17. No call of [building_wide_light_off] names a host that is not
    in [common_controllers]: every [connect], [connect_ex] and [sendto]
    of the discovery and of the commands that follow is addressed to a
    listed target, and every [requests.post] is passed a URL on a listed
    target.  The discovery never raises, and the calls made after it
    (the commands) only name targets that the discovery has found.
    (The property is about the calls of the script; where the library
    goes by itself after a redirecting answer is not covered.) *)
Theorem building_wide_light_off_stays_within_targets :
  forall (S : Type) (net : network S) (self : BuildingLightController)
         (w : world S),
  exists found w1 probes commands,
    discover_building_controllers net self w = (Ret found, w1) /\
    transcript w1 = (transcript w ++ probes)%list /\
    transcript (snd (building_wide_light_off net self w)) =
      (transcript w ++ probes ++ commands)%list /\
    Forall (within_targets self) (probes ++ commands)%list /\
    Forall (names_only (map found_ip found)) commands.
Proof.
  intros S net self w.
  destruct (probe_controllers_returns net (building_protocols self)
              (common_controllers self) [] w) as (found & w1 & D).
  fold (discover_building_controllers net self) in D.
  destruct (only_emits_weaken (probe_event self) (within_targets self) _
              (probe_event_within self)
              (probe_controllers_probe_events net self (common_controllers self)
                 (incl_refl _) []) w) as (probes & T1 & F1).
  fold (discover_building_controllers net self) in T1.
  rewrite D in T1. simpl in T1.
  assert (Hips : Forall (fun f => In (found_ip f) (common_controllers self)) found).
  { eapply (probe_controllers_found_ips net self); [apply incl_refl| |exact D].
    constructor. }
  assert (Hincl : incl (map found_ip found) (common_controllers self)).
  { intros ip Hin. apply in_map_iff in Hin. destruct Hin as (f & <- & Hf).
    rewrite Forall_forall in Hips. apply Hips. exact Hf. }
  exists found, w1, probes.
  unfold building_wide_light_off, bind. rewrite D.
  destruct found as [|f fs].
  - exists []. rewrite !app_nil_r. simpl. repeat split; auto.
  - match goal with
    | |- context [or_return ?loop ?after w1] =>
        assert (E : only_emits (names_only (map found_ip (f :: fs)))
                               (or_return loop after))
    end.
    { apply only_emits_or_return; [|apply only_emits_ret].
      apply only_emits_for_return. intros controller Hin.
      apply only_emits_bind.
      - apply emergency_light_off_names. apply in_map. exact Hin.
      - intros [|]; apply only_emits_ret. }
    destruct (E w1) as (commands & T2 & F2). exists commands.
    rewrite T2, T1, app_assoc. split; [reflexivity|]. split; [reflexivity|].
    split; [reflexivity|]. split; [|exact F2].
    apply Forall_app. split; [exact F1|].
    eapply Forall_impl; [|exact F2]. intros ev.
    apply (names_only_incl _ (common_controllers self) ev Hincl).
Qed.

End WithinTargetsClaim.

(** ** dev001.py: HTTP probes                                             *)

Section HttpProbes.
Import BMS Stubs.
Local Open Scope string_scope.
Local Open Scope Z_scope.



End HttpProbes.
